(** * A WebSocket signaling server for screen sharing: the session
      lifecycle, relay and control gate of its four source variants.

    The repository holds four versions of one Node.js program:

    - [Mvp]       (src/unnamed/part_001): a host disconnect removes the
                  session at once;
    - [Grace]     (src/server.js, first document): a disconnect arms a
                  two-minute timer that finalises the slot;
    - [Restore]   (src/unnamed/part_000): [Grace] plus a
                  ['restore-session'] request that cancels the timer;
    - [Heartbeat] (src/server.js, second document): offline flags, a
                  ['reconnect-session'] request and a ping loop.

    Every handler runs to completion on one event (a connection, a
    message, a close, a timer), so a handler is a function from the state
    before the event to the state after it and the list of messages it
    hands to [send]. *)

From Stdlib Require Import NArith DecimalString DecimalFacts DecimalPos DecimalN.
From stdpp Require Import base option list strings.

Local Open Scope string_scope.
Local Open Scope list_scope.

(** ** JavaScript objects used as dictionaries

    [sessions], [clients] and [disconnectTimers] are plain objects. An
    object is kept as the list of its own properties, in the enumeration
    order of the language: array-index keys (canonical decimal numerals below
    2^32 - 1) in ascending numeric order, then every other key in insertion
    order. [get] reads an own property; what a read finds on
    [Object.prototype] when there is none is in [Proto] and [inherited]
    below. *)
Module JsObj.

Definition t (A : Type) : Type := list (string * A).

(** The array index a key denotes, if it is one. *)
Definition array_index (k : string) : option N :=
  match NilZero.uint_of_string k with
  | Some u =>
      let n := N.of_uint u in
      if String.eqb (NilZero.string_of_uint (N.to_uint n)) k
         && (n <? 4294967295)%N
      then Some n else None
  | None => None
  end.

(** The own property [k], if there is one. *)
Fixpoint get {A} (o : t A) (k : string) : option A :=
  match o with
  | [] => None
  | (k', v) :: rest => if String.eqb k k' then Some v else get rest k
  end.

(** Assignment to a property that exists keeps its place. *)
Fixpoint replace {A} (k : string) (v : A) (o : t A) : t A :=
  match o with
  | [] => []
  | (k', v') :: rest =>
      if String.eqb k k' then (k, v) :: rest else (k', v') :: replace k v rest
  end.

(** A new array-index key goes before the first property that is not an
    array index or has a larger one. *)
Fixpoint insert_index {A} (n : N) (k : string) (v : A) (o : t A) : t A :=
  match o with
  | [] => [(k, v)]
  | (k', v') :: rest =>
      match array_index k' with
      | Some n' =>
          if (n <? n')%N then (k, v) :: o
          else (k', v') :: insert_index n k v rest
      | None => (k, v) :: o
      end
  end.

(** [o[k] = v] *)
Definition set {A} (k : string) (v : A) (o : t A) : t A :=
  match get o k with
  | Some _ => replace k v o
  | None =>
      match array_index k with
      | Some n => insert_index n k v o
      | None => o ++ [(k, v)]
      end
  end.

(** [delete o[k]] *)
Fixpoint delete {A} (k : string) (o : t A) : t A :=
  match o with
  | [] => []
  | (k', v') :: rest =>
      if String.eqb k k' then delete k rest else (k', v') :: delete k rest
  end.

(** The keys in enumeration order. *)
Definition keys {A} (o : t A) : list string := map fst o.

End JsObj.

(** ** Data model *)

(** Connection identifiers and session identifiers are the strings
    [uuidv4()] returns; a session code is a property key of [sessions]. *)
Abbreviation ConnId := string (only parsing).
Abbreviation SessionId := string (only parsing).
Abbreviation Code := string (only parsing).

(** A message field the server only passes on ([payload], [event]). *)
Abbreviation Json := string (only parsing).

(** References to the objects the program shares between the registries
    and its closures: the session records, the [ws] sockets, the timers. *)
Abbreviation sref := nat (only parsing).
Abbreviation wref := nat (only parsing).
Abbreviation tref := nat (only parsing).

(** The session record. [hostOffline] and [clientOffline] exist in the
    heartbeat variant only; the other variants create them [false] and
    never read or write them. *)
Module Session.
Record t := mk {
  id : SessionId;
  hostId : ConnId;
  clientId : option ConnId;
  createdAt : N;
  controlEnabled : bool;
  hostOffline : bool;
  clientOffline : bool
}.

Definition set_hostId (v : ConnId) (s : t) : t :=
  mk (id s) v (clientId s) (createdAt s) (controlEnabled s)
     (hostOffline s) (clientOffline s).
Definition set_clientId (v : option ConnId) (s : t) : t :=
  mk (id s) (hostId s) v (createdAt s) (controlEnabled s)
     (hostOffline s) (clientOffline s).
Definition set_controlEnabled (v : bool) (s : t) : t :=
  mk (id s) (hostId s) (clientId s) (createdAt s) v
     (hostOffline s) (clientOffline s).
Definition set_hostOffline (v : bool) (s : t) : t :=
  mk (id s) (hostId s) (clientId s) (createdAt s) (controlEnabled s)
     v (clientOffline s).
Definition set_clientOffline (v : bool) (s : t) : t :=
  mk (id s) (hostId s) (clientId s) (createdAt s) (controlEnabled s)
     (hostOffline s) v.
End Session.

(** The fields the server adds to a [ws] socket. [_clientId] never changes;
    [_role] is written by the heartbeat variant only. *)
Module Socket.
Record t := mk {
  _clientId : ConnId;
  _sessionId : option SessionId;
  _role : option string
}.

Definition set_sessionId (v : option SessionId) (w : t) : t :=
  mk (_clientId w) v (_role w).
Definition set_role (v : option string) (w : t) : t :=
  mk (_clientId w) (_sessionId w) v.
End Socket.

(** [Object.prototype], from which [sessions], [clients] and
    [disconnectTimers] inherit. [names] are its own property names: each
    holds a function, but [__proto__], an accessor that yields
    [Object.prototype] itself. These objects are reached by a lookup
    [sessions[k]] with such a [k] from a message, and the handlers then
    treat them as session objects. A record [t] keeps what the handlers
    may write on one of them: [hostId] and [clientId], [None] while the
    object has no such own property. The heartbeat variant also writes
    [hostOffline] and [clientOffline], both [false]; no variant reads them,
    and a key that finds [false] is treated as one that finds nothing, so
    they are not kept. *)
Module Proto.

Definition names : list string :=
  ["constructor"; "__defineGetter__"; "__defineSetter__"; "hasOwnProperty";
   "__lookupGetter__"; "__lookupSetter__"; "isPrototypeOf";
   "propertyIsEnumerable"; "toString"; "valueOf"; "__proto__";
   "toLocaleString"].

Definition is_name (k : string) : bool := existsb (String.eqb k) names.

Record t := mk {
  hostId : option ConnId;
  clientId : option ConnId
}.

Definition empty : t := mk None None.

Definition set_hostId (v : ConnId) (o : t) : t := mk (Some v) (clientId o).
Definition set_clientId (v : ConnId) (o : t) : t := mk (hostId o) (Some v).

End Proto.

(** A truthy value that [sessions[k]] finds on the prototype chain:
    [intrinsic k] is the object [Object.prototype[k]] ([Object.prototype]
    itself for [__proto__]), [text v] a string a handler has stored on
    [Object.prototype]. *)
Inductive Inherited :=
| intrinsic (k : string)
| text (v : string).

(** The two closures [ws.on('close')] passes to [setTimeout]. Each captures
    the loop variable [code], the connection's [clientId] and the session
    object [s] found by the loop. *)
Inductive Callback :=
| host_grace (code : Code) (clientId : ConnId) (s : sref)
| client_grace (code : Code) (clientId : ConnId) (s : sref).

Module Timer.
Record t := mk { callback : Callback; pending : bool }.
End Timer.

(** The parsed body of an inbound message, any JSON value but [null], with
    the fields the handlers destructure; [None] is [undefined]. A body that
    is no object has no field. A [type] that is missing or is not a string
    behaves as one that no branch tests for. [sessionCode] is the text the
    value has as a property key. [enabled] is the truthiness of the field,
    which is all [!!enabled] keeps of it. A body that parses to [null] is
    the event [Message_null] below. *)
Module Data.
Record t := mk {
  type : string;
  sessionCode : option string;
  role : option string;
  sessionId : option string;
  payload : Json;
  enabled : bool;
  event : Json
}.
End Data.

(** What a handler gets from outside the program: the value of
    [Math.floor(100000 + Math.random() * 900000)], of [uuidv4()] and of
    [new Date()]. The draw is the whole number the floating-point expression
    yields, the sum rounded before the floor is taken. [Math.random()] is at
    least 0 and below 1; the product is then at most 900000 - 2^-33 and the
    sum at most 1000000 - 2^-33, both doubles, so the draw lies between
    100000 and 999999: [External.in_range]. A value of [uuidv4()] is a
    string of 36 characters, none of them a property name of
    [Object.prototype]: the keys of [clients] and the identifiers in the
    slots of a session are such values, so a read [clients[id]] finds an own
    property or nothing. *)
Module External.
Record t := mk { draw : N; uuid : string; now : N }.

Definition in_range (x : t) : Prop := (100000 ≤ draw x ≤ 999999)%N.
End External.

(** The objects given to [send]. The last four are the replies whose
    [sessionId] is [undefined], which [JSON.stringify] leaves out: the
    "session" was a value inherited from [Object.prototype], without an
    [id]. *)
Inductive Obj :=
| connected (clientId : ConnId)
| error (message : string)
| session_created (sessionCode : Code) (sessionId : SessionId)
| session_joined (sessionId : SessionId) (sessionCode : Code)
| client_joined (clientId : ConnId)
| relayed (type : string) (from : ConnId) (payload : Json)
| control_status (enabled : bool)
| control_event (from : ConnId) (event : Json)
| host_disconnected
| client_disconnected
| host_offline
| client_offline
| host_reconnected
| client_reconnected
| session_restored (sessionId : SessionId) (sessionCode : Code)
| session_rejoined (sessionId : SessionId)
| reconnect_session_failed (message : string)
| reconnect_session_success (sessionId : SessionId) (sessionCode : Code)
| session_joined_no_id (sessionCode : Code)
| session_restored_no_id (sessionCode : Code)
| session_rejoined_no_id
| reconnect_session_success_no_id (sessionCode : Code).

(** One call of [send(ws, obj)]. *)
Definition Out : Type := wref * Obj.

Definition send (ws : wref) (obj : Obj) : list Out := [(ws, obj)].

(** The program state: the three module-level objects, the heaps of the
    objects they and the closures refer to, and what the handlers have
    written on [Object.prototype] and its functions, by property name. *)
Record State := mkState {
  sessions : JsObj.t sref;
  clients : JsObj.t wref;
  disconnectTimers : JsObj.t tref;
  session_heap : list Session.t;
  socket_heap : list Socket.t;
  timer_heap : list Timer.t;
  intrinsics : JsObj.t Proto.t
}.

Definition initial : State := mkState [] [] [] [] [] [] [].

Definition set_sessions (f : JsObj.t sref -> JsObj.t sref) (σ : State) : State :=
  mkState (f (sessions σ)) (clients σ) (disconnectTimers σ)
          (session_heap σ) (socket_heap σ) (timer_heap σ) (intrinsics σ).
Definition set_clients (f : JsObj.t wref -> JsObj.t wref) (σ : State) : State :=
  mkState (sessions σ) (f (clients σ)) (disconnectTimers σ)
          (session_heap σ) (socket_heap σ) (timer_heap σ) (intrinsics σ).
Definition set_disconnectTimers (f : JsObj.t tref -> JsObj.t tref) (σ : State) : State :=
  mkState (sessions σ) (clients σ) (f (disconnectTimers σ))
          (session_heap σ) (socket_heap σ) (timer_heap σ) (intrinsics σ).

(** A write to a field of a session object, of a socket, of a timer. *)
Definition upd_session (s : sref) (f : Session.t -> Session.t) (σ : State) : State :=
  mkState (sessions σ) (clients σ) (disconnectTimers σ)
          (alter f s (session_heap σ)) (socket_heap σ) (timer_heap σ)
          (intrinsics σ).
Definition upd_socket (ws : wref) (f : Socket.t -> Socket.t) (σ : State) : State :=
  mkState (sessions σ) (clients σ) (disconnectTimers σ)
          (session_heap σ) (alter f ws (socket_heap σ)) (timer_heap σ)
          (intrinsics σ).
Definition upd_timer (h : tref) (f : Timer.t -> Timer.t) (σ : State) : State :=
  mkState (sessions σ) (clients σ) (disconnectTimers σ)
          (session_heap σ) (socket_heap σ) (alter f h (timer_heap σ))
          (intrinsics σ).

(** The properties written so far on the object [Object.prototype[k]], and a
    write to one of them. *)
Definition intrinsic_at (σ : State) (k : string) : Proto.t :=
  default Proto.empty (JsObj.get (intrinsics σ) k).
Definition upd_intrinsic (k : string) (f : Proto.t -> Proto.t) (σ : State) : State :=
  mkState (sessions σ) (clients σ) (disconnectTimers σ)
          (session_heap σ) (socket_heap σ) (timer_heap σ)
          (JsObj.set k (f (intrinsic_at σ k)) (intrinsics σ)).

(** Allocation of a new session object, socket, timer. *)
Definition new_session (v : Session.t) (σ : State) : sref * State :=
  (length (session_heap σ),
   mkState (sessions σ) (clients σ) (disconnectTimers σ)
           (session_heap σ ++ [v]) (socket_heap σ) (timer_heap σ)
           (intrinsics σ)).
Definition new_socket (v : Socket.t) (σ : State) : wref * State :=
  (length (socket_heap σ),
   mkState (sessions σ) (clients σ) (disconnectTimers σ)
           (session_heap σ) (socket_heap σ ++ [v]) (timer_heap σ)
           (intrinsics σ)).
Definition setTimeout (cb : Callback) (σ : State) : tref * State :=
  (length (timer_heap σ),
   mkState (sessions σ) (clients σ) (disconnectTimers σ)
           (session_heap σ) (socket_heap σ) (timer_heap σ ++ [Timer.mk cb true])
           (intrinsics σ)).

(** [clearTimeout(h)]: no effect on [undefined] or on a timer that has run,
    and none on a value that is no timer, such as the one
    [disconnectTimers[k]] inherits for a [k] of [Proto.names]: [h] is the
    own property, if any. *)
Definition clearTimeout (h : option tref) (σ : State) : State :=
  match h with
  | Some h => upd_timer h (fun t => Timer.mk (Timer.callback t) false) σ
  | None => σ
  end.

(** ** Helpers shared by the four variants *)

(** Truthiness of a value that is [null], [undefined] or a string. *)
Definition truthy (v : option string) : bool :=
  match v with
  | Some s => negb (String.eqb s "")
  | None => false
  end.

(** [a === b] for [a] a string, [null] or [undefined], and [b] a string. *)
Definition strict_eq (a : option string) (b : string) : bool :=
  match a with
  | Some a => String.eqb a b
  | None => false
  end.

(** Truthiness of the result of a property read: an object or [undefined]. *)
Definition defined {A} (o : option A) : bool :=
  match o with
  | Some _ => true
  | None => false
  end.

(** The property key a value is converted to in [o[v]]. *)
Definition key_of_undefined (v : option string) : string := default "undefined" v.
Definition key_of_null (v : option string) : string := default "null" v.

(** ['' + n] and [String(n)] for the whole number [n] that
    [Math.floor(100000 + Math.random() * 900000)] yields. *)
Definition code_of_draw (draw : N) : Code :=
  NilZero.string_of_uint (N.to_uint draw).

(** [sessions[code]] when [code] is an own property: the session object,
    with its fields. *)
Definition session_at (σ : State) (code : Code) : option (sref * Session.t) :=
  s ← JsObj.get (sessions σ) code;
  session ← session_heap σ !! s;
  Some (s, session).

(** [Object.prototype.hostId] and [Object.prototype.clientId], [None] until
    a handler writes them. *)
Definition prototype_hostId (σ : State) : option ConnId :=
  Proto.hostId (intrinsic_at σ "__proto__").
Definition prototype_clientId (σ : State) : option ConnId :=
  Proto.clientId (intrinsic_at σ "__proto__").

(** [sessions[k]] when [k] is no own property: the truthy value found on
    [Object.prototype], if there is one. That is a function or
    [Object.prototype] itself for a name of [Proto.names], and the string
    stored there for [hostId] and [clientId]. *)
Definition inherited (σ : State) (k : string) : option Inherited :=
  if defined (JsObj.get (sessions σ) k) then None
  else if Proto.is_name k then Some (intrinsic k)
  else if String.eqb k "hostId" then
    match prototype_hostId σ with
    | Some v => if truthy (Some v) then Some (text v) else None
    | None => None
    end
  else if String.eqb k "clientId" then
    match prototype_clientId σ with
    | Some v => if truthy (Some v) then Some (text v) else None
    | None => None
    end
  else None.

(** The keys for which [sessions] may inherit a truthy value. *)
Definition inheritable (k : string) : bool :=
  Proto.is_name k || String.eqb k "hostId" || String.eqb k "clientId".

(** [v.hostId] and [v.clientId] for such a value: the own property of the
    object, else the one of [Object.prototype]; [None] is [undefined]. A
    string has no own property of these names. *)
Definition inherited_hostId (σ : State) (v : Inherited) : option ConnId :=
  match v with
  | intrinsic k =>
      match Proto.hostId (intrinsic_at σ k) with
      | Some c => Some c
      | None => prototype_hostId σ
      end
  | text _ => prototype_hostId σ
  end.
Definition inherited_clientId (σ : State) (v : Inherited) : option ConnId :=
  match v with
  | intrinsic k =>
      match Proto.clientId (intrinsic_at σ k) with
      | Some c => Some c
      | None => prototype_clientId σ
      end
  | text _ => prototype_clientId σ
  end.

(** [v.hostId = c] and [v.clientId = c]: an own property of the object; on
    a string the assignment does nothing (the modules are not in strict
    mode). *)
Definition write_hostId (v : Inherited) (c : ConnId) (σ : State) : State :=
  match v with
  | intrinsic k => upd_intrinsic k (Proto.set_hostId c) σ
  | text _ => σ
  end.
Definition write_clientId (v : Inherited) (c : ConnId) (σ : State) : State :=
  match v with
  | intrinsic k => upd_intrinsic k (Proto.set_clientId c) σ
  | text _ => σ
  end.

(** The entries of [sessions] in enumeration order. *)
Definition session_entries (σ : State) : list (Code * sref * Session.t) :=
  omap (fun '(code, s) => session ← session_heap σ !! s; Some (code, s, session))
       (sessions σ).

(** [Object.values(sessions).find(s => s.id === sessionId)] *)
Definition find_session (σ : State) (sessionId : option string)
  : option (sref * Session.t) :=
  '(_, s, session) ← List.find (fun e => strict_eq sessionId (Session.id e.2))
                               (session_entries σ);
  Some (s, session).

(** [for (const code in sessions) { const s = sessions[code];
      if (s && s.id === sessionId) { ...; break; } }], entered with a truthy
    [sessionId]: the entry the body runs on, if any. The loop also visits
    the names a handler has written on [Object.prototype]; what it reads
    there is a string or [false], whose [id] is [undefined], so the test
    fails on them. *)
Definition first_with_id (σ : State) (sessionId : option string)
  : option (Code * sref * Session.t) :=
  List.find (fun e => strict_eq sessionId (Session.id e.2)) (session_entries σ).

(** [clients[id]] for an identifier that may be [null]. *)
Definition client_ws (σ : State) (id : option ConnId) : option wref :=
  JsObj.get (clients σ) (key_of_null id).

(** [id && clients[id]] *)
Definition live_ws (σ : State) (id : option ConnId) : option wref :=
  if truthy id then client_ws σ id else None.

(** [broadcastToSession(sessionId, obj)], called with the id of a session
    object. The names a handler has written on [Object.prototype] are
    visited too; the string or [false] read there has no [_sessionId]. *)
Definition broadcastToSession (σ : State) (sessionId : SessionId) (obj : Obj)
  : list Out :=
  flat_map
    (fun '(cid, ws) =>
       match socket_heap σ !! ws with
       | Some w => if strict_eq (Socket._sessionId w) sessionId
                   then send ws obj else []
       | None => []
       end)
    (clients σ).

(** [const targetId = (sessionEntry.hostId === clientId)
                      ? sessionEntry.clientId : sessionEntry.hostId] *)
Definition targetId (session : Session.t) (clientId : ConnId) : option ConnId :=
  if String.eqb (Session.hostId session) clientId
  then Session.clientId session
  else Some (Session.hostId session).

(** [['offer', 'answer', 'ice-candidate'].includes(type)] *)
Definition is_signal (type : string) : bool :=
  String.eqb type "offer" || String.eqb type "answer"
  || String.eqb type "ice-candidate".

(** The events the program reacts to. A message is the parsed body, or
    [None] when [JSON.parse] throws. [Message_null] is a message whose
    text is the JSON value [null]. *)
Inductive Event :=
| Connection (x : External.t)
| Message (ws : wref) (msg : option Data.t) (x : External.t)
| Message_null (ws : wref)
| Close (ws : wref)
| Timeout (h : tref).

(** [ws.on('message', ...)] on the text [null], in every variant:
    [JSON.parse] returns [null] and [const { type } = data], which is
    outside the [try], throws a [TypeError]. The listener ends there; it
    has sent nothing and written nothing. Nothing in the program catches the
    exception, so Node ends the process and no event follows; a run that
    goes on after this step has more behaviour than the program, not
    less. *)
Definition on_message_null (ws : wref) (σ : State) : State * list Out := (σ, []).

(** [wss.on('connection', ...)] up to the registration of the listeners,
    the same in all variants; the [isAlive] flag the heartbeat variant adds
    is read by its ping loop only. *)
Definition on_connection (x : External.t) (σ : State) : State * list Out :=
  let clientId := External.uuid x in
  let '(ws, σ) := new_socket (Socket.mk clientId None None) σ in
  let σ := set_clients (JsObj.set clientId ws) σ in
  (σ, send ws (connected clientId)).

(** ['create-session'] (mvp, grace-timer and restore variants). *)
Definition create_session (ws : wref) (clientId : ConnId) (x : External.t)
    (σ : State) : State * list Out :=
  let sessionCode := code_of_draw (External.draw x) in
  let sessionId := External.uuid x in
  let '(s, σ) :=
    new_session (Session.mk sessionId clientId None (External.now x)
                            false false false) σ in
  let σ := set_sessions (JsObj.set sessionCode s) σ in
  let σ := upd_socket ws (Socket.set_sessionId (Some sessionId)) σ in
  (σ, send ws (session_created sessionCode sessionId)).

(** ['toggle-control'] (mvp, grace-timer and restore variants). *)
Definition toggle_control (ws : wref) (clientId : ConnId) (data : Data.t)
    (σ : State) : State * list Out :=
  match find_session σ (Data.sessionId data) with
  | None => (σ, send ws (error "unknown-session"))
  | Some (s, sessionEntry) =>
      if negb (String.eqb (Session.hostId sessionEntry) clientId)
      then (σ, send ws (error "not-host"))
      else
        let σ := upd_session s (Session.set_controlEnabled (Data.enabled data)) σ in
        (σ, broadcastToSession σ (Session.id sessionEntry)
                               (control_status (Data.enabled data)))
  end.

(** ['join-session'] past the lookup (mvp, grace-timer and restore
    variants), when [sessions[sessionCode]] is the inherited value [v]: the
    same statements, run on [v]. Its [id] is [undefined], and so is its
    [hostId] until a handler writes one. [delete] finds no own property. *)
Definition join_inherited (ws : wref) (clientId : ConnId) (sessionCode : Code)
    (v : Inherited) (σ : State) : State * list Out :=
  match JsObj.get (clients σ) (key_of_undefined (inherited_hostId σ v)) with
  | None =>
      (set_sessions (JsObj.delete sessionCode) σ,
       send ws (error "host-not-available"))
  | Some hostWs =>
      match live_ws σ (inherited_clientId σ v) with
      | Some _ => (σ, send ws (error "session-already-has-client"))
      | None =>
          let σ := write_clientId v clientId σ in
          let σ := upd_socket ws (Socket.set_sessionId None) σ in
          (σ, send ws (session_joined_no_id sessionCode)
              ++ send hostWs (client_joined clientId))
      end
  end.

(** ** The grace-timer variant (src/server.js, first document) *)
Module Grace.

(** ['join-session'] *)
Definition join_session (ws : wref) (clientId : ConnId) (data : Data.t)
    (σ : State) : State * list Out :=
  let sessionCode := key_of_undefined (Data.sessionCode data) in
  match session_at σ sessionCode with
  | None =>
      match inherited σ sessionCode with
      | None => (σ, send ws (error "invalid-session-code"))
      | Some v => join_inherited ws clientId sessionCode v σ
      end
  | Some (s, session) =>
      match JsObj.get (clients σ) (Session.hostId session) with
      | None =>
          (set_sessions (JsObj.delete sessionCode) σ,
           send ws (error "host-not-available"))
      | Some hostWs =>
          match live_ws σ (Session.clientId session) with
          | Some _ => (σ, send ws (error "session-already-has-client"))
          | None =>
              let σ := upd_session s (Session.set_clientId (Some clientId)) σ in
              let σ := upd_socket ws
                         (Socket.set_sessionId (Some (Session.id session))) σ in
              (σ, send ws (session_joined (Session.id session) sessionCode)
                  ++ send hostWs (client_joined clientId))
          end
      end
  end.

(** ['offer'], ['answer'], ['ice-candidate'] *)
Definition signal (ws : wref) (clientId : ConnId) (data : Data.t)
    (σ : State) : State * list Out :=
  match find_session σ (Data.sessionId data) with
  | None => (σ, send ws (error "unknown-session"))
  | Some (_, sessionEntry) =>
      match client_ws σ (targetId sessionEntry clientId) with
      | Some targetWs =>
          (σ, send targetWs (relayed (Data.type data) clientId (Data.payload data)))
      | None => (σ, send ws (error "peer-not-connected"))
      end
  end.

(** ['control-event'] *)
Definition control_event_msg (ws : wref) (clientId : ConnId) (data : Data.t)
    (σ : State) : State * list Out :=
  match find_session σ (Data.sessionId data) with
  | None => (σ, send ws (error "control-not-enabled"))
  | Some (_, sessionEntry) =>
      if negb (Session.controlEnabled sessionEntry)
      then (σ, send ws (error "control-not-enabled"))
      else
        let target := targetId sessionEntry clientId in
        if negb (truthy target) then (σ, [])
        else
          match client_ws σ target with
          | Some targetWs =>
              (σ, send targetWs (control_event clientId (Data.event data)))
          | None => (σ, [])
          end
  end.

(** The chain of [if (type === ...)] of [ws.on('message')]. *)
Definition dispatch (ws : wref) (clientId : ConnId) (data : Data.t)
    (x : External.t) (σ : State) : State * list Out :=
  let type := Data.type data in
  if String.eqb type "create-session" then create_session ws clientId x σ
  else if String.eqb type "join-session" then join_session ws clientId data σ
  else if is_signal type then signal ws clientId data σ
  else if String.eqb type "toggle-control" then toggle_control ws clientId data σ
  else if String.eqb type "control-event" then control_event_msg ws clientId data σ
  else (σ, send ws (error "unknown-type")).

(** [ws.on('message', ...)] of the connection whose socket is [ws]. *)
Definition on_message (ws : wref) (msg : option Data.t) (x : External.t)
    (σ : State) : State * list Out :=
  match socket_heap σ !! ws with
  | None => (σ, [])
  | Some w =>
      match msg with
      | None => (σ, send ws (error "invalid-json"))
      | Some data => dispatch ws (Socket._clientId w) data x σ
      end
  end.

(** [ws.on('close', ...)]: the registry entry goes at once, the slot is
    left to a timer. *)
Definition on_close (ws : wref) (σ : State) : State * list Out :=
  match socket_heap σ !! ws with
  | None => (σ, [])
  | Some w =>
      let clientId := Socket._clientId w in
      let sessionId := Socket._sessionId w in
      let σ := set_clients (JsObj.delete clientId) σ in
      if truthy sessionId then
        match first_with_id σ sessionId with
        | Some (code, s, session) =>
            if String.eqb (Session.hostId session) clientId then
              let '(h, σ) := setTimeout (host_grace code clientId s) σ in
              (set_disconnectTimers (JsObj.set code h) σ, [])
            else if strict_eq (Session.clientId session) clientId then
              let '(h, σ) := setTimeout (client_grace code clientId s) σ in
              (set_disconnectTimers (JsObj.set code h) σ, [])
            else (σ, [])
        | None => (σ, [])
        end
      else (σ, [])
  end.

(** The guards of the two closures:
    [sessions[code] && sessions[code].hostId === clientId] and the like for
    [clientId]. [sessions[code]] is a session object or, when the entry is
    gone, what the prototype chain has for [code]. *)
Definition names_host (σ : State) (code : Code) (clientId : ConnId) : bool :=
  match session_at σ code with
  | Some (_, current) => String.eqb (Session.hostId current) clientId
  | None =>
      match inherited σ code with
      | Some v => strict_eq (inherited_hostId σ v) clientId
      | None => false
      end
  end.
Definition names_client (σ : State) (code : Code) (clientId : ConnId) : bool :=
  match session_at σ code with
  | Some (_, current) => strict_eq (Session.clientId current) clientId
  | None =>
      match inherited σ code with
      | Some v => strict_eq (inherited_clientId σ v) clientId
      | None => false
      end
  end.

(** The body of a timer's closure. The guard reads [sessions[code]]; the
    action reads and writes the captured object [s]. *)
Definition run_callback (cb : Callback) (σ : State) : State * list Out :=
  match cb with
  | host_grace code clientId s =>
      if names_host σ code clientId then
        let out :=
          match session_heap σ !! s with
          | Some sv =>
              match live_ws σ (Session.clientId sv) with
              | Some clientWs => send clientWs host_disconnected
              | None => []
              end
          | None => []
          end in
        (set_sessions (JsObj.delete code) σ, out)
      else (σ, [])
  | client_grace code clientId s =>
      if names_client σ code clientId then
        let σ := upd_session s
                   (fun v => Session.set_controlEnabled false
                               (Session.set_clientId None v)) σ in
        let out :=
          match session_heap σ !! s with
          | Some sv =>
              match JsObj.get (clients σ) (Session.hostId sv) with
              | Some hostWs => send hostWs client_disconnected
              | None => []
              end
          | None => []
          end in
        (σ, out)
      else (σ, [])
  end.

(** A pending timer runs once; a cleared or finished one never does. *)
Definition on_timeout (h : tref) (σ : State) : State * list Out :=
  match timer_heap σ !! h with
  | Some t =>
      if Timer.pending t then
        run_callback (Timer.callback t)
                     (upd_timer h (fun t => Timer.mk (Timer.callback t) false) σ)
      else (σ, [])
  | None => (σ, [])
  end.

Definition step (e : Event) (σ : State) : State * list Out :=
  match e with
  | Connection x => on_connection x σ
  | Message ws msg x => on_message ws msg x σ
  | Message_null ws => on_message_null ws σ
  | Close ws => on_close ws σ
  | Timeout h => on_timeout h σ
  end.

End Grace.

(** ** The restore variant (src/unnamed/part_000)

    Its text is the grace-timer variant's with one more branch in front of
    the chain: ['restore-session']. *)
Module Restore.

(** ['restore-session'] inside [if (session)], when [sessions[sessionCode]]
    is the inherited value [v]: the same statements, run on [v]. *)
Definition restore_inherited (ws : wref) (clientId : ConnId) (sessionCode : Code)
    (role : option string) (v : Inherited) (σ : State) : State * list Out :=
  let σ := clearTimeout (JsObj.get (disconnectTimers σ) sessionCode) σ in
  if strict_eq role "host"
     && negb (defined (JsObj.get (clients σ)
                                 (key_of_undefined (inherited_hostId σ v))))
  then
    let σ := write_hostId v clientId σ in
    let σ := upd_socket ws (Socket.set_sessionId None) σ in
    (σ, send ws (session_restored_no_id sessionCode)
        ++ match live_ws σ (inherited_clientId σ v) with
           | Some clientWs => send clientWs host_reconnected
           | None => []
           end)
  else if strict_eq role "client"
          && negb (defined (JsObj.get (clients σ)
                                      (key_of_undefined (inherited_clientId σ v))))
  then
    let σ := write_clientId v clientId σ in
    let σ := upd_socket ws (Socket.set_sessionId None) σ in
    (σ, send ws (session_restored_no_id sessionCode)
        ++ match JsObj.get (clients σ)
                           (key_of_undefined (inherited_hostId σ v)) with
           | Some hostWs => send hostWs client_reconnected
           | None => []
           end)
  else (σ, send ws (error "no-session-to-restore")).

(** ['restore-session'] *)
Definition restore_session (ws : wref) (clientId : ConnId) (data : Data.t)
    (σ : State) : State * list Out :=
  let sessionCode := key_of_undefined (Data.sessionCode data) in
  let role := Data.role data in
  match session_at σ sessionCode with
  | Some (s, session) =>
      let σ := clearTimeout (JsObj.get (disconnectTimers σ) sessionCode) σ in
      if strict_eq role "host"
         && negb (defined (JsObj.get (clients σ) (Session.hostId session)))
      then
        let σ := upd_session s (Session.set_hostId clientId) σ in
        let σ := upd_socket ws
                   (Socket.set_sessionId (Some (Session.id session))) σ in
        (σ, send ws (session_restored (Session.id session) sessionCode)
            ++ match live_ws σ (Session.clientId session) with
               | Some clientWs => send clientWs host_reconnected
               | None => []
               end)
      else if strict_eq role "client"
              && negb (defined (client_ws σ (Session.clientId session)))
      then
        let σ := upd_session s (Session.set_clientId (Some clientId)) σ in
        let σ := upd_socket ws
                   (Socket.set_sessionId (Some (Session.id session))) σ in
        (σ, send ws (session_restored (Session.id session) sessionCode)
            ++ match JsObj.get (clients σ) (Session.hostId session) with
               | Some hostWs => send hostWs client_reconnected
               | None => []
               end)
      else (σ, send ws (error "no-session-to-restore"))
  | None =>
      match inherited σ sessionCode with
      | Some v => restore_inherited ws clientId sessionCode role v σ
      | None => (σ, send ws (error "no-session-to-restore"))
      end
  end.

Definition dispatch (ws : wref) (clientId : ConnId) (data : Data.t)
    (x : External.t) (σ : State) : State * list Out :=
  if String.eqb (Data.type data) "restore-session"
  then restore_session ws clientId data σ
  else Grace.dispatch ws clientId data x σ.

Definition on_message (ws : wref) (msg : option Data.t) (x : External.t)
    (σ : State) : State * list Out :=
  match socket_heap σ !! ws with
  | None => (σ, [])
  | Some w =>
      match msg with
      | None => (σ, send ws (error "invalid-json"))
      | Some data => dispatch ws (Socket._clientId w) data x σ
      end
  end.

(** [ws.on('close')] and the timer closures are the grace-timer variant's. *)
Definition on_close := Grace.on_close.
Definition on_timeout := Grace.on_timeout.

Definition step (e : Event) (σ : State) : State * list Out :=
  match e with
  | Connection x => on_connection x σ
  | Message ws msg x => on_message ws msg x σ
  | Message_null ws => on_message_null ws σ
  | Close ws => on_close ws σ
  | Timeout h => on_timeout h σ
  end.

End Restore.

(** ** The first variant (src/unnamed/part_001): no grace period *)
Module Mvp.

(** ['join-session'] *)
Definition join_session (ws : wref) (clientId : ConnId) (data : Data.t)
    (σ : State) : State * list Out :=
  let sessionCode := key_of_undefined (Data.sessionCode data) in
  if negb (truthy (Data.sessionCode data)) then
    (σ, send ws (error "invalid-session-code"))
  else
  match session_at σ sessionCode with
  | None =>
      match inherited σ sessionCode with
      | None => (σ, send ws (error "invalid-session-code"))
      | Some v => join_inherited ws clientId sessionCode v σ
      end
  | Some (s, session) =>
      match JsObj.get (clients σ) (Session.hostId session) with
      | None =>
          (set_sessions (JsObj.delete sessionCode) σ,
           send ws (error "host-not-available"))
      | Some hostWs =>
          match live_ws σ (Session.clientId session) with
          | Some _ => (σ, send ws (error "session-already-has-client"))
          | None =>
              let σ := upd_session s (Session.set_clientId (Some clientId)) σ in
              let σ := upd_socket ws
                         (Socket.set_sessionId (Some (Session.id session))) σ in
              (σ, send ws (session_joined (Session.id session) sessionCode)
                  ++ send hostWs (client_joined clientId))
          end
      end
  end.

(** ['offer'], ['answer'], ['ice-candidate'] *)
Definition signal (ws : wref) (clientId : ConnId) (data : Data.t)
    (σ : State) : State * list Out :=
  if negb (truthy (Data.sessionId data)) then
    (σ, send ws (error "missing-sessionId"))
  else
  match find_session σ (Data.sessionId data) with
  | None => (σ, send ws (error "unknown-session"))
  | Some (_, sessionEntry) =>
      match client_ws σ (targetId sessionEntry clientId) with
      | Some targetWs =>
          (σ, send targetWs (relayed (Data.type data) clientId (Data.payload data)))
      | None => (σ, send ws (error "peer-not-connected"))
      end
  end.

(** ['control-event'] *)
Definition control_event_msg (ws : wref) (clientId : ConnId) (data : Data.t)
    (σ : State) : State * list Out :=
  match find_session σ (Data.sessionId data) with
  | None => (σ, send ws (error "unknown-session"))
  | Some (_, sessionEntry) =>
      if negb (Session.controlEnabled sessionEntry)
      then (σ, send ws (error "control-not-enabled"))
      else
        let target := targetId sessionEntry clientId in
        if negb (truthy target) then (σ, send ws (error "peer-not-connected"))
        else
          match client_ws σ target with
          | Some targetWs =>
              (σ, send targetWs (control_event clientId (Data.event data)))
          | None => (σ, [])
          end
  end.

Definition dispatch (ws : wref) (clientId : ConnId) (data : Data.t)
    (x : External.t) (σ : State) : State * list Out :=
  let type := Data.type data in
  if String.eqb type "create-session" then create_session ws clientId x σ
  else if String.eqb type "join-session" then join_session ws clientId data σ
  else if is_signal type then signal ws clientId data σ
  else if String.eqb type "toggle-control" then toggle_control ws clientId data σ
  else if String.eqb type "control-event" then control_event_msg ws clientId data σ
  else (σ, send ws (error "unknown-type")).

Definition on_message (ws : wref) (msg : option Data.t) (x : External.t)
    (σ : State) : State * list Out :=
  match socket_heap σ !! ws with
  | None => (σ, [])
  | Some w =>
      match msg with
      | None => (σ, send ws (error "invalid-json"))
      | Some data => dispatch ws (Socket._clientId w) data x σ
      end
  end.

(** [ws.on('close', ...)]: a host takes the session with it, a client
    frees its slot. *)
Definition on_close (ws : wref) (σ : State) : State * list Out :=
  match socket_heap σ !! ws with
  | None => (σ, [])
  | Some w =>
      let clientId := Socket._clientId w in
      let sessionId := Socket._sessionId w in
      let σ := set_clients (JsObj.delete clientId) σ in
      if truthy sessionId then
        match first_with_id σ sessionId with
        | Some (code, s, session) =>
            if String.eqb (Session.hostId session) clientId then
              (set_sessions (JsObj.delete code) σ,
               match live_ws σ (Session.clientId session) with
               | Some clientWs => send clientWs host_disconnected
               | None => []
               end)
            else if strict_eq (Session.clientId session) clientId then
              let σ := upd_session s
                         (fun v => Session.set_controlEnabled false
                                     (Session.set_clientId None v)) σ in
              (σ, match JsObj.get (clients σ) (Session.hostId session) with
                  | Some hostWs => send hostWs client_disconnected
                  | None => []
                  end)
            else (σ, [])
        | None => (σ, [])
        end
      else (σ, [])
  end.

Definition step (e : Event) (σ : State) : State * list Out :=
  match e with
  | Connection x => on_connection x σ
  | Message ws msg x => on_message ws msg x σ
  | Message_null ws => on_message_null ws σ
  | Close ws => on_close ws σ
  | Timeout h => (σ, [])
  end.

End Mvp.

(** ** The heartbeat variant (src/server.js, second document)

    The ping loop ends a connection that did not answer the previous ping
    with [ws.terminate()], which runs the ['close'] listener: for the state
    below it is one more source of [Close] events. *)
Module Heartbeat.

(** ['reconnect-session'] inside the [if], when [sessions[sessionCode]] is
    the inherited value [v]: the same statements, run on [v]. *)
Definition reconnect_inherited (ws : wref) (clientId : ConnId)
    (role : option string) (v : Inherited) (σ : State) : State * list Out :=
  let σ := upd_socket ws (Socket.set_sessionId None) σ in
  let σ := upd_socket ws (Socket.set_role role) σ in
  if strict_eq role "host" then
    let σ := write_hostId v clientId σ in
    (σ, match live_ws σ (inherited_clientId σ v) with
        | Some clientWs => send clientWs host_reconnected
        | None => []
        end
        ++ send ws session_rejoined_no_id)
  else
    let σ := write_clientId v clientId σ in
    (σ, match JsObj.get (clients σ)
                        (key_of_undefined (inherited_hostId σ v)) with
        | Some hostWs => send hostWs client_reconnected
        | None => []
        end
        ++ send ws session_rejoined_no_id).

(** ['reconnect-session'], the first branch of the chain. [ws._clientId]
    is the [clientId] of the connection. *)
Definition reconnect_session (ws : wref) (clientId : ConnId) (data : Data.t)
    (σ : State) : State * list Out :=
  let sessionCode := key_of_undefined (Data.sessionCode data) in
  let role := Data.role data in
  if negb (truthy (Data.sessionCode data)) then (σ, [])
  else
  match session_at σ sessionCode with
  | None =>
      match inherited σ sessionCode with
      | Some v => reconnect_inherited ws clientId role v σ
      | None => (σ, [])
      end
  | Some (s, session) =>
      let σ := upd_socket ws (Socket.set_sessionId (Some (Session.id session))) σ in
      let σ := upd_socket ws (Socket.set_role role) σ in
      if strict_eq role "host" then
        let σ := upd_session s (Session.set_hostId clientId) σ in
        let σ := upd_session s (Session.set_hostOffline false) σ in
        (σ, match live_ws σ (Session.clientId session) with
            | Some clientWs => send clientWs host_reconnected
            | None => []
            end
            ++ send ws (session_rejoined (Session.id session)))
      else
        let σ := upd_session s (Session.set_clientId (Some clientId)) σ in
        let σ := upd_session s (Session.set_clientOffline false) σ in
        (σ, match JsObj.get (clients σ) (Session.hostId session) with
            | Some hostWs => send hostWs client_reconnected
            | None => []
            end
            ++ send ws (session_rejoined (Session.id session)))
  end.

(** ['create-session'] *)
Definition create_session (ws : wref) (clientId : ConnId) (x : External.t)
    (σ : State) : State * list Out :=
  let sessionCode := code_of_draw (External.draw x) in
  let sessionId := External.uuid x in
  let '(s, σ) :=
    new_session (Session.mk sessionId clientId None (External.now x)
                            false false false) σ in
  let σ := set_sessions (JsObj.set sessionCode s) σ in
  let σ := upd_socket ws (Socket.set_sessionId (Some sessionId)) σ in
  let σ := upd_socket ws (Socket.set_role (Some "host")) σ in
  (σ, send ws (session_created sessionCode sessionId)).

(** ['join-session'] past the test of the code, when
    [sessions[sessionCode]] is the inherited value [v]: the same statements,
    run on [v]. *)
Definition join_inherited (ws : wref) (clientId : ConnId) (sessionCode : Code)
    (v : Inherited) (σ : State) : State * list Out :=
  match JsObj.get (clients σ) (key_of_undefined (inherited_hostId σ v)) with
  | None => (σ, send ws (error "host-not-available"))
  | Some hostWs =>
      match live_ws σ (inherited_clientId σ v) with
      | Some _ => (σ, send ws (error "session-already-has-client"))
      | None =>
          let σ := write_clientId v clientId σ in
          let σ := upd_socket ws (Socket.set_sessionId None) σ in
          let σ := upd_socket ws (Socket.set_role (Some "client")) σ in
          (σ, send ws (session_joined_no_id sessionCode)
              ++ send hostWs (client_joined clientId))
      end
  end.

(** ['join-session'] *)
Definition join_session (ws : wref) (clientId : ConnId) (data : Data.t)
    (σ : State) : State * list Out :=
  let sessionCode := key_of_undefined (Data.sessionCode data) in
  if negb (truthy (Data.sessionCode data)) then
    (σ, send ws (error "invalid-session-code"))
  else
  match session_at σ sessionCode with
  | None =>
      match inherited σ sessionCode with
      | Some v => join_inherited ws clientId sessionCode v σ
      | None => (σ, send ws (error "invalid-session-code"))
      end
  | Some (s, session) =>
      match JsObj.get (clients σ) (Session.hostId session) with
      | None => (σ, send ws (error "host-not-available"))
      | Some hostWs =>
          match live_ws σ (Session.clientId session) with
          | Some _ => (σ, send ws (error "session-already-has-client"))
          | None =>
              let σ := upd_session s (Session.set_clientId (Some clientId)) σ in
              let σ := upd_socket ws
                         (Socket.set_sessionId (Some (Session.id session))) σ in
              let σ := upd_socket ws (Socket.set_role (Some "client")) σ in
              (σ, send ws (session_joined (Session.id session) sessionCode)
                  ++ send hostWs (client_joined clientId))
          end
      end
  end.

(** The second ['reconnect-session'] branch past the test of the code, when
    [sessions[sessionCode]] is the inherited value [v]. *)
Definition reconnect_shadowed_inherited (ws : wref) (clientId : ConnId)
    (sessionCode : Code) (role : option string) (v : Inherited) (σ : State)
    : State * list Out :=
  if strict_eq role "host" then
    match live_ws σ (inherited_hostId σ v) with
    | Some _ => (σ, send ws (reconnect_session_failed "Host already connected"))
    | None =>
        let σ := write_hostId v clientId σ in
        let σ := upd_socket ws (Socket.set_sessionId None) σ in
        let σ := upd_socket ws (Socket.set_role (Some "host")) σ in
        (σ, send ws (reconnect_session_success_no_id sessionCode))
    end
  else if strict_eq role "client" then
    match live_ws σ (inherited_clientId σ v) with
    | Some _ =>
        (σ, send ws (reconnect_session_failed "Client already connected"))
    | None =>
        match JsObj.get (clients σ)
                        (key_of_undefined (inherited_hostId σ v)) with
        | None => (σ, send ws (reconnect_session_failed "Host not available"))
        | Some hostWs =>
            let σ := write_clientId v clientId σ in
            let σ := upd_socket ws (Socket.set_sessionId None) σ in
            let σ := upd_socket ws (Socket.set_role (Some "client")) σ in
            (σ, send ws (reconnect_session_success_no_id sessionCode)
                ++ send hostWs (client_joined clientId))
        end
    end
  else (σ, send ws (reconnect_session_failed "Invalid role")).

(** ['reconnect-session'], the second branch with that test. The first
    one returns on every path, so the chain never gets here. *)
Definition reconnect_session_shadowed (ws : wref) (clientId : ConnId)
    (data : Data.t) (σ : State) : State * list Out :=
  let sessionCode := key_of_undefined (Data.sessionCode data) in
  let role := Data.role data in
  if negb (truthy (Data.sessionCode data)) then
    (σ, send ws (reconnect_session_failed "Session no longer exists"))
  else
  match session_at σ sessionCode with
  | None =>
      match inherited σ sessionCode with
      | Some v => reconnect_shadowed_inherited ws clientId sessionCode role v σ
      | None =>
          (σ, send ws (reconnect_session_failed "Session no longer exists"))
      end
  | Some (s, session) =>
      if strict_eq role "host" then
        if truthy (Some (Session.hostId session))
           && defined (JsObj.get (clients σ) (Session.hostId session))
        then (σ, send ws (reconnect_session_failed "Host already connected"))
        else
          let σ := upd_session s (Session.set_hostId clientId) σ in
          let σ := upd_session s (Session.set_hostOffline false) σ in
          let σ := upd_socket ws
                     (Socket.set_sessionId (Some (Session.id session))) σ in
          let σ := upd_socket ws (Socket.set_role (Some "host")) σ in
          (σ, send ws (reconnect_session_success (Session.id session) sessionCode))
      else if strict_eq role "client" then
        match live_ws σ (Session.clientId session) with
        | Some _ =>
            (σ, send ws (reconnect_session_failed "Client already connected"))
        | None =>
            match JsObj.get (clients σ) (Session.hostId session) with
            | None => (σ, send ws (reconnect_session_failed "Host not available"))
            | Some hostWs =>
                let σ := upd_session s (Session.set_clientId (Some clientId)) σ in
                let σ := upd_session s (Session.set_clientOffline false) σ in
                let σ := upd_socket ws
                           (Socket.set_sessionId (Some (Session.id session))) σ in
                let σ := upd_socket ws (Socket.set_role (Some "client")) σ in
                (σ, send ws (reconnect_session_success (Session.id session) sessionCode)
                    ++ send hostWs (client_joined clientId))
            end
        end
      else (σ, send ws (reconnect_session_failed "Invalid role"))
  end.

(** ['offer'], ['answer'], ['ice-candidate']: no reply when the peer is
    not registered. *)
Definition signal (ws : wref) (clientId : ConnId) (data : Data.t)
    (σ : State) : State * list Out :=
  match find_session σ (Data.sessionId data) with
  | None => (σ, send ws (error "unknown-session"))
  | Some (_, session) =>
      match client_ws σ (targetId session clientId) with
      | Some targetWs =>
          (σ, send targetWs (relayed (Data.type data) clientId (Data.payload data)))
      | None => (σ, [])
      end
  end.

(** ['toggle-control']: no reply on either failure. *)
Definition toggle_control (ws : wref) (clientId : ConnId) (data : Data.t)
    (σ : State) : State * list Out :=
  match find_session σ (Data.sessionId data) with
  | Some (s, session) =>
      if String.eqb (Session.hostId session) clientId then
        let σ := upd_session s (Session.set_controlEnabled (Data.enabled data)) σ in
        (σ, broadcastToSession σ (Session.id session)
                               (control_status (Data.enabled data)))
      else (σ, [])
  | None => (σ, [])
  end.

(** The chain of [ws.on('message')]; it has no ['control-event'] branch
    and no final reply. *)
Definition dispatch (ws : wref) (clientId : ConnId) (data : Data.t)
    (x : External.t) (σ : State) : State * list Out :=
  let type := Data.type data in
  if String.eqb type "reconnect-session" then reconnect_session ws clientId data σ
  else if String.eqb type "create-session" then create_session ws clientId x σ
  else if String.eqb type "join-session" then join_session ws clientId data σ
  else if String.eqb type "reconnect-session"
       then reconnect_session_shadowed ws clientId data σ
  else if is_signal type then signal ws clientId data σ
  else if String.eqb type "toggle-control" then toggle_control ws clientId data σ
  else (σ, []).

Definition on_message (ws : wref) (msg : option Data.t) (x : External.t)
    (σ : State) : State * list Out :=
  match socket_heap σ !! ws with
  | None => (σ, [])
  | Some w =>
      match msg with
      | None => (σ, send ws (error "invalid-json"))
      | Some data => dispatch ws (Socket._clientId w) data x σ
      end
  end.

(** [ws.on('close', ...)]: the slot keeps its identifier, a flag marks it
    offline. *)
Definition on_close (ws : wref) (σ : State) : State * list Out :=
  match socket_heap σ !! ws with
  | None => (σ, [])
  | Some w =>
      let clientId := Socket._clientId w in
      let sessionId := Socket._sessionId w in
      let σ := set_clients (JsObj.delete clientId) σ in
      if truthy sessionId then
        match first_with_id σ sessionId with
        | Some (code, s, session) =>
            if String.eqb (Session.hostId session) clientId then
              let σ := upd_session s (Session.set_hostOffline true) σ in
              (σ, match live_ws σ (Session.clientId session) with
                  | Some clientWs => send clientWs host_offline
                  | None => []
                  end)
            else if strict_eq (Session.clientId session) clientId then
              let σ := upd_session s (Session.set_clientOffline true) σ in
              let σ := upd_session s (Session.set_controlEnabled false) σ in
              (σ, match JsObj.get (clients σ) (Session.hostId session) with
                  | Some hostWs => send hostWs client_offline
                  | None => []
                  end)
            else (σ, [])
        | None => (σ, [])
        end
      else (σ, [])
  end.

Definition step (e : Event) (σ : State) : State * list Out :=
  match e with
  | Connection x => on_connection x σ
  | Message ws msg x => on_message ws msg x σ
  | Message_null ws => on_message_null ws σ
  | Close ws => on_close ws σ
  | Timeout h => (σ, [])
  end.

End Heartbeat.

(** * Runs and reachable states *)

(** The events of a run, oldest first. *)
Definition run (step : Event → State → State * list Out) (events : list Event)
    (σ : State) : State * list Out :=
  fold_left (λ acc e, let '(σ', out) := step e acc.1 in (σ', acc.2 ++ out))
            events (σ, []).

(** The host's ['toggle-control'] messages for the session [sessionId], one
    for each value of [enabled]. *)
Definition toggles (ws : wref) (sessionId : SessionId) (x : External.t)
    (values : list bool) : list Event :=
  map (λ enabled,
         Message ws (Some (Data.mk "toggle-control" None None (Some sessionId)
                                   "" enabled "")) x)
      values.

(** The connection of socket [ws] is open: the registry has the socket
    under its identifier. *)
Definition is_open (ws : wref) (σ : State) : Prop :=
  ∃ w, socket_heap σ !! ws = Some w
       ∧ JsObj.get (clients σ) (Socket._clientId w) = Some ws.

(** When an event can happen: [uuidv4()] returns an identifier no socket
    has had, and messages and closes come from open connections. A timer
    event can always be tried; the handler looks at the timer's state. *)
Definition enabled (e : Event) (σ : State) : Prop :=
  match e with
  | Connection x => ∀ w, w ∈ socket_heap σ → Socket._clientId w ≠ External.uuid x
  | Message ws _ _ => is_open ws σ
  | Message_null ws => is_open ws σ
  | Close ws => is_open ws σ
  | Timeout _ => True
  end.

(** The states a variant reaches from the empty server. *)
Inductive reachable (step : Event → State → State * list Out) : State → Prop :=
| reachable_initial : reachable step initial
| reachable_step σ e :
    reachable step σ → enabled e σ → reachable step (step e σ).1.

(** * What the specification states

    Each predicate takes the handler of a variant, so that the same
    statement can be tried on every variant. *)

(** The relay rule, for a message handler [on_message] and a message of
    the connection [c] that names a session by its id. The peer is the
    session's client when [c] is its host, and its host otherwise; an empty
    client slot holds [null], which is looked up as the key [null].
    Nothing is stored. [peer_error] says whether a sender whose peer is not
    registered is told so, as the specification states, or gets no reply. *)
Definition relay_spec (peer_error : bool)
    (on_message : wref → option Data.t → External.t → State → State * list Out)
    : Prop :=
  ∀ σ ws w data x,
    socket_heap σ !! ws = Some w →
    is_signal (Data.type data) = true →
    let c := Socket._clientId w in
    let result := on_message ws (Some data) x σ in
    let forward := relayed (Data.type data) c (Data.payload data) in
    result.1 = σ
    ∧ (find_session σ (Data.sessionId data) = None →
       result.2 = [(ws, error "unknown-session")])
    ∧ ∀ s session peer,
        find_session σ (Data.sessionId data) = Some (s, session) →
        (Session.hostId session = c →
         peer = match Session.clientId session with
                | Some p => p
                | None => "null"
                end) →
        (Session.hostId session ≠ c → peer = Session.hostId session) →
        (∀ targetWs, JsObj.get (clients σ) peer = Some targetWs →
                     result.2 = [(targetWs, forward)])
        ∧ (JsObj.get (clients σ) peer = None →
           result.2 = if peer_error then [(ws, error "peer-not-connected")]
                      else []).

(** The state after a successful join: the client slot and the caller's
    session binding are written; the heartbeat variant also records the
    role on the socket. *)
Definition bound_as_client (with_role : bool) (ws : wref) (clientId : ConnId)
    (s : sref) (session : Session.t) (σ : State) : State :=
  let σ := upd_session s (Session.set_clientId (Some clientId)) σ in
  let σ := upd_socket ws (Socket.set_sessionId (Some (Session.id session))) σ in
  if with_role then upd_socket ws (Socket.set_role (Some "client")) σ else σ.

(** The same when the joined "session" is the inherited value [v], which
    has no [id]. *)
Definition bound_inherited (with_role : bool) (ws : wref) (clientId : ConnId)
    (v : Inherited) (σ : State) : State :=
  let σ := write_clientId v clientId σ in
  let σ := upd_socket ws (Socket.set_sessionId None) σ in
  if with_role then upd_socket ws (Socket.set_role (Some "client")) σ else σ.

(** An identifier that is truthy and registered. *)
Definition live (σ : State) (id : option ConnId) : Prop :=
  ∃ p ws, id = Some p ∧ p ≠ "" ∧ JsObj.get (clients σ) p = Some ws.

(** An identifier that is [null], [undefined] or empty, or is not
    registered. *)
Definition not_live (σ : State) (id : option ConnId) : Prop :=
  id = None ∨ id = Some ""
  ∨ ∃ p, id = Some p ∧ JsObj.get (clients σ) p = None.

(** ['join-session'], for a message handler [on_message]: the checks in
    their order, with the reply and the state of each outcome, then the
    binding and the two notices. [code_ok] is the test a variant makes on
    the code before it looks it up, [collects_orphan] says whether a session
    whose host is not registered is removed, [with_role] whether the socket
    records the role. With [inherits] off this is the specification's
    wording: a code under which no session is stored is invalid. With
    [inherits] on, such a code is invalid when [sessions] inherits nothing
    for it either; else the inherited value is joined as a session would be,
    its host being looked up under [undefined] while no [hostId] has been
    written on it. *)
Definition join_spec (inherits : bool) (code_ok : option string → bool)
    (collects_orphan with_role : bool)
    (on_message : wref → option Data.t → External.t → State → State * list Out)
    : Prop :=
  ∀ σ ws w data x,
    socket_heap σ !! ws = Some w →
    Data.type data = "join-session" →
    let sessionCode := key_of_undefined (Data.sessionCode data) in
    let c := Socket._clientId w in
    let result := on_message ws (Some data) x σ in
    (code_ok (Data.sessionCode data) = false →
     result = (σ, [(ws, error "invalid-session-code")]))
    ∧ (code_ok (Data.sessionCode data) = true →
       (session_at σ sessionCode = None →
        (inherits = true → inherited σ sessionCode = None) →
        result = (σ, [(ws, error "invalid-session-code")]))
       ∧ (∀ s session,
            session_at σ sessionCode = Some (s, session) →
            (JsObj.get (clients σ) (Session.hostId session) = None →
             result = (if collects_orphan
                       then set_sessions (JsObj.delete sessionCode) σ else σ,
                       [(ws, error "host-not-available")]))
            ∧ ∀ hostWs,
                JsObj.get (clients σ) (Session.hostId session) = Some hostWs →
                (live σ (Session.clientId session) →
                 result = (σ, [(ws, error "session-already-has-client")]))
                ∧ (not_live σ (Session.clientId session) →
                   result = (bound_as_client with_role ws c s session σ,
                             [(ws, session_joined (Session.id session) sessionCode);
                              (hostWs, client_joined c)])))
       ∧ (inherits = true →
          ∀ v hostKey,
            session_at σ sessionCode = None →
            inherited σ sessionCode = Some v →
            hostKey = match inherited_hostId σ v with
                      | Some h => h
                      | None => "undefined"
                      end →
            (JsObj.get (clients σ) hostKey = None →
             result = (σ, [(ws, error "host-not-available")]))
            ∧ ∀ hostWs,
                JsObj.get (clients σ) hostKey = Some hostWs →
                (live σ (inherited_clientId σ v) →
                 result = (σ, [(ws, error "session-already-has-client")]))
                ∧ (not_live σ (inherited_clientId σ v) →
                   result = (bound_inherited with_role ws c v σ,
                             [(ws, session_joined_no_id sessionCode);
                              (hostWs, client_joined c)])))).

(** The protocol preconditions of the message chain shared by the grace-timer
    and restore variants, each with the error code that names it: unknown
    type, unknown session, wrong role, control disabled, slot occupied.
    [result] is what the handler returns for the message [data] of the
    connection [c], whose socket is [ws], in the state [σ]: a refusal is
    one [error] reply to the sender and no change of the state.
    [unknown_for_control] is the code for a ['control-event'] that names no
    session. With [inherits] off a code is unknown to ['join-session'] when
    no session is stored under it, which is the specification's wording;
    with [inherits] on it is unknown when [sessions] inherits nothing for
    it either, and a value found on [Object.prototype] is refused as a
    session would be: its host is not available, or its client slot is
    taken. *)
Definition refusal_rule (unknown_for_control : string) (inherits : bool)
    (σ : State) (ws : wref) (c : ConnId) (data : Data.t)
    (result : State * list Out) : Prop :=
  let type := Data.type data in
  let sessionCode := key_of_undefined (Data.sessionCode data) in
  let refused e := result = (σ, [(ws, error e)]) in
  (type ≠ "create-session" → type ≠ "join-session" → is_signal type = false →
   type ≠ "toggle-control" → type ≠ "control-event" →
   refused "unknown-type")
  ∧ (type = "join-session" →
     session_at σ sessionCode = None →
     (inherits = true → inherited σ sessionCode = None) →
     refused "invalid-session-code")
  ∧ (is_signal type = true →
     find_session σ (Data.sessionId data) = None →
     refused "unknown-session")
  ∧ (type = "toggle-control" →
     find_session σ (Data.sessionId data) = None →
     refused "unknown-session")
  ∧ (type = "control-event" →
     find_session σ (Data.sessionId data) = None →
     refused unknown_for_control)
  ∧ (type = "toggle-control" →
     ∀ s session,
       find_session σ (Data.sessionId data) = Some (s, session) →
       Session.hostId session ≠ c →
       refused "not-host")
  ∧ (type = "control-event" →
     ∀ s session,
       find_session σ (Data.sessionId data) = Some (s, session) →
       Session.controlEnabled session = false →
       refused "control-not-enabled")
  ∧ (type = "join-session" →
     ∀ s session hostWs,
       session_at σ sessionCode = Some (s, session) →
       JsObj.get (clients σ) (Session.hostId session) = Some hostWs →
       live σ (Session.clientId session) →
       refused "session-already-has-client")
  ∧ (inherits = true →
     type = "join-session" →
     ∀ v hostKey,
       session_at σ sessionCode = None →
       inherited σ sessionCode = Some v →
       hostKey = match inherited_hostId σ v with
                 | Some h => h
                 | None => "undefined"
                 end →
       (JsObj.get (clients σ) hostKey = None → refused "host-not-available")
       ∧ ∀ hostWs,
           JsObj.get (clients σ) hostKey = Some hostWs →
           live σ (inherited_clientId σ v) →
           refused "session-already-has-client").

(** The rule for a message handler. [elsewhere] marks the types a variant
    handles outside the shared chain. *)
Definition refusal_spec (unknown_for_control : string) (inherits : bool)
    (elsewhere : string → bool)
    (on_message : wref → option Data.t → External.t → State → State * list Out)
    : Prop :=
  ∀ σ ws w data x,
    socket_heap σ !! ws = Some w →
    elsewhere (Data.type data) = false →
    refusal_rule unknown_for_control inherits σ ws (Socket._clientId w) data
                 (on_message ws (Some data) x σ).

(** The uniqueness the specification states for ['create-session'], for a
    message handler [on_message]: the code in the reply is stored for no
    session at the time of the call, and the id in the reply is the id of
    no session object created so far. *)
Definition fresh_code_spec
    (on_message : wref → option Data.t → External.t → State → State * list Out)
    : Prop :=
  ∀ σ ws w data x,
    socket_heap σ !! ws = Some w →
    Data.type data = "create-session" →
    External.in_range x →
    ∃ sessionCode sessionId,
      (on_message ws (Some data) x σ).2
      = [(ws, session_created sessionCode sessionId)]
      ∧ JsObj.get (sessions σ) sessionCode = None
      ∧ ∀ session, session ∈ session_heap σ → Session.id session ≠ sessionId.

(** What ['create-session'] does, for a message handler: the reply, the new
    session object, and the store, in which the new entry takes the place of
    whatever was stored under the code. *)
Definition create_spec
    (on_message : wref → option Data.t → External.t → State → State * list Out)
    : Prop :=
  ∀ σ ws w data x,
    socket_heap σ !! ws = Some w →
    Data.type data = "create-session" →
    let sessionCode := code_of_draw (External.draw x) in
    let created := Session.mk (External.uuid x) (Socket._clientId w) None
                              (External.now x) false false false in
    let result := on_message ws (Some data) x σ in
    result.2 = [(ws, session_created sessionCode (External.uuid x))]
    ∧ (External.in_range x → String.length sessionCode = 6)
    ∧ session_heap result.1 = session_heap σ ++ [created]
    ∧ session_at result.1 sessionCode = Some (length (session_heap σ), created)
    ∧ (∀ code, code ≠ sessionCode →
         JsObj.get (sessions result.1) code = JsObj.get (sessions σ) code).

(** The values of [uuidv4()] that the ['create-session'] messages of a run
    get. *)
Definition created_ids (events : list Event) : list SessionId :=
  omap (λ e, match e with
             | Message _ (Some data) x =>
                 if String.eqb (Data.type data) "create-session"
                 then Some (External.uuid x) else None
             | _ => None
             end)
       events.

(** The heap keeps the objects of the sessions that have left the store, so
    these are the ids of all the sessions made so far. *)
Definition session_ids (σ : State) : list SessionId :=
  map Session.id (session_heap σ).

(** The ids of the sessions are the work of [uuidv4()] alone: as long as it
    gives no value twice to the ['create-session'] messages of a run, no
    two session objects ever made in the run have the same id. *)
Definition unique_ids_spec (step : Event → State → State * list Out) : Prop :=
  ∀ events,
    NoDup (created_ids events) →
    NoDup (session_ids (run step events initial).1).

(** What the specification states for the close of a client's connection,
    for a close handler: the control flag of every session that names the
    connection as its client is off when the handler returns, and running
    the handler again changes nothing. *)
Definition client_close_spec (on_close : wref → State → State * list Out) : Prop :=
  ∀ σ ws w code s session,
    socket_heap σ !! ws = Some w →
    session_at σ code = Some (s, session) →
    Session.clientId session = Some (Socket._clientId w) →
    let σ' := (on_close ws σ).1 in
    (∃ session', session_at σ' code = Some (s, session')
                 ∧ Session.controlEnabled session' = false)
    ∧ (on_close ws σ').1 = σ'.

(** [sessions[code].hostId] *)
Definition hostId_at (σ : State) (code : Code) : option ConnId :=
  '(_, session) ← session_at σ code; Some (Session.hostId session).

(** * Timers and the objects they capture *)

(** A timer that has run, or was cleared, is no longer pending. *)
Definition timer_done (h : tref) (σ : State) : State :=
  upd_timer h (λ t, Timer.mk (Timer.callback t) false) σ.

(** What the client timer writes to the session object it captured. *)
Definition client_slot_cleared (v : Session.t) : Session.t :=
  Session.set_controlEnabled false (Session.set_clientId None v).

(** The code, the connection and the session object a closure captured. *)
Definition cb_code (cb : Callback) : Code :=
  match cb with host_grace code _ _ | client_grace code _ _ => code end.

Definition cb_conn (cb : Callback) : ConnId :=
  match cb with host_grace _ c _ | client_grace _ c _ => c end.

Definition cb_session (cb : Callback) : sref :=
  match cb with host_grace _ _ s | client_grace _ _ s => s end.

(** The guard of a timer's closure on the session read from the store. *)
Definition names_slot (cb : Callback) (current : Session.t) : Prop :=
  match cb with
  | host_grace _ clientId _ => Session.hostId current = clientId
  | client_grace _ clientId _ => Session.clientId current = Some clientId
  end.

(** Some pending timer has the closure [cb]. *)
Definition pending_cb (σ : State) (cb : Callback) : Prop :=
  ∃ h, timer_heap σ !! h = Some (Timer.mk cb true).

(** The invariant behind the timers: the keys of [sessions] are distinct and
    refer to allocated objects; the connection a pending timer waits for is
    closed; and if the guard of a pending timer holds, the object it
    captured is the one stored under its code. *)
Record timers_sound (σ : State) : Prop := {
  keys_nodup : NoDup (JsObj.keys (sessions σ));
  refs_allocated : ∀ code r,
    JsObj.get (sessions σ) code = Some r → r < length (session_heap σ);
  timer_conn_closed : ∀ h cb,
    timer_heap σ !! h = Some (Timer.mk cb true) →
    JsObj.get (clients σ) (cb_conn cb) = None
    ∧ ∃ w, w ∈ socket_heap σ ∧ Socket._clientId w = cb_conn cb;
  timer_captures : ∀ h cb r current,
    timer_heap σ !! h = Some (Timer.mk cb true) →
    session_at σ (cb_code cb) = Some (r, current) →
    names_slot cb current →
    r = cb_session cb
}.

(** The codes of the store and of the timers are numerals: [sessions]
    inherits nothing for them. *)
Definition plain_codes (σ : State) : Prop :=
  Forall (λ k, inheritable k = false) (JsObj.keys (sessions σ))
  ∧ Forall (λ t, inheritable (cb_code (Timer.callback t)) = false) (timer_heap σ).

(** * Sample states *)

(** States and inputs used to run the handlers on concrete cases: a host
    [h] (socket 0) and a client [c] (socket 1) in a session with id [S1]
    stored under code [482193], and a third connection [z] (socket 2). *)
Module Sample.

Definition session_S1 (clientId : option ConnId) (controlEnabled : bool)
  : Session.t :=
  Session.mk "S1" "h" clientId 0 controlEnabled false false.

Definition sockets_hcz : list Socket.t :=
  [Socket.mk "h" (Some "S1") None; Socket.mk "c" (Some "S1") None;
   Socket.mk "z" None None].

(** Host and client both connected, control as given. *)
Definition paired (controlEnabled : bool) : State :=
  mkState [("482193", 0)] [("h", 0); ("c", 1); ("z", 2)] []
          [session_S1 (Some "c") controlEnabled] sockets_hcz [] [].

(** The host is connected and no client has joined. *)
Definition host_only : State :=
  mkState [("482193", 0)] [("h", 0); ("z", 2)] []
          [session_S1 None false] sockets_hcz [] [].

(** The host's connection is gone from the registry. *)
Definition host_gone : State :=
  mkState [("482193", 0)] [("c", 1); ("z", 2)] []
          [session_S1 (Some "c") false] sockets_hcz [] [].

Definition ext : External.t := External.mk 482193 "S2" 7.

Definition msg (type : string) (sessionCode role sessionId : option string)
  : Data.t :=
  Data.mk type sessionCode role sessionId "p" true "e".

End Sample.

(** The state after the client [c] has closed its connection in the
    grace-timer variant: timer 0 is pending for its slot. *)
Definition client_closed : State := (Grace.on_close 1 (Sample.paired true)).1.

(** The state after the host [h] has closed its connection instead: timer 0
    is pending for the host slot. *)
Definition host_closed : State := (Grace.on_close 0 (Sample.paired true)).1.

(** A run of the heartbeat variant: [h], [c] and [z] connect (sockets 0, 1
    and 2), [h] creates the session [S1] under code 482193, [c] joins it. *)
Definition heartbeat_paired : State :=
  (run Heartbeat.step
       [Connection (External.mk 0 "h" 1);
        Connection (External.mk 0 "c" 2);
        Connection (External.mk 0 "z" 3);
        Message 0 (Some (Sample.msg "create-session" None None None))
                (External.mk 482193 "S1" 4);
        Message 1 (Some (Sample.msg "join-session" (Some "482193") None None))
                Sample.ext]
       initial).1.

(** The same run of the restore variant. *)
Definition restore_paired : State :=
  (run Restore.step
       [Connection (External.mk 0 "h" 1);
        Connection (External.mk 0 "c" 2);
        Connection (External.mk 0 "z" 3);
        Message 0 (Some (Sample.msg "create-session" None None None))
                (External.mk 482193 "S1" 4);
        Message 1 (Some (Sample.msg "join-session" (Some "482193") None None))
                Sample.ext]
       initial).1.

(** * Invariants of the handlers *)

(** The only event that may turn the control flag of a session object on:
    a ['toggle-control'] with a true [enabled], naming the session's id, from
    the connection in its host slot. *)
Definition host_enables (σ : State) (e : Event) (v : Session.t) : Prop :=
  ∃ ws w data x,
    e = Message ws (Some data) x
    ∧ socket_heap σ !! ws = Some w
    ∧ Data.type data = "toggle-control"
    ∧ Data.enabled data = true
    ∧ Data.sessionId data = Some (Session.id v)
    ∧ Session.hostId v = Socket._clientId w.

Definition only_host_enables (step : Event → State → State * list Out) : Prop :=
  ∀ σ e r v v',
    session_heap σ !! r = Some v →
    session_heap (step e σ).1 !! r = Some v' →
    Session.controlEnabled v = false →
    Session.controlEnabled v' = true →
    host_enables σ e v.

(** What a handler may do with a ['control-event']: it changes nothing and
    sends at most one message, an [error] to the sender or the event itself,
    with the sender's identifier, to the registered socket of the other
    party of a session whose control flag is on. *)
Definition control_event_sound
    (on_message : wref → option Data.t → External.t → State → State * list Out)
    : Prop :=
  ∀ σ ws w data x,
    socket_heap σ !! ws = Some w →
    Data.type data = "control-event" →
    let result := on_message ws (Some data) x σ in
    result.1 = σ
    ∧ (List.length result.2 ≤ 1)%nat
    ∧ ∀ to obj,
        (to, obj) ∈ result.2 →
        (to = ws ∧ ∃ e, obj = error e)
        ∨ ∃ s session,
            find_session σ (Data.sessionId data) = Some (s, session)
            ∧ Session.controlEnabled session = true
            ∧ obj = control_event (Socket._clientId w) (Data.event data)
            ∧ client_ws σ (targetId session (Socket._clientId w)) = Some to.

(** The registry and the sockets agree: the socket registered under an
    identifier is allocated and carries that identifier. *)
Definition registry_consistent (σ : State) : Prop :=
  ∀ c ws, JsObj.get (clients σ) c = Some ws →
          ∃ w, socket_heap σ !! ws = Some w ∧ Socket._clientId w = c.

(** A handler that leaves the control flags of all session objects as they
    are, or turns some off. *)
Definition no_enable (σ σ' : State) : Prop :=
  ∀ r v v', session_heap σ !! r = Some v → session_heap σ' !! r = Some v' →
            Session.controlEnabled v' = true → Session.controlEnabled v = true.

(** A handler that leaves the registry as it is and the identifier of every
    socket. *)
Definition registry_kept (σ σ' : State) : Prop :=
  clients σ' = clients σ
  ∧ ∀ i w, socket_heap σ !! i = Some w →
           ∃ w', socket_heap σ' !! i = Some w' ∧ Socket._clientId w' = Socket._clientId w.

(** * The liveness monitor of the heartbeat variant

    [ws.isAlive], the ['pong'] listener [heartbeat] and the ping loop. The
    flag lives on the socket object, so the sockets are a heap of flags,
    indexed as [socket_heap] is; [wss.clients] is the set of the library, in
    insertion order: it adds a socket before ['connection'] is emitted and
    deletes it when the socket has closed. *)
Module Liveness.

Inductive Act :=
| terminate (ws : wref)
| ping (ws : wref).

Record State := mk {
  isAlive : list bool;
  wss_clients : list wref
}.

Inductive Event :=
| Connection
| Pong (ws : wref)
| Tick
| Closed (ws : wref).

(** [ws.isAlive = true] of the ['connection'] handler, for a new socket. *)
Definition on_connection (σ : State) : State :=
  mk (isAlive σ ++ [true]) (wss_clients σ ++ [List.length (isAlive σ)]).

(** [heartbeat], with [this] the socket that got the pong. *)
Definition heartbeat (ws : wref) (σ : State) : State :=
  mk (<[ws := true]> (isAlive σ)) (wss_clients σ).

Definition on_closed (ws : wref) (σ : State) : State :=
  mk (isAlive σ) (filter (λ w, w ≠ ws) (wss_clients σ)).

(** The callback of [wss.clients.forEach]: a falsy flag terminates the
    socket, a true one is reset and the socket is pinged. *)
Definition visit (acc : list bool * list Act) (ws : wref) : list bool * list Act :=
  match acc.1 !! ws with
  | Some true => (<[ws := false]> acc.1, acc.2 ++ [ping ws])
  | _ => (acc.1, acc.2 ++ [terminate ws])
  end.

(** One round of the ping loop. *)
Definition tick (σ : State) : State * list Act :=
  let result := fold_left visit (wss_clients σ) (isAlive σ, []) in
  (mk result.1 (wss_clients σ), result.2).

Definition step (e : Event) (σ : State) : State * list Act :=
  match e with
  | Connection => (on_connection σ, [])
  | Pong ws => (heartbeat ws σ, [])
  | Tick => tick σ
  | Closed ws => (on_closed ws σ, [])
  end.

Definition run (events : list Event) (σ : State) : State * list Act :=
  fold_left (λ acc e, let '(σ', out) := step e acc.1 in (σ', acc.2 ++ out))
            events (σ, []).

(** [wss.clients] is a set of allocated sockets. *)
Definition well_formed (σ : State) : Prop :=
  NoDup (wss_clients σ)
  ∧ ∀ ws, ws ∈ wss_clients σ → (ws < List.length (isAlive σ))%nat.

(** Nothing is heard of the socket: no pong, and it has not closed. *)
Definition silent (ws : wref) (events : list Event) : Prop :=
  (Pong ws ∉ events) ∧ (Closed ws ∉ events).

(** The socket answers every ping: each round but the first comes after a
    pong of the socket that is later than the round before. *)
Definition answers (ws : wref) (events : list Event) : Prop :=
  ∀ pre post,
    events = pre ++ Tick :: post →
    Tick ∉ pre
    ∨ ∃ mid tail, pre = mid ++ Tick :: tail ∧ (Tick ∉ tail) ∧ Pong ws ∈ tail.

End Liveness.

(** * Proof tools *)

(** The decimal digit [k] in front of [u]. *)
Definition digit (k : N) (u : Decimal.uint) : Decimal.uint :=
  match k with
  | 0 => Decimal.D0 u | 1 => Decimal.D1 u | 2 => Decimal.D2 u
  | 3 => Decimal.D3 u | 4 => Decimal.D4 u | 5 => Decimal.D5 u
  | 6 => Decimal.D6 u | 7 => Decimal.D7 u | 8 => Decimal.D8 u
  | _ => Decimal.D9 u
  end%N.

(** Takes a message handler to the branch of a given message type. *)
Ltac simpl_type H :=
  unfold Grace.on_message, Restore.on_message, Mvp.on_message,
    Heartbeat.on_message, Restore.dispatch, Grace.dispatch, Mvp.dispatch,
    Heartbeat.dispatch;
  rewrite ?H; cbn [String.eqb Ascii.eqb Bool.eqb is_signal orb andb].

(** Closes a goal in which a hypothesis places a reply in a list of sent
    messages that cannot hold it; [broadcast] tells what a broadcast
    sends. *)
Ltac only_reply_by broadcast :=
  repeat match goal with
    | H : _ ∈ _ ++ _ |- _ => apply elem_of_app in H as [H|H]
    | H : _ ∈ _ :: _ |- _ => apply elem_of_cons in H as [H|H]
    | H : _ ∈ [] |- _ => by apply elem_of_nil in H
    | H : _ ∈ broadcastToSession _ _ _ |- _ => apply broadcast in H
    end;
  simplify_eq; try done.

(** Splits a handler into its paths, one test after the other; the
    allocations are left as they are. *)
Ltac split_handler :=
  repeat match goal with
    | |- context [match ?x with _ => _ end] =>
        lazymatch x with
        | context [match _ with _ => _ end] => fail
        | setTimeout _ _ => fail
        | new_session _ _ => fail
        | new_socket _ _ => fail
        | _ => destruct x as [] eqn:?
        end
    end.

(** * Properties *)

(** ** Reading and writing the dictionaries *)
Section JsObjFacts.
Context {A : Type}.
Implicit Types (o : JsObj.t A) (k : string) (v : A).

Lemma get_replace_eq o k v :
  JsObj.get (JsObj.replace k v o) k = (fun _ => v) <$> JsObj.get o k.
Proof.
  induction o as [|[k' v'] o IH]; simpl; [done|].
  destruct (String.eqb k k') eqn:E; simpl.
  - by rewrite String.eqb_refl.
  - by rewrite E.
Qed.

Lemma get_replace_ne o k k' v :
  k ≠ k' → JsObj.get (JsObj.replace k v o) k' = JsObj.get o k'.
Proof.
  intros Hne. induction o as [|[k0 v0] o IH]; simpl; [done|].
  destruct (String.eqb k k0) eqn:E; simpl.
  - apply String.eqb_eq in E as <-.
    destruct (String.eqb k' k) eqn:E'; [|done].
    apply String.eqb_eq in E'. congruence.
  - by rewrite IH.
Qed.

Lemma get_insert_index_eq o n k v :
  JsObj.get o k = None → JsObj.get (JsObj.insert_index n k v o) k = Some v.
Proof.
  induction o as [|[k' v'] o IH]; simpl; intros Hget.
  - by rewrite String.eqb_refl.
  - destruct (String.eqb k k') eqn:E; [done|].
    destruct (JsObj.array_index k') as [n'|]; [destruct (n <? n')%N|]; simpl;
      rewrite ?String.eqb_refl, ?E; auto.
Qed.

Lemma get_insert_index_ne o n k k' v :
  k ≠ k' → JsObj.get (JsObj.insert_index n k v o) k' = JsObj.get o k'.
Proof.
  intros Hne.
  assert (String.eqb k' k = false) as E by (apply String.eqb_neq; congruence).
  induction o as [|[k0 v0] o IH]; simpl.
  - by rewrite E.
  - destruct (JsObj.array_index k0) as [n'|]; [destruct (n <? n')%N|]; simpl;
      rewrite ?E, ?IH; done.
Qed.

Lemma get_app o1 o2 k :
  JsObj.get (o1 ++ o2) k =
    match JsObj.get o1 k with Some v => Some v | None => JsObj.get o2 k end.
Proof.
  induction o1 as [|[k' v'] o1 IH]; simpl; [done|].
  by destruct (String.eqb k k').
Qed.

(** [o[k] = v; o[k]] reads [v]. *)
Lemma get_set_eq o k v : JsObj.get (JsObj.set k v o) k = Some v.
Proof.
  unfold JsObj.set. destruct (JsObj.get o k) eqn:E.
  - by rewrite get_replace_eq, E.
  - destruct (JsObj.array_index k).
    + by apply get_insert_index_eq.
    + rewrite get_app, E. simpl. by rewrite String.eqb_refl.
Qed.

(** [o[k] = v] leaves every other property as it was. *)
Lemma get_set_ne o k k' v : k ≠ k' → JsObj.get (JsObj.set k v o) k' = JsObj.get o k'.
Proof.
  intros Hne. unfold JsObj.set. destruct (JsObj.get o k) eqn:E.
  - by apply get_replace_ne.
  - destruct (JsObj.array_index k).
    + by apply get_insert_index_ne.
    + rewrite get_app. destruct (JsObj.get o k'); [done|]. simpl.
      destruct (String.eqb k' k) eqn:E'; [|done].
      apply String.eqb_eq in E'. congruence.
Qed.

Lemma get_delete_eq o k : JsObj.get (JsObj.delete k o) k = None.
Proof.
  induction o as [|[k' v'] o IH]; simpl; [done|].
  destruct (String.eqb k k') eqn:E; simpl; [done|]. by rewrite E.
Qed.

Lemma get_delete_ne o k k' : k ≠ k' → JsObj.get (JsObj.delete k o) k' = JsObj.get o k'.
Proof.
  intros Hne. induction o as [|[k0 v0] o IH]; simpl; [done|].
  destruct (String.eqb k k0) eqn:E; simpl.
  - apply String.eqb_eq in E as <-. rewrite IH.
    destruct (String.eqb k' k) eqn:E'; [|done].
    apply String.eqb_eq in E'. congruence.
  - by rewrite IH.
Qed.

Lemma delete_delete o k : JsObj.delete k (JsObj.delete k o) = JsObj.delete k o.
Proof.
  induction o as [|[k' v'] o IH]; simpl; [done|].
  destruct (String.eqb k k') eqn:E; simpl; [done|]. by rewrite E, IH.
Qed.

End JsObjFacts.

(** ** Session objects in the store *)

Lemma session_at_upd_session σ code s f r current :
  session_at σ code = Some (r, current) →
  session_at (upd_session s f σ) code
  = Some (r, if decide (r = s) then f current else current).
Proof.
  unfold session_at. simpl.
  destruct (JsObj.get (sessions σ) code) as [r'|]; [|done]. simpl.
  destruct (session_heap σ !! r') as [v|] eqn:Hr; [|done]. simpl.
  intros [= -> ->].
  destruct (decide (r = s)) as [->|Hne].
  - by rewrite list_lookup_alter_eq, Hr.
  - rewrite list_lookup_alter_ne by done. by rewrite Hr.
Qed.

Lemma session_at_inv σ code r current :
  session_at σ code = Some (r, current) →
  JsObj.get (sessions σ) code = Some r ∧ session_heap σ !! r = Some current.
Proof.
  unfold session_at.
  destruct (JsObj.get (sessions σ) code) as [r'|]; [|done]. simpl.
  destruct (session_heap σ !! r') as [v|] eqn:E; [|done]. simpl.
  by intros [= -> ->].
Qed.

Lemma session_at_intro σ code r current :
  JsObj.get (sessions σ) code = Some r → session_heap σ !! r = Some current →
  session_at σ code = Some (r, current).
Proof. unfold session_at. intros -> Hr. simpl. by rewrite Hr. Qed.

Lemma session_at_upd_session_inv σ code s f r current' :
  session_at (upd_session s f σ) code = Some (r, current') →
  ∃ current, session_at σ code = Some (r, current)
             ∧ current' = if decide (r = s) then f current else current.
Proof.
  intros [Hget Hr]%session_at_inv. simpl in *.
  rewrite list_lookup_alter in Hr.
  destruct (decide (s = r)) as [->|Hne].
  - destruct (session_heap σ !! r) as [v|] eqn:E; [|done].
    injection Hr as <-. exists v. split; [by apply session_at_intro|].
    by rewrite decide_True.
  - exists current'. split; [by apply session_at_intro|].
    by rewrite decide_False by congruence.
Qed.

Lemma find_fmap {A} (p : A → bool) (g : A → A) (l : list A) :
  (∀ a, p (g a) = p a) → List.find p (map g l) = g <$> List.find p l.
Proof.
  intros Hp. induction l as [|a l IH]; simpl; [done|].
  rewrite Hp. by destruct (p a).
Qed.

(** A write to the fields of one session object, seen in the entries of
    [sessions]. *)
Lemma session_entries_upd_session σ s f :
  session_entries (upd_session s f σ)
  = map (λ e, (e.1, if decide (e.1.2 = s) then f e.2 else e.2)) (session_entries σ).
Proof.
  unfold session_entries. simpl.
  induction (sessions σ) as [|[code r] l IH]; simpl; [done|].
  rewrite list_lookup_alter.
  destruct (decide (s = r)) as [<-|Hne].
  - destruct (session_heap σ !! s) as [v|]; simpl; [|exact IH].
    rewrite decide_True by done. f_equal. exact IH.
  - destruct (session_heap σ !! r) as [v|]; simpl; [|exact IH].
    rewrite decide_False by congruence. f_equal. exact IH.
Qed.

Lemma first_with_id_upd_session σ s f sessionId :
  (∀ v, Session.id (f v) = Session.id v) →
  first_with_id (upd_session s f σ) sessionId
  = (λ e, (e.1, if decide (e.1.2 = s) then f e.2 else e.2))
      <$> first_with_id σ sessionId.
Proof.
  intros Hid. unfold first_with_id.
  rewrite session_entries_upd_session. apply find_fmap.
  intros [[code r] v]. simpl. destruct (decide (r = s)); [|done]. by rewrite Hid.
Qed.

Lemma first_with_id_lookup σ sessionId code s session :
  first_with_id σ sessionId = Some (code, s, session) →
  session_heap σ !! s = Some session.
Proof.
  unfold first_with_id. intros H. apply find_some in H as [H _].
  unfold session_entries in H.
  induction (sessions σ) as [|[code' r] l IH]; simpl in H; [done|].
  destruct (session_heap σ !! r) as [v|] eqn:E; simpl in H; [|by apply IH].
  destruct H as [[= -> -> ->]|H]; [done|by apply IH].
Qed.

Lemma first_with_id_elem σ sessionId code s session :
  first_with_id σ sessionId = Some (code, s, session) → (code, s) ∈ sessions σ.
Proof.
  unfold first_with_id. intros H. apply find_some in H as [H _].
  unfold session_entries in H.
  induction (sessions σ) as [|[code' r] l IH]; simpl in H; [done|].
  destruct (session_heap σ !! r) as [v|] eqn:E; simpl in H.
  - destruct H as [[= -> -> ->]|H]; [left|right; by apply IH].
  - right. by apply IH.
Qed.

Lemma find_session_upd_session σ s f sessionId :
  (∀ v, Session.id (f v) = Session.id v) →
  find_session (upd_session s f σ) sessionId
  = (λ e, (e.1, if decide (e.1 = s) then f e.2 else e.2))
      <$> find_session σ sessionId.
Proof.
  intros Hid. unfold find_session. fold (first_with_id (upd_session s f σ) sessionId).
  fold (first_with_id σ sessionId).
  rewrite first_with_id_upd_session by done.
  by destruct (first_with_id σ sessionId) as [[[code r] v]|].
Qed.

(** ** The sample states *)

(** The hand-written sample state is the state of a run from the empty
    server. *)
Lemma sample_paired_is_a_run :
  (run Grace.step
       [Connection (External.mk 0 "h" 1);
        Connection (External.mk 0 "c" 2);
        Connection (External.mk 0 "z" 3);
        Message 0 (Some (Sample.msg "create-session" None None None))
                (External.mk 482193 "S1" 0);
        Message 1 (Some (Sample.msg "join-session" (Some "482193") None None))
                Sample.ext]
       initial).1
  = Sample.paired false.
Proof. reflexivity. Qed.

(** ** The control gate *)

(** C10. In the grace-timer and restore variants a ['control-event'] whose
    session id resolves to no session is answered with [control-not-enabled],
    the same reply as for a session whose control flag is off: the two cases
    share one branch, and [unknown-session] is never sent for this type. *)
Theorem control_event_unknown_session_conflated σ ws w data x :
  socket_heap σ !! ws = Some w →
  Data.type data = "control-event" →
  match find_session σ (Data.sessionId data) with
  | None => True
  | Some (_, session) => Session.controlEnabled session = false
  end →
  Grace.on_message ws (Some data) x σ = (σ, [(ws, error "control-not-enabled")])
  ∧ Restore.on_message ws (Some data) x σ = (σ, [(ws, error "control-not-enabled")]).
Proof.
  intros Hw Htype Hfind.
  simpl_type Hw. simpl_type Htype.
  unfold Grace.control_event_msg.
  destruct (find_session σ (Data.sessionId data)) as [[s session]|]; [|done].
  by rewrite Hfind.
Qed.

Lemma control_event_unknown_session_conflated_witness :
  Grace.on_message 2 (Some (Sample.msg "control-event" None None (Some "nope")))
                   Sample.ext (Sample.paired true)
  = (Sample.paired true, [(2, error "control-not-enabled")])
  ∧ Restore.on_message 2 (Some (Sample.msg "control-event" None None (Some "nope")))
                       Sample.ext (Sample.paired true)
  = (Sample.paired true, [(2, error "control-not-enabled")]).
Proof.
  apply (control_event_unknown_session_conflated
           (Sample.paired true) 2 (Socket.mk "z" None None)); reflexivity.
Defined.

(** C8. While the control flag of the session a ['control-event'] names is
    off, the sender gets [control-not-enabled] and nothing else is sent, in
    the mvp, grace-timer and restore variants. The state is arbitrary, so
    this holds after any sequence of earlier toggles that leaves the flag
    off. *)
Theorem control_event_disabled_rejected σ ws w data x s session :
  socket_heap σ !! ws = Some w →
  Data.type data = "control-event" →
  find_session σ (Data.sessionId data) = Some (s, session) →
  Session.controlEnabled session = false →
  Grace.on_message ws (Some data) x σ = (σ, [(ws, error "control-not-enabled")])
  ∧ Restore.on_message ws (Some data) x σ = (σ, [(ws, error "control-not-enabled")])
  ∧ Mvp.on_message ws (Some data) x σ = (σ, [(ws, error "control-not-enabled")]).
Proof.
  intros Hw Htype Hfind Hoff.
  simpl_type Hw. simpl_type Htype.
  unfold Grace.control_event_msg, Mvp.control_event_msg.
  by rewrite Hfind, Hoff.
Qed.

Lemma control_event_disabled_rejected_witness :
  let data := Sample.msg "control-event" None None (Some "S1") in
  let σ := Sample.paired false in
  Grace.on_message 0 (Some data) Sample.ext σ = (σ, [(0, error "control-not-enabled")])
  ∧ Restore.on_message 0 (Some data) Sample.ext σ = (σ, [(0, error "control-not-enabled")])
  ∧ Mvp.on_message 0 (Some data) Sample.ext σ = (σ, [(0, error "control-not-enabled")]).
Proof.
  apply (control_event_disabled_rejected
           (Sample.paired false) 0 (Socket.mk "h" (Some "S1") None)
           (Sample.msg "control-event" None None (Some "S1")) Sample.ext
           0 (Sample.session_S1 (Some "c") false)); reflexivity.
Defined.

Lemma run_state_irrelevant_output (step : Event → State → State * list Out)
    events σ (out1 out2 : list Out) :
  (fold_left (λ acc e, let '(σ', out) := step e acc.1 in (σ', acc.2 ++ out))
             events (σ, out1)).1
  = (fold_left (λ acc e, let '(σ', out) := step e acc.1 in (σ', acc.2 ++ out))
               events (σ, out2)).1.
Proof.
  revert σ out1 out2. induction events as [|e events IH]; intros σ out1 out2; [done|].
  simpl. destruct (step e σ) as [σ1 out]. apply IH.
Qed.

Lemma run_cons step e events σ :
  (run step (e :: events) σ).1 = (run step events (step e σ).1).1.
Proof.
  unfold run. simpl. destruct (step e σ) as [σ1 out1]. simpl.
  apply run_state_irrelevant_output.
Qed.

Lemma toggle_step σ ws w sessionId x s session enabled :
  socket_heap σ !! ws = Some w →
  find_session σ (Some sessionId) = Some (s, session) →
  Session.hostId session = Socket._clientId w →
  (Grace.step (Message ws (Some (Data.mk "toggle-control" None None (Some sessionId)
                                         "" enabled "")) x) σ).1
  = upd_session s (Session.set_controlEnabled enabled) σ.
Proof.
  intros Hw Hfind Hhost. unfold Grace.step, Grace.on_message. rewrite Hw.
  unfold Grace.dispatch, toggle_control.
  cbn [Data.type Data.sessionId Data.enabled String.eqb Ascii.eqb Bool.eqb
       is_signal orb].
  by rewrite Hfind, Hhost, String.eqb_refl.
Qed.

(** After any sequence of toggles by the host, the control flag is the
    value of the last one. *)
Lemma toggles_set_last σ ws w sessionId x s session values enabled :
  socket_heap σ !! ws = Some w →
  find_session σ (Some sessionId) = Some (s, session) →
  Session.hostId session = Socket._clientId w →
  let σ' := (run Grace.step (toggles ws sessionId x (values ++ [enabled])) σ).1 in
  socket_heap σ' !! ws = Some w
  ∧ find_session σ' (Some sessionId)
    = Some (s, Session.set_controlEnabled enabled session).
Proof.
  revert σ session. induction values as [|b values IH]; intros σ session Hw Hfind Hhost;
    simpl; unfold toggles; simpl; rewrite run_cons;
    rewrite (toggle_step σ ws w sessionId x s session) by done.
  - unfold run. simpl. split; [done|].
    rewrite find_session_upd_session by done. rewrite Hfind. simpl.
    by rewrite decide_True.
  - apply (IH (upd_session s (Session.set_controlEnabled b) σ)
              (Session.set_controlEnabled b session)); try done.
    rewrite find_session_upd_session by done. rewrite Hfind. simpl.
    by rewrite decide_True.
Qed.

(** So a ['control-event'] that follows a sequence of toggles ending with
    [enabled: false] is refused, whoever sends it. *)
Lemma control_event_after_toggles σ ws w sessionId x s session values ws' w' data :
  socket_heap σ !! ws = Some w →
  find_session σ (Some sessionId) = Some (s, session) →
  Session.hostId session = Socket._clientId w →
  let σ' := (run Grace.step (toggles ws sessionId x (values ++ [false])) σ).1 in
  socket_heap σ' !! ws' = Some w' →
  Data.type data = "control-event" →
  Data.sessionId data = Some sessionId →
  Grace.on_message ws' (Some data) x σ' = (σ', [(ws', error "control-not-enabled")]).
Proof.
  intros Hw Hfind Hhost σ' Hw' Htype Hid.
  destruct (toggles_set_last σ ws w sessionId x s session values false Hw Hfind Hhost)
    as [_ Hfind'].
  fold σ' in Hfind'.
  simpl_type Hw'. simpl_type Htype.
  unfold Grace.control_event_msg. by rewrite Hid, Hfind'.
Qed.

(** ** The signaling relay *)

Lemma is_signal_cases type :
  is_signal type = true → type = "offer" ∨ type = "answer" ∨ type = "ice-candidate".
Proof.
  unfold is_signal. intros H.
  destruct (String.eqb type "offer") eqn:E1;
    [left; by apply String.eqb_eq|].
  destruct (String.eqb type "answer") eqn:E2;
    [right; left; by apply String.eqb_eq|].
  right; right. by apply String.eqb_eq.
Qed.

(** The relay branch is the one the chain takes for the three signaling
    types, in every variant. *)
Lemma on_message_signal σ ws w data x :
  socket_heap σ !! ws = Some w →
  is_signal (Data.type data) = true →
  Grace.on_message ws (Some data) x σ = Grace.signal ws (Socket._clientId w) data σ
  ∧ Restore.on_message ws (Some data) x σ = Grace.signal ws (Socket._clientId w) data σ
  ∧ Mvp.on_message ws (Some data) x σ = Mvp.signal ws (Socket._clientId w) data σ
  ∧ Heartbeat.on_message ws (Some data) x σ
    = Heartbeat.signal ws (Socket._clientId w) data σ.
Proof.
  intros Hw Hsig. simpl_type Hw.
  destruct (is_signal_cases _ Hsig) as [H|[H|H]]; by simpl_type H.
Qed.

(** The other party: the chosen target is the sender itself only when the
    sender holds both slots of the session. *)
Lemma targetId_other session clientId :
  targetId session clientId = Some clientId →
  Session.hostId session = clientId ∧ Session.clientId session = Some clientId.
Proof.
  unfold targetId. destruct (String.eqb (Session.hostId session) clientId) eqn:E.
  - apply String.eqb_eq in E. auto.
  - apply String.eqb_neq in E. congruence.
Qed.

(** C9. The relay does not check that the sender belongs to the session: a
    signaling message from any connection other than the host of the session
    it names, member or not, goes to that host with the sender's identifier
    as [from], when the host is registered. *)
Theorem signal_from_outsider_reaches_host σ ws w data x s session hostWs :
  socket_heap σ !! ws = Some w →
  is_signal (Data.type data) = true →
  find_session σ (Data.sessionId data) = Some (s, session) →
  Session.hostId session ≠ Socket._clientId w →
  JsObj.get (clients σ) (Session.hostId session) = Some hostWs →
  Grace.on_message ws (Some data) x σ
  = (σ, [(hostWs, relayed (Data.type data) (Socket._clientId w) (Data.payload data))])
  ∧ Restore.on_message ws (Some data) x σ
  = (σ, [(hostWs, relayed (Data.type data) (Socket._clientId w) (Data.payload data))]).
Proof.
  intros Hw Hsig Hfind Hne Hhost.
  destruct (on_message_signal σ ws w data x Hw Hsig) as (-> & -> & _).
  unfold Grace.signal, client_ws, targetId. rewrite Hfind.
  apply String.eqb_neq in Hne. rewrite Hne. simpl. by rewrite Hhost.
Qed.

Lemma signal_from_outsider_reaches_host_witness :
  let data := Sample.msg "offer" None None (Some "S1") in
  Session.clientId (Sample.session_S1 (Some "c") false) ≠ Some "z"
  ∧ Grace.on_message 2 (Some data) Sample.ext (Sample.paired false)
    = (Sample.paired false, [(0, relayed "offer" "z" "p")])
  ∧ Restore.on_message 2 (Some data) Sample.ext (Sample.paired false)
    = (Sample.paired false, [(0, relayed "offer" "z" "p")]).
Proof.
  split; [done|].
  apply (signal_from_outsider_reaches_host
           (Sample.paired false) 2 (Socket.mk "z" None None)
           (Sample.msg "offer" None None (Some "S1")) Sample.ext
           0 (Sample.session_S1 (Some "c") false) 0); done.
Defined.

(** The relay of a variant follows the rule, with or without the reply
    for a peer that is not registered. *)
Lemma relay_spec_signal (peer_error : bool)
    (on_message : wref → option Data.t → External.t → State → State * list Out) :
  (∀ σ ws w data x,
     socket_heap σ !! ws = Some w →
     is_signal (Data.type data) = true →
     on_message ws (Some data) x σ =
       match find_session σ (Data.sessionId data) with
       | None => (σ, [(ws, error "unknown-session")])
       | Some (_, session) =>
           match client_ws σ (targetId session (Socket._clientId w)) with
           | Some targetWs =>
               (σ, [(targetWs, relayed (Data.type data) (Socket._clientId w)
                                       (Data.payload data))])
           | None =>
               (σ, if peer_error then [(ws, error "peer-not-connected")] else [])
           end
       end) →
  relay_spec peer_error on_message.
Proof.
  intros Hcode σ ws w data x Hw Hsig. simpl. rewrite (Hcode σ ws w data x Hw Hsig).
  destruct (find_session σ (Data.sessionId data)) as [[s session]|] eqn:Hfind.
  - assert (∀ peer,
              (Session.hostId session = Socket._clientId w →
               peer = match Session.clientId session with
                      | Some p => p
                      | None => "null"
                      end) →
              (Session.hostId session ≠ Socket._clientId w →
               peer = Session.hostId session) →
              client_ws σ (targetId session (Socket._clientId w))
              = JsObj.get (clients σ) peer) as Hpeer.
    { intros peer Hhost Hother. unfold client_ws, targetId.
      destruct (String.eqb_spec (Session.hostId session) (Socket._clientId w))
        as [Heq|Hne].
      - rewrite (Hhost Heq). by destruct (Session.clientId session).
      - by rewrite (Hother Hne). }
    split; [by destruct (client_ws σ _)|]. split; [done|].
    intros s' session' peer [= <- <-] Hhost Hother.
    rewrite (Hpeer peer Hhost Hother).
    split.
    + by intros targetWs ->.
    + by intros ->.
  - split; [done|]. split; [done|]. by intros s' session' peer [=].
Qed.

(** C7, as stated, fails on the heartbeat variant: the host's offer for a
    session without a client is dropped and the host gets no
    [peer-not-connected]. *)
Lemma relay_heartbeat_no_peer_error :
  Heartbeat.on_message 0 (Some (Sample.msg "offer" None None (Some "S1")))
                       Sample.ext Sample.host_only
  = (Sample.host_only, [])
  ∧ ¬ relay_spec true Heartbeat.on_message.
Proof.
  split; [reflexivity|].
  intros H.
  destruct (H Sample.host_only 0 (Socket.mk "h" (Some "S1") None)
              (Sample.msg "offer" None None (Some "S1")) Sample.ext
              eq_refl eq_refl) as (_ & _ & Hfound).
  destruct (Hfound 0 (Sample.session_S1 None false) "null" eq_refl
              (λ _, eq_refl) (λ Hne, False_ind _ (Hne eq_refl))) as [_ Hnone].
  specialize (Hnone eq_refl). discriminate Hnone.
Qed.

(** C7, amended. For an offer, an answer or an ice-candidate, in the
    grace-timer, restore and heartbeat variants: the state is left as it
    was; if no session has the id the sender gets [unknown-session]; else
    the peer is the client of the session when the sender is its host and
    the host otherwise, and if the peer is registered the one message sent
    is the payload, with the type and the sender's identifier as [from], to
    the peer's socket. If the peer is not registered, the grace-timer and
    restore variants send [peer-not-connected] to the sender and the
    heartbeat variant sends nothing. *)
Theorem relay_behaviour :
  relay_spec true Grace.on_message
  ∧ relay_spec true Restore.on_message
  ∧ relay_spec false Heartbeat.on_message.
Proof.
  split; [|split]; apply relay_spec_signal; intros σ ws w data x Hw Hsig.
  - destruct (on_message_signal σ ws w data x Hw Hsig) as (-> & _).
    unfold Grace.signal, send.
    destruct (find_session σ _) as [[s session]|]; [|done].
    by destruct (client_ws σ _).
  - destruct (on_message_signal σ ws w data x Hw Hsig) as (_ & -> & _).
    unfold Grace.signal, send.
    destruct (find_session σ _) as [[s session]|]; [|done].
    by destruct (client_ws σ _).
  - destruct (on_message_signal σ ws w data x Hw Hsig) as (_ & _ & _ & ->).
    unfold Heartbeat.signal, send.
    destruct (find_session σ _) as [[s session]|]; [|done].
    by destruct (client_ws σ _).
Qed.

(** The host's answer goes to the client and to no one else; the client's
    offer, in a session whose host is gone, brings [peer-not-connected] in
    the grace-timer variant and nothing in the heartbeat variant; an offer
    for an id that no session has brings [unknown-session]. *)
Lemma relay_behaviour_witness :
  Grace.on_message 0 (Some (Sample.msg "answer" None None (Some "S1")))
                   Sample.ext (Sample.paired false)
  = (Sample.paired false, [(1, relayed "answer" "h" "p")])
  ∧ Grace.on_message 1 (Some (Sample.msg "offer" None None (Some "S1")))
                     Sample.ext Sample.host_gone
    = (Sample.host_gone, [(1, error "peer-not-connected")])
  ∧ Heartbeat.on_message 1 (Some (Sample.msg "offer" None None (Some "S1")))
                         Sample.ext Sample.host_gone
    = (Sample.host_gone, [])
  ∧ Restore.on_message 2 (Some (Sample.msg "offer" None None (Some "nope")))
                       Sample.ext Sample.host_gone
    = (Sample.host_gone, [(2, error "unknown-session")]).
Proof.
  destruct relay_behaviour as (Hgrace & Hrestore & Hheartbeat).
  split; [|split; [|split]]; apply injective_projections.
  - apply (Hgrace (Sample.paired false) 0 (Socket.mk "h" (Some "S1") None)
             (Sample.msg "answer" None None (Some "S1")) Sample.ext
             eq_refl eq_refl).
  - destruct (Hgrace (Sample.paired false) 0 (Socket.mk "h" (Some "S1") None)
                (Sample.msg "answer" None None (Some "S1")) Sample.ext
                eq_refl eq_refl) as (_ & _ & Hfound).
    destruct (Hfound 0 (Sample.session_S1 (Some "c") false) "c" eq_refl
                (λ _, eq_refl) (λ Hne, False_ind _ (Hne eq_refl))) as [Hsome _].
    exact (Hsome 1 eq_refl).
  - apply (Hgrace Sample.host_gone 1 (Socket.mk "c" (Some "S1") None)
             (Sample.msg "offer" None None (Some "S1")) Sample.ext
             eq_refl eq_refl).
  - destruct (Hgrace Sample.host_gone 1 (Socket.mk "c" (Some "S1") None)
                (Sample.msg "offer" None None (Some "S1")) Sample.ext
                eq_refl eq_refl) as (_ & _ & Hfound).
    assert ("h" ≠ "c") as Hne by discriminate.
    destruct (Hfound 0 (Sample.session_S1 (Some "c") false) "h" eq_refl
                (λ Heq, False_ind _ (Hne Heq)) (λ _, eq_refl)) as [_ Hnone].
    exact (Hnone eq_refl).
  - apply (Hheartbeat Sample.host_gone 1 (Socket.mk "c" (Some "S1") None)
             (Sample.msg "offer" None None (Some "S1")) Sample.ext
             eq_refl eq_refl).
  - destruct (Hheartbeat Sample.host_gone 1 (Socket.mk "c" (Some "S1") None)
                (Sample.msg "offer" None None (Some "S1")) Sample.ext
                eq_refl eq_refl) as (_ & _ & Hfound).
    assert ("h" ≠ "c") as Hne by discriminate.
    destruct (Hfound 0 (Sample.session_S1 (Some "c") false) "h" eq_refl
                (λ Heq, False_ind _ (Hne Heq)) (λ _, eq_refl)) as [_ Hnone].
    exact (Hnone eq_refl).
  - apply (Hrestore Sample.host_gone 2 (Socket.mk "z" None None)
             (Sample.msg "offer" None None (Some "nope")) Sample.ext
             eq_refl eq_refl).
  - destruct (Hrestore Sample.host_gone 2 (Socket.mk "z" None None)
                (Sample.msg "offer" None None (Some "nope")) Sample.ext
                eq_refl eq_refl) as (_ & Hnone & _).
    exact (Hnone eq_refl).
Defined.

(** ** Joining a session *)



(** It also fails, on every variant, for a code that is a property name of
    [Object.prototype]: no session matches it, and the reply is
    [host-not-available]. *)
Lemma join_inherited_code_not_invalid :
  Grace.on_message 2 (Some (Sample.msg "join-session" (Some "constructor") None None))
                   Sample.ext (Sample.paired true)
  = (Sample.paired true, [(2, error "host-not-available")])
  ∧ session_at (Sample.paired true) "constructor" = None
  ∧ ¬ join_spec false (λ _, true) true false Grace.on_message.
Proof.
  split; [reflexivity|]. split; [reflexivity|].
  intros H.
  destruct (H (Sample.paired true) 2 (Socket.mk "z" None None)
              (Sample.msg "join-session" (Some "constructor") None None) Sample.ext
              eq_refl eq_refl) as (_ & Hok).
  destruct (Hok eq_refl) as (Hnone & _).
  specialize (Hnone eq_refl (λ H, False_ind _ (Bool.diff_false_true H))).
  discriminate Hnone.
Qed.




Lemma live_ws_live σ id : live σ id → ∃ ws, live_ws σ id = Some ws.
Proof.
  intros (p & ws & -> & Hne & Hget). exists ws.
  unfold live_ws, client_ws, truthy. simpl.
  apply String.eqb_neq in Hne. by rewrite Hne.
Qed.

Lemma live_ws_not_live σ id : not_live σ id → live_ws σ id = None.
Proof.
  unfold live_ws, client_ws, truthy.
  intros [->|[->|(p & -> & Hget)]]; [done|done|].
  simpl. by destruct (negb (String.eqb p "")).
Qed.




(** ** Refused messages *)



(** It fails as well for a ['join-session'] whose code is a property name of
    [Object.prototype]: no session is stored under it, and the reply is
    [host-not-available]. *)
Lemma refusal_inherited_code :
  session_at (Sample.paired true) "valueOf" = None
  ∧ Restore.on_message 2 (Some (Sample.msg "join-session" (Some "valueOf") None None))
                       Sample.ext (Sample.paired true)
    = (Sample.paired true, [(2, error "host-not-available")])
  ∧ ¬ refusal_spec "control-not-enabled" false
        (λ type, String.eqb type "restore-session") Restore.on_message.
Proof.
  split; [reflexivity|]. split; [reflexivity|].
  intros H.
  destruct (H (Sample.paired true) 2 (Socket.mk "z" None None)
              (Sample.msg "join-session" (Some "valueOf") None None) Sample.ext
              eq_refl eq_refl) as (_ & Hcode & _).
  specialize (Hcode eq_refl eq_refl (λ H, False_ind _ (Bool.diff_false_true H))).
  discriminate Hcode.
Qed.



(** A refused ['restore-session'] is not free of effects in the restore
    variant: [clearTimeout] runs before the role is looked at. After the
    client [c] has closed its connection, a request of [z] for the host role
    is refused, and the timer that would have cleared the client slot is no
    longer pending. *)
Lemma restore_refusal_clears_timer :
  let σ := (Restore.on_close 1 restore_paired).1 in
  let data := Sample.msg "restore-session" (Some "482193") (Some "host") None in
  let result := Restore.on_message 2 (Some data) Sample.ext σ in
  timer_heap σ = [Timer.mk (client_grace "482193" "c" 0) true]
  ∧ result.2 = [(2, error "no-session-to-restore")]
  ∧ timer_heap result.1 = [Timer.mk (client_grace "482193" "c" 0) false].
Proof. vm_compute. repeat split. Qed.

Lemma broadcast_only σ sessionId obj to obj' :
  (to, obj') ∈ broadcastToSession σ sessionId obj → obj' = obj.
Proof.
  unfold broadcastToSession. intros Hin.
  apply list_elem_of_In, in_flat_map in Hin as ([cid ws] & _ & Hin).
  destruct (socket_heap σ !! ws) as [w|]; [|done].
  destruct (strict_eq _ _); [|done].
  destruct Hin as [[= _ <-]|[]]. done.
Qed.

(** X19. The converse for the shared chain: whenever a handler of the grace-timer
    variant sends an [error] other than [host-not-available], that reply is
    all it sends and the state is as before. *)
Lemma error_reply_is_only_effect ws clientId data x σ to e :
  (to, error e) ∈ (Grace.dispatch ws clientId data x σ).2 →
  e ≠ "host-not-available" →
  Grace.dispatch ws clientId data x σ = (σ, [(ws, error e)]).
Proof.
  unfold Grace.dispatch.
  destruct (String.eqb _ "create-session").
  { unfold create_session, send. simpl. intros Hin. only_reply_by broadcast_only. }
  destruct (String.eqb _ "join-session").
  { unfold Grace.join_session, join_inherited, send.
    split_handler; simpl; intros ?; only_reply_by broadcast_only. }
  destruct (is_signal _).
  { unfold Grace.signal, send.
    destruct (find_session σ _) as [[s session]|]; simpl; [|intros ?; only_reply_by broadcast_only].
    destruct (client_ws σ _); simpl; intros ?; only_reply_by broadcast_only. }
  destruct (String.eqb _ "toggle-control").
  { unfold toggle_control, send.
    destruct (find_session σ _) as [[s session]|]; simpl; [|intros ?; only_reply_by broadcast_only].
    destruct (negb _); simpl; intros ?; only_reply_by broadcast_only. }
  destruct (String.eqb _ "control-event").
  { unfold Grace.control_event_msg, send.
    destruct (find_session σ _) as [[s session]|]; simpl; [|intros ?; only_reply_by broadcast_only].
    destruct (negb _); simpl; [intros ?; only_reply_by broadcast_only|].
    destruct (negb _); simpl; [intros ?; only_reply_by broadcast_only|].
    destruct (client_ws σ _); simpl; intros ?; only_reply_by broadcast_only. }
  unfold send. simpl. intros ?; only_reply_by broadcast_only.
Qed.

(** ** Session codes *)

Section Digits.

Lemma digit_cases (P : N → Prop) :
  P 0%N → P 1%N → P 2%N → P 3%N → P 4%N → P 5%N → P 6%N → P 7%N → P 8%N →
  P 9%N → ∀ k, (k < 10)%N → P k.
Proof.
  intros H0 H1 H2 H3 H4 H5 H6 H7 H8 H9 k Hk.
  destruct k as [|p]; [done|].
  do 4 (destruct p as [p|p|]; try done; try lia).
Qed.

Lemma of_lu_digit k u :
  (k < 10)%N →
  DecimalPos.Unsigned.of_lu (digit k u) = (k + 10 * DecimalPos.Unsigned.of_lu u)%N.
Proof.
  revert k. apply digit_cases; rewrite DecimalPos.Unsigned.of_lu_eqn; simpl; lia.
Qed.

Lemma rev_digit k u acc :
  Decimal.revapp (digit k u) acc = Decimal.revapp u (digit k acc).
Proof. destruct k as [|p]; [done|]. do 4 (destruct p as [p|p|]; try done). Qed.

Lemma unorm_digit k u : (0 < k < 10)%N → Decimal.unorm (digit k u) = digit k u.
Proof.
  intros [H0 H10]. revert k H10 H0.
  apply (digit_cases (λ k, (0 < k)%N → Decimal.unorm (digit k u) = digit k u));
    try done; lia.
Qed.

Lemma length_string_digit k u :
  String.length (NilEmpty.string_of_uint (digit k u))
  = S (String.length (NilEmpty.string_of_uint u)).
Proof. destruct k as [|p]; [done|]. do 4 (destruct p as [p|p|]; try done). Qed.

Lemma string_digit_nonnil k u :
  NilZero.string_of_uint (digit k u) = NilEmpty.string_of_uint (digit k u).
Proof. destruct k as [|p]; [done|]. do 4 (destruct p as [p|p|]; try done). Qed.

(** The six digits of a number between 100000 and 999999. *)
Lemma to_uint_six_digits n :
  (100000 ≤ n < 1000000)%N →
  N.to_uint n =
    digit (n / 100000) (digit (n / 10000 mod 10) (digit (n / 1000 mod 10)
      (digit (n / 100 mod 10) (digit (n / 10 mod 10) (digit (n mod 10)
         Decimal.Nil))))).
Proof.
  intros Hn.
  set (d := digit (n / 100000) _).
  assert (n / 100000 < 10)%N as H5 by (apply N.Div0.div_lt_upper_bound; lia).
  assert (0 < n / 100000)%N as H5' by (apply N.div_str_pos; lia).
  assert (Decimal.unorm d = d) as <- by (apply unorm_digit; lia).
  rewrite <- DecimalN.Unsigned.to_of. f_equal.
  unfold N.of_uint. rewrite DecimalPos.Unsigned.of_uint_alt.
  unfold d, Decimal.rev. rewrite !rev_digit. simpl Decimal.revapp.
  rewrite !of_lu_digit by (try apply N.mod_lt; lia).
  simpl DecimalPos.Unsigned.of_lu.
  rewrite (N.div_mod n 10) at 1 by lia.
  rewrite (N.div_mod (n / 10) 10) at 1 by lia.
  rewrite (N.div_mod (n / 10 / 10) 10) at 1 by lia.
  rewrite (N.div_mod (n / 10 / 10 / 10) 10) at 1 by lia.
  rewrite (N.div_mod (n / 10 / 10 / 10 / 10) 10) at 1 by lia.
  rewrite !N.Div0.div_div.
  change (10 * 10)%N with 100%N.
  change (10 * (10 * (10 * 100)))%N with 100000%N.
  change (10 * (10 * 100))%N with 10000%N.
  change (10 * 100)%N with 1000%N.
  lia.
Qed.

End Digits.

(** A draw in the range of
    [Math.floor(100000 + Math.random() * 900000)] gives a code of six
    characters. *)
Lemma code_of_draw_length draw :
  (100000 ≤ draw ≤ 999999)%N → String.length (code_of_draw draw) = 6.
Proof.
  intros Hd. unfold code_of_draw.
  rewrite to_uint_six_digits by lia.
  rewrite string_digit_nonnil, !length_string_digit. reflexivity.
Qed.

(** A session code is an array-index key of [sessions]: the store is
    enumerated in ascending order of the codes. *)
Lemma code_of_draw_array_index draw :
  (draw < 4294967295)%N →
  JsObj.array_index (code_of_draw draw) = Some draw.
Proof.
  intros Hd. unfold JsObj.array_index, code_of_draw.
  rewrite NilZero.usu
    by (destruct draw; [done|apply DecimalPos.Unsigned.to_uint_nonnil]).
  rewrite DecimalN.Unsigned.of_to, String.eqb_refl. simpl.
  destruct (N.ltb_spec draw 4294967295); [done|lia].
Qed.

(** Distinct draws give distinct codes. *)
Lemma code_of_draw_inj d1 d2 : code_of_draw d1 = code_of_draw d2 → d1 = d2.
Proof.
  unfold code_of_draw. intros H.
  assert (∀ n, NilZero.uint_of_string (NilZero.string_of_uint (N.to_uint n))
               = Some (N.to_uint n)) as Husu.
  { intros n. apply NilZero.usu. destruct n; [done|]. apply DecimalPos.Unsigned.to_uint_nonnil. }
  pose proof (Husu d1) as H1. rewrite H, Husu in H1.
  injection H1 as H1. by apply DecimalN.Unsigned.to_uint_inj in H1.
Qed.

(** A code is a numeral: [sessions] inherits nothing for it. *)
Lemma code_of_draw_not_inheritable draw : inheritable (code_of_draw draw) = false.
Proof.
  unfold code_of_draw.
  destruct (N.to_uint draw) as [|u|u|u|u|u|u|u|u|u|u]; reflexivity.
Qed.

Lemma inherited_inheritable σ k : inheritable k = false → inherited σ k = None.
Proof.
  unfold inheritable, inherited.
  intros [[H1 H2]%orb_false_elim H3]%orb_false_elim.
  rewrite H1, H2, H3. by destruct (defined _).
Qed.

(** ** Creating a session *)

Lemma on_message_create σ ws w data x :
  socket_heap σ !! ws = Some w →
  Data.type data = "create-session" →
  Grace.on_message ws (Some data) x σ = create_session ws (Socket._clientId w) x σ
  ∧ Restore.on_message ws (Some data) x σ = create_session ws (Socket._clientId w) x σ
  ∧ Mvp.on_message ws (Some data) x σ = create_session ws (Socket._clientId w) x σ
  ∧ Heartbeat.on_message ws (Some data) x σ
    = Heartbeat.create_session ws (Socket._clientId w) x σ.
Proof. intros Hw Htype. simpl_type Hw. by simpl_type Htype. Qed.

(** C6, as stated, fails: with the draw 482193 the host [z] is given the
    code 482193 under which the session [S1] of [h] and [c] is stored, and
    the new session takes its place. *)
Lemma create_session_code_collision :
  let data := Sample.msg "create-session" None None None in
  let result := Grace.on_message 2 (Some data) Sample.ext (Sample.paired true) in
  result.2 = [(2, session_created "482193" "S2")]
  ∧ session_at (Sample.paired true) "482193"
    = Some (0, Sample.session_S1 (Some "c") true)
  ∧ session_at result.1 "482193"
    = Some (1, Session.mk "S2" "z" None 7 false false false)
  ∧ ¬ fresh_code_spec Grace.on_message.
Proof.
  split; [reflexivity|]. split; [reflexivity|]. split; [reflexivity|].
  intros H.
  assert (External.in_range Sample.ext) as Hrange by (split; discriminate).
  destruct (H (Sample.paired true) 2 (Socket.mk "z" None None)
              (Sample.msg "create-session" None None None) Sample.ext
              eq_refl eq_refl Hrange) as (code & sid & Hout & Hget & _).
  vm_compute in Hout. injection Hout as <- _. discriminate Hget.
Qed.

Lemma create_spec_holds σ x created :
  let sessionCode := code_of_draw (External.draw x) in
  let σ' := set_sessions (JsObj.set sessionCode (length (session_heap σ)))
                         (new_session created σ).2 in
  (External.in_range x → String.length sessionCode = 6)
  ∧ session_heap σ' = session_heap σ ++ [created]
  ∧ session_at σ' sessionCode = Some (length (session_heap σ), created)
  ∧ (∀ code, code ≠ sessionCode →
       JsObj.get (sessions σ') code = JsObj.get (sessions σ) code).
Proof.
  simpl. split; [apply code_of_draw_length|]. split; [done|].
  split.
  - unfold session_at. simpl. rewrite get_set_eq. simpl.
    rewrite lookup_app_r by lia. by rewrite Nat.sub_diag.
  - intros code Hne. by apply get_set_ne.
Qed.

Lemma run_snoc (step : Event → State → State * list Out) events e σ :
  (run step (events ++ [e]) σ).1 = (step e (run step events σ).1).1.
Proof.
  unfold run. rewrite fold_left_app. simpl.
  by destruct (step e _).
Qed.

(** A write to a session object keeps its id. *)
Lemma session_ids_alter (f : Session.t → Session.t) s l :
  (∀ v, Session.id (f v) = Session.id v) →
  map Session.id (alter f s l) = map Session.id l.
Proof.
  intros Hf. revert s. induction l as [|v l IH]; intros [|s]; simpl; [done..| |].
  - by rewrite Hf.
  - f_equal. apply IH.
Qed.

Ltac ids_kept :=
  unfold session_ids; simpl;
  rewrite ?session_ids_alter by (by intros []);
  rewrite ?app_nil_r; reflexivity.

(** The ids of the session objects after an event: those before it, and
    the value of [uuidv4()] when the event makes a session. *)
Lemma session_ids_dispatch_grace ws c data x σ :
  session_ids (Grace.dispatch ws c data x σ).1
  = session_ids σ ++ (if String.eqb (Data.type data) "create-session"
                      then [External.uuid x] else []).
Proof.
  unfold Grace.dispatch.
  destruct (String.eqb (Data.type data) "create-session").
  { unfold session_ids, create_session. simpl. by rewrite map_app. }
  unfold Grace.join_session, join_inherited, Grace.signal, toggle_control,
    Grace.control_event_msg, write_clientId.
  split_handler; ids_kept.
Qed.

Lemma session_ids_clearTimeout h σ : session_ids (clearTimeout h σ) = session_ids σ.
Proof. by destruct h. Qed.

Lemma session_ids_dispatch_restore ws c data x σ :
  session_ids (Restore.dispatch ws c data x σ).1
  = session_ids σ ++ (if String.eqb (Data.type data) "create-session"
                      then [External.uuid x] else []).
Proof.
  unfold Restore.dispatch.
  destruct (String.eqb_spec (Data.type data) "restore-session") as [Htype|_];
    [|apply session_ids_dispatch_grace].
  rewrite Htype. simpl.
  unfold Restore.restore_session, Restore.restore_inherited, write_hostId,
    write_clientId.
  destruct (JsObj.get (disconnectTimers σ) _); simpl;
    split_handler; ids_kept.
Qed.

Lemma session_ids_dispatch_mvp ws c data x σ :
  session_ids (Mvp.dispatch ws c data x σ).1
  = session_ids σ ++ (if String.eqb (Data.type data) "create-session"
                      then [External.uuid x] else []).
Proof.
  unfold Mvp.dispatch.
  destruct (String.eqb (Data.type data) "create-session").
  { unfold session_ids, create_session. simpl. by rewrite map_app. }
  unfold Mvp.join_session, join_inherited, Mvp.signal, toggle_control,
    Mvp.control_event_msg, write_clientId.
  split_handler; ids_kept.
Qed.

Lemma session_ids_dispatch_heartbeat ws c data x σ :
  session_ids (Heartbeat.dispatch ws c data x σ).1
  = session_ids σ ++ (if String.eqb (Data.type data) "create-session"
                      then [External.uuid x] else []).
Proof.
  unfold Heartbeat.dispatch.
  destruct (String.eqb_spec (Data.type data) "reconnect-session") as [Htype|_].
  { rewrite Htype. simpl.
    unfold Heartbeat.reconnect_session, Heartbeat.reconnect_inherited,
      write_hostId, write_clientId.
    split_handler; ids_kept. }
  destruct (String.eqb (Data.type data) "create-session").
  { unfold session_ids, Heartbeat.create_session. simpl. by rewrite map_app. }
  unfold Heartbeat.join_session, Heartbeat.join_inherited, Heartbeat.signal,
    Heartbeat.toggle_control, write_clientId.
  split_handler; ids_kept.
Qed.

Lemma session_ids_timeout h σ :
  session_ids (Grace.on_timeout h σ).1 = session_ids σ.
Proof.
  unfold Grace.on_timeout, Grace.run_callback. split_handler; ids_kept.
Qed.

(** Whatever the event, the ids after it are the ids before it, followed by
    at most the id the event was given. *)
Lemma session_ids_step (step : Event → State → State * list Out) e σ :
  step = Grace.step ∨ step = Restore.step ∨ step = Mvp.step
  ∨ step = Heartbeat.step →
  ∃ l, session_ids (step e σ).1 = session_ids σ ++ l
       ∧ l `sublist_of` created_ids [e].
Proof.
  assert (∀ (dispatch : wref → ConnId → Data.t → External.t → State
                        → State * list Out) ws msg x,
            (∀ ws c data x σ,
               session_ids (dispatch ws c data x σ).1
               = session_ids σ ++ (if String.eqb (Data.type data) "create-session"
                                   then [External.uuid x] else [])) →
            ∃ l, session_ids
                   (match socket_heap σ !! ws with
                    | None => (σ, [])
                    | Some w =>
                        match msg with
                        | None => (σ, [(ws, error "invalid-json")])
                        | Some data => dispatch ws (Socket._clientId w) data x σ
                        end
                    end).1 = session_ids σ ++ l
                 ∧ l `sublist_of` created_ids [Message ws msg x]) as Hmessage.
  { intros dispatch ws msg x Hdispatch.
    destruct (socket_heap σ !! ws) as [w|];
      [|exists []; split; [by rewrite app_nil_r|apply sublist_nil_l]].
    destruct msg as [data|];
      [|exists []; split; [by rewrite app_nil_r|apply sublist_nil_l]].
    rewrite Hdispatch. eexists. split; [done|]. simpl.
    by destruct (String.eqb (Data.type data) "create-session"). }
  assert (∀ σ' : State,
            session_ids σ' = session_ids σ →
            ∃ l, session_ids σ' = session_ids σ ++ l
                 ∧ l `sublist_of` created_ids [e]) as Hkept.
  { intros σ' ->. exists []. split; [by rewrite app_nil_r|apply sublist_nil_l]. }
  intros [->|[->|[->| ->]]]; destruct e as [x|ws msg x|ws|ws|h]; simpl.
  all: try (apply Hkept; reflexivity).
  all: try (apply Hkept; apply session_ids_timeout).
  all: try (apply Hkept; unfold on_connection; ids_kept).
  all: try (apply Hkept;
            unfold Restore.on_close, Grace.on_close, Mvp.on_close,
              Heartbeat.on_close;
            split_handler; ids_kept).
  - apply (Hmessage Grace.dispatch), session_ids_dispatch_grace.
  - apply (Hmessage Restore.dispatch), session_ids_dispatch_restore.
  - apply (Hmessage Mvp.dispatch), session_ids_dispatch_mvp.
  - apply (Hmessage Heartbeat.dispatch), session_ids_dispatch_heartbeat.
Qed.

Lemma created_ids_snoc events e :
  created_ids (events ++ [e]) = created_ids events ++ created_ids [e].
Proof. unfold created_ids. by rewrite omap_app. Qed.

Lemma unique_ids_run (step : Event → State → State * list Out) :
  step = Grace.step ∨ step = Restore.step ∨ step = Mvp.step
  ∨ step = Heartbeat.step →
  unique_ids_spec step.
Proof.
  intros Hstep events Hnodup.
  apply (sublist_NoDup _ _ Hnodup). clear Hnodup.
  induction events as [|e events IH] using rev_ind; [done|].
  rewrite run_snoc, created_ids_snoc. simpl.
  destruct (session_ids_step step e (run step events initial).1 Hstep)
    as (l & -> & Hl).
  by apply sublist_app.
Qed.

(** The condition on [uuidv4()] cannot be dropped: the id of the new session
    is the value as it comes, put after the ids in use without a look at
    them. *)
Lemma create_session_id_unchecked σ ws w data x :
  socket_heap σ !! ws = Some w →
  Data.type data = "create-session" →
  session_ids (Grace.on_message ws (Some data) x σ).1
  = session_ids σ ++ [External.uuid x].
Proof.
  intros Hw Htype. unfold Grace.on_message. rewrite Hw.
  rewrite session_ids_dispatch_grace. by rewrite Htype.
Qed.

(** C6, amended. In every variant the returned code is the decimal numeral
    of the draw, six characters long for a draw in the range of the
    expression; the new session is stored under it whatever was stored there
    before, and the entries of all other codes stay. The returned id is the
    value of [uuidv4()], stored as the id of the new session object without
    a look at the ids in use; in a run in which [uuidv4()] gives no value
    twice to a ['create-session'], no two session objects have the same
    id. *)
Theorem create_session_behaviour :
  (create_spec Grace.on_message ∧ create_spec Restore.on_message
   ∧ create_spec Mvp.on_message ∧ create_spec Heartbeat.on_message)
  ∧ unique_ids_spec Grace.step ∧ unique_ids_spec Restore.step
  ∧ unique_ids_spec Mvp.step ∧ unique_ids_spec Heartbeat.step.
Proof.
  split; [|repeat split; apply unique_ids_run; tauto].
  split; [|split; [|split]]; intros σ ws w data x Hw Htype;
    destruct (on_message_create σ ws w data x Hw Htype) as (HG & HR & HM & HH);
    simpl; rewrite ?HG, ?HR, ?HM, ?HH;
    (split; [done|]);
    apply (create_spec_holds σ x
             (Session.mk (External.uuid x) (Socket._clientId w) None
                         (External.now x) false false false)).
Qed.

(** The connection [z] creates a session with the draw 524303, next to the
    session stored under 482193; and in the run behind that state, with one
    more ['create-session'], the two ids differ. *)
Lemma create_session_behaviour_witness :
  let result :=
    Mvp.on_message 2 (Some (Sample.msg "create-session" None None None))
                   (External.mk 524303 "S2" 7) (Sample.paired true) in
  result.2 = [(2, session_created "524303" "S2")]
  ∧ String.length (code_of_draw 524303) = 6
  ∧ session_at result.1 "524303"
    = Some (1, Session.mk "S2" "z" None 7 false false false)
  ∧ JsObj.get (sessions result.1) "482193" = Some 0
  ∧ NoDup (session_ids
             (run Mvp.step
                  [Connection (External.mk 0 "h" 1);
                   Message 0 (Some (Sample.msg "create-session" None None None))
                           (External.mk 482193 "S1" 4);
                   Message 0 (Some (Sample.msg "create-session" None None None))
                           (External.mk 524303 "S2" 7)]
                  initial).1).
Proof.
  destruct create_session_behaviour as ((_ & _ & H & _) & _ & _ & Hids & _).
  destruct (H (Sample.paired true) 2 (Socket.mk "z" None None)
              (Sample.msg "create-session" None None None)
              (External.mk 524303 "S2" 7) eq_refl eq_refl)
    as (Hout & Hlen & _ & Hat & Hother).
  split; [exact Hout|]. split; [apply Hlen; split; discriminate|].
  split; [exact Hat|]. split.
  - rewrite (Hother "482193"); [reflexivity|discriminate].
  - apply Hids. simpl.
    apply NoDup_cons. split; [|apply NoDup_singleton].
    intros Hin%list_elem_of_singleton. discriminate Hin.
Defined.

(** ** Reconnection *)

(** C2. A reconnect request for the host role must fail while a registered
    connection holds the host slot, and leave [hostId] as it is. The
    heartbeat variant does not: with the host [h] connected, the request of
    [z] is answered [session-rejoined], [hostId] becomes [z], the client is
    told [host-reconnected], and [h] stays registered and bound to the
    session as its host. *)
Theorem reconnect_session_replaces_live_host :
  let data := Sample.msg "reconnect-session" (Some "482193") (Some "host") None in
  let result := Heartbeat.on_message 2 (Some data) Sample.ext heartbeat_paired in
  hostId_at heartbeat_paired "482193" = Some "h"
  ∧ JsObj.get (clients heartbeat_paired) "h" = Some 0
  ∧ result.2 = [(1, host_reconnected); (2, session_rejoined "S1")]
  ∧ hostId_at result.1 "482193" = Some "z"
  ∧ JsObj.get (clients result.1) "h" = Some 0
  ∧ socket_heap result.1 !! 0 = Some (Socket.mk "h" (Some "S1") (Some "host"))
  ∧ socket_heap result.1 !! 2 = Some (Socket.mk "z" (Some "S1") (Some "host")).
Proof. vm_compute. repeat split. Qed.

(** The defect for any state: the first ['reconnect-session'] branch of the
    heartbeat variant never looks at the registry before it writes the host
    slot. *)
Lemma reconnect_session_takes_host_slot σ ws w data x s session :
  socket_heap σ !! ws = Some w →
  Data.type data = "reconnect-session" →
  truthy (Data.sessionCode data) = true →
  Data.role data = Some "host" →
  session_at σ (key_of_undefined (Data.sessionCode data)) = Some (s, session) →
  let result := Heartbeat.on_message ws (Some data) x σ in
  hostId_at result.1 (key_of_undefined (Data.sessionCode data))
  = Some (Socket._clientId w)
  ∧ result.2 = match live_ws σ (Session.clientId session) with
               | Some clientWs => [(clientWs, host_reconnected)]
               | None => []
               end ++ [(ws, session_rejoined (Session.id session))].
Proof.
  intros Hw Htype Hcode Hrole Hat. simpl.
  simpl_type Hw. simpl_type Htype.
  unfold Heartbeat.reconnect_session. rewrite Hcode, Hat, Hrole. simpl.
  split; [|done].
  unfold hostId_at.
  erewrite session_at_upd_session; last first.
  { erewrite session_at_upd_session; [done|]. exact Hat. }
  by rewrite !decide_True.
Qed.

(** The second ['reconnect-session'] branch of the heartbeat variant, which
    the chain never reaches, refuses the same request. *)
Lemma reconnect_shadowed_refuses_live_host σ ws clientId data s session hostWs :
  truthy (Data.sessionCode data) = true →
  Data.role data = Some "host" →
  session_at σ (key_of_undefined (Data.sessionCode data)) = Some (s, session) →
  Session.hostId session ≠ "" →
  JsObj.get (clients σ) (Session.hostId session) = Some hostWs →
  Heartbeat.reconnect_session_shadowed ws clientId data σ
  = (σ, [(ws, reconnect_session_failed "Host already connected")]).
Proof.
  intros Hcode Hrole Hat Hne Hhost.
  unfold Heartbeat.reconnect_session_shadowed.
  rewrite Hcode, Hat, Hrole, Hhost. simpl.
  apply String.eqb_neq in Hne. by rewrite Hne.
Qed.

Lemma reconnect_shadowed_unreachable ws clientId data x σ :
  Heartbeat.dispatch ws clientId data x σ
  = if String.eqb (Data.type data) "reconnect-session"
    then Heartbeat.reconnect_session ws clientId data σ
    else if String.eqb (Data.type data) "create-session"
    then Heartbeat.create_session ws clientId x σ
    else if String.eqb (Data.type data) "join-session"
    then Heartbeat.join_session ws clientId data σ
    else if is_signal (Data.type data) then Heartbeat.signal ws clientId data σ
    else if String.eqb (Data.type data) "toggle-control"
    then Heartbeat.toggle_control ws clientId data σ
    else (σ, []).
Proof.
  unfold Heartbeat.dispatch.
  by destruct (String.eqb (Data.type data) "reconnect-session").
Qed.

(** X20. The restore variant refuses a ['restore-session'] for the host role
    while the host is registered: the one message sent is the error
    [no-session-to-restore] to the sender, the host slot keeps its
    identifier, and the state changes only in that the timer stored under
    the code, if any, is cancelled. *)
Lemma restore_session_keeps_live_host σ ws w data x s session hostWs :
  socket_heap σ !! ws = Some w →
  Data.type data = "restore-session" →
  Data.role data = Some "host" →
  session_at σ (key_of_undefined (Data.sessionCode data)) = Some (s, session) →
  JsObj.get (clients σ) (Session.hostId session) = Some hostWs →
  let sessionCode := key_of_undefined (Data.sessionCode data) in
  Restore.on_message ws (Some data) x σ
  = (clearTimeout (JsObj.get (disconnectTimers σ) sessionCode) σ,
     [(ws, error "no-session-to-restore")])
  ∧ hostId_at (Restore.on_message ws (Some data) x σ).1 sessionCode
    = Some (Session.hostId session).
Proof.
  intros Hw Htype Hrole Hat Hhost. simpl.
  simpl_type Hw. simpl_type Htype.
  unfold Restore.restore_session. rewrite Hat, Hrole.
  assert (∀ h, clients (clearTimeout h σ) = clients σ) as -> by (by intros []).
  rewrite Hhost. simpl. split; [done|].
  unfold hostId_at.
  assert (∀ h code, session_at (clearTimeout h σ) code = session_at σ code) as ->
    by (by intros []).
  by rewrite Hat.
Qed.

(** ** Closing a client connection *)

(** C1, as stated, fails on the grace-timer variant: when the client [c]
    closes its connection the session keeps its control flag on (and keeps
    [c] in its client slot); only the registry entry goes and a timer is
    armed. *)
Lemma client_close_grace_keeps_control :
  session_at (Grace.on_close 1 (Sample.paired true)).1 "482193"
  = Some (0, Sample.session_S1 (Some "c") true)
  ∧ timer_heap (Grace.on_close 1 (Sample.paired true)).1
    = [Timer.mk (client_grace "482193" "c" 0) true]
  ∧ ¬ client_close_spec Grace.on_close.
Proof.
  split; [reflexivity|]. split; [reflexivity|].
  intros H.
  destruct (H (Sample.paired true) 1 (Socket.mk "c" (Some "S1") None) "482193"
              0 (Sample.session_S1 (Some "c") true) eq_refl eq_refl eq_refl)
    as [(session' & Hat & Hoff) _].
  vm_compute in Hat. injection Hat as <-. discriminate Hoff.
Qed.

Section ClientClose.
Context (σ : State) (ws : wref) (w : Socket.t) (code : Code) (s : sref)
        (session : Session.t).
Hypothesis Hws : socket_heap σ !! ws = Some w.
Hypothesis Hbound : truthy (Socket._sessionId w) = true.
Hypothesis Hfirst : first_with_id σ (Socket._sessionId w) = Some (code, s, session).
Hypothesis Hnot_host : Session.hostId session ≠ Socket._clientId w.
Hypothesis Hclient : Session.clientId session = Some (Socket._clientId w).

Lemma heartbeat_close_client :
  Heartbeat.on_close ws σ
  = (upd_session s (Session.set_controlEnabled false)
       (upd_session s (Session.set_clientOffline true)
          (set_clients (JsObj.delete (Socket._clientId w)) σ)),
     match JsObj.get (JsObj.delete (Socket._clientId w) (clients σ))
                     (Session.hostId session) with
     | Some hostWs => [(hostWs, client_offline)]
     | None => []
     end).
Proof.
  unfold Heartbeat.on_close. rewrite Hws, Hbound.
  change (first_with_id (set_clients _ σ) ?i) with (first_with_id σ i).
  rewrite Hfirst, Hclient. simpl. rewrite String.eqb_refl.
  apply String.eqb_neq in Hnot_host. by rewrite Hnot_host.
Qed.

Lemma mvp_close_client :
  Mvp.on_close ws σ
  = (upd_session s client_slot_cleared
       (set_clients (JsObj.delete (Socket._clientId w)) σ),
     match JsObj.get (JsObj.delete (Socket._clientId w) (clients σ))
                     (Session.hostId session) with
     | Some hostWs => [(hostWs, client_disconnected)]
     | None => []
     end).
Proof.
  unfold Mvp.on_close. rewrite Hws, Hbound.
  change (first_with_id (set_clients _ σ) ?i) with (first_with_id σ i).
  rewrite Hfirst, Hclient. simpl. rewrite String.eqb_refl.
  apply String.eqb_neq in Hnot_host. by rewrite Hnot_host.
Qed.

Lemma grace_close_client :
  Grace.on_close ws σ
  = (set_disconnectTimers (JsObj.set code (length (timer_heap σ)))
       (setTimeout (client_grace code (Socket._clientId w) s)
                   (set_clients (JsObj.delete (Socket._clientId w)) σ)).2,
     []).
Proof.
  unfold Grace.on_close. rewrite Hws, Hbound.
  change (first_with_id (set_clients _ σ) ?i) with (first_with_id σ i).
  rewrite Hfirst, Hclient. simpl. rewrite String.eqb_refl.
  apply String.eqb_neq in Hnot_host. by rewrite Hnot_host.
Qed.

End ClientClose.

(** C1, amended. Let a connection close whose socket is bound to the id of
    a session of which it is the client and not the host. In the heartbeat
    and mvp variants the close handler itself sets [controlEnabled] to
    false, and a second run of the handler leaves the state as it is. In
    the grace-timer and restore variants the handler leaves the session as
    it is and arms a timer; [controlEnabled] (and the client slot) is reset
    when that timer runs, and a second run of the handler touches neither
    the sessions nor the registry. *)
Theorem client_close_behaviour σ ws w code s session :
  socket_heap σ !! ws = Some w →
  truthy (Socket._sessionId w) = true →
  first_with_id σ (Socket._sessionId w) = Some (code, s, session) →
  Session.hostId session ≠ Socket._clientId w →
  Session.clientId session = Some (Socket._clientId w) →
  (let σ' := (Heartbeat.on_close ws σ).1 in
   session_heap σ' !! s
   = Some (Session.set_controlEnabled false (Session.set_clientOffline true session))
   ∧ sessions σ' = sessions σ
   ∧ (Heartbeat.on_close ws σ').1 = σ')
  ∧ (let σ' := (Mvp.on_close ws σ).1 in
     session_heap σ' !! s = Some (client_slot_cleared session)
     ∧ sessions σ' = sessions σ
     ∧ (Mvp.on_close ws σ').1 = σ')
  ∧ (let σ' := (Grace.on_close ws σ).1 in
     let h := length (timer_heap σ) in
     Restore.on_close ws σ = Grace.on_close ws σ
     ∧ session_heap σ' = session_heap σ
     ∧ sessions σ' = sessions σ
     ∧ timer_heap σ' !! h
       = Some (Timer.mk (client_grace code (Socket._clientId w) s) true)
     ∧ (JsObj.get (sessions σ) code = Some s →
        session_heap (Grace.on_timeout h σ').1 !! s
        = Some (client_slot_cleared session))
     ∧ (let σ'' := (Grace.on_close ws σ').1 in
        session_heap σ'' = session_heap σ' ∧ sessions σ'' = sessions σ'
        ∧ clients σ'' = clients σ' ∧ socket_heap σ'' = socket_heap σ')).
Proof.
  intros Hws Hbound Hfirst Hnot_host Hclient.
  pose proof (first_with_id_lookup _ _ _ _ _ Hfirst) as Hs.
  split; [|split].
  - rewrite (heartbeat_close_client σ ws w code s session) by done. simpl.
    split; [by rewrite !list_lookup_alter_eq, Hs|]. split; [done|].
    rewrite (heartbeat_close_client _ ws w code s
               (Session.set_controlEnabled false
                  (Session.set_clientOffline true session))); try done.
    + unfold upd_session, set_clients. simpl. f_equal.
      * apply delete_delete.
      * rewrite !list_alter_alter_eq. apply list_alter_ext; [|done].
        by intros [] _.
    + rewrite !first_with_id_upd_session by done.
      change (first_with_id (set_clients _ σ) ?i) with (first_with_id σ i).
      rewrite Hfirst. simpl. by repeat case_decide.
  - rewrite (mvp_close_client σ ws w code s session) by done. simpl.
    split; [by rewrite list_lookup_alter_eq, Hs|]. split; [done|].
    unfold Mvp.on_close.
    change (socket_heap (upd_session _ _ (set_clients _ σ))) with (socket_heap σ).
    rewrite Hws, Hbound.
    change (first_with_id (set_clients _ (upd_session ?a ?b (set_clients _ σ))) ?i)
      with (first_with_id (upd_session a b σ) i).
    rewrite first_with_id_upd_session by done.
    rewrite Hfirst. simpl. case_decide; [|done]. simpl.
    apply String.eqb_neq in Hnot_host. rewrite Hnot_host. simpl.
    unfold upd_session, set_clients. simpl. f_equal. apply delete_delete.
  - simpl. split; [reflexivity|].
    rewrite (grace_close_client σ ws w code s session) by done. simpl.
    split; [done|]. split; [done|]. split; [|split].
    + rewrite lookup_app_r by lia. by rewrite Nat.sub_diag.
    + intros Hget. unfold Grace.on_timeout. simpl.
      rewrite lookup_app_r by lia. rewrite Nat.sub_diag. simpl.
      unfold Grace.names_client, session_at. simpl. rewrite Hget. simpl. rewrite Hs. simpl.
      rewrite Hclient. simpl. rewrite String.eqb_refl. simpl.
      by rewrite list_lookup_alter_eq, Hs.
    + unfold Grace.on_close. simpl. rewrite Hws, Hbound.
      change (first_with_id (set_clients _ ?x) ?i) with (first_with_id σ i).
      rewrite Hfirst, Hclient. simpl. rewrite String.eqb_refl.
      apply String.eqb_neq in Hnot_host. rewrite Hnot_host. simpl.
      repeat split. apply delete_delete.
Qed.

Lemma client_close_behaviour_witness :
  session_heap (Heartbeat.on_close 1 (Sample.paired true)).1 !! 0
  = Some (Session.mk "S1" "h" (Some "c") 0 false false true)
  ∧ session_heap (Mvp.on_close 1 (Sample.paired true)).1 !! 0
    = Some (Sample.session_S1 None false)
  ∧ session_heap (Grace.on_close 1 (Sample.paired true)).1
    = [Sample.session_S1 (Some "c") true].
Proof.
  assert ("h" ≠ "c") as Hne by discriminate.
  destruct (client_close_behaviour
              (Sample.paired true) 1 (Socket.mk "c" (Some "S1") None) "482193" 0
              (Sample.session_S1 (Some "c") true)
              eq_refl eq_refl eq_refl Hne eq_refl)
    as ((HH & _) & (HM & _) & (_ & HG & _)).
  split; [exact HH|]. split; [exact HM|exact HG].
Defined.

(** ** Grace-period timers and the session objects they captured *)

Lemma in_keys_get {A} (o : JsObj.t A) k : k ∈ JsObj.keys o ↔ is_Some (JsObj.get o k).
Proof.
  unfold JsObj.keys. induction o as [|[k' v] o IH]; simpl.
  - split; [by intros ?%elem_of_nil|by intros [? ?]].
  - rewrite elem_of_cons, IH. destruct (String.eqb k k') eqn:E.
    + apply String.eqb_eq in E. split; eauto.
    + apply String.eqb_neq in E. split; [intros [?|?]; done|auto].
Qed.

Lemma keys_replace {A} k (v : A) o : JsObj.keys (JsObj.replace k v o) = JsObj.keys o.
Proof.
  unfold JsObj.keys. induction o as [|[k' v'] o IH]; simpl; [done|].
  destruct (String.eqb k k') eqn:E; simpl; [|by rewrite IH].
  by apply String.eqb_eq in E as ->.
Qed.

Lemma keys_insert_index {A} n k (v : A) o :
  JsObj.keys (JsObj.insert_index n k v o) ≡ₚ k :: JsObj.keys o.
Proof.
  unfold JsObj.keys. induction o as [|[k' v'] o IH]; simpl; [done|].
  destruct (JsObj.array_index k') as [n'|]; [destruct (n <? n')%N|]; simpl; try done.
  rewrite IH. apply Permutation_swap.
Qed.

Lemma keys_set_nodup {A} k (v : A) o :
  NoDup (JsObj.keys o) → NoDup (JsObj.keys (JsObj.set k v o)).
Proof.
  intros Hnd. unfold JsObj.set. destruct (JsObj.get o k) eqn:E.
  - by rewrite keys_replace.
  - assert (k ∉ JsObj.keys o) as Hk.
    { rewrite in_keys_get, E. by intros [? ?]. }
    destruct (JsObj.array_index k).
    + rewrite keys_insert_index. by constructor.
    + unfold JsObj.keys. rewrite map_app. simpl.
      rewrite Permutation_app_comm. simpl. by constructor.
Qed.

Lemma keys_delete_sub {A} k (o : JsObj.t A) k' :
  k' ∈ JsObj.keys (JsObj.delete k o) → k' ∈ JsObj.keys o.
Proof.
  rewrite !in_keys_get. destruct (decide (k = k')) as [->|Hne].
  - rewrite get_delete_eq. by intros [? ?].
  - by rewrite get_delete_ne.
Qed.

Lemma keys_delete_nodup {A} k (o : JsObj.t A) :
  NoDup (JsObj.keys o) → NoDup (JsObj.keys (JsObj.delete k o)).
Proof.
  unfold JsObj.keys.
  induction o as [|[k' v'] o IH]; simpl; [done|].
  intros [Hk Hnd]%NoDup_cons. destruct (String.eqb k k'); [by apply IH|].
  simpl. constructor; [|by apply IH].
  intros Hin. apply Hk. by apply (keys_delete_sub k).
Qed.

(** A write to a session object that puts no closed connection into a
    slot. *)
Lemma sound_upd_session σ s f :
  (∀ cb current, pending_cb σ cb → names_slot cb (f current) → names_slot cb current) →
  timers_sound σ → timers_sound (upd_session s f σ).
Proof.
  intros Hf [H1 H2 H3 H4]. split; simpl.
  - done.
  - intros code r Hget. rewrite length_alter. eauto.
  - done.
  - intros h cb r current' Hh [current [Hat ->]]%session_at_upd_session_inv Hslot.
    apply (H4 h cb r current Hh Hat).
    destruct (decide (r = s)); [|done]. apply Hf; [|done]. by exists h.
Qed.

Lemma sound_upd_socket σ ws f :
  (∀ w, Socket._clientId (f w) = Socket._clientId w) →
  timers_sound σ → timers_sound (upd_socket ws f σ).
Proof.
  intros Hf [H1 H2 H3 H4]. split; simpl; try done.
  intros h cb Hh. destruct (H3 h cb Hh) as [Hc (w & Hw & Hid)].
  split; [done|].
  apply list_elem_of_lookup in Hw as [i Hi].
  destruct (decide (ws = i)) as [->|Hne].
  - exists (f w). split; [|by rewrite Hf].
    apply list_elem_of_lookup. exists i. by rewrite list_lookup_alter_eq, Hi.
  - exists w. split; [|done].
    apply list_elem_of_lookup. exists i. by rewrite list_lookup_alter_ne.
Qed.

Lemma sound_delete_session σ code :
  timers_sound σ → timers_sound (set_sessions (JsObj.delete code) σ).
Proof.
  intros [H1 H2 H3 H4]. split; simpl; try done.
  - by apply keys_delete_nodup.
  - intros code' r Hget. apply (H2 code').
    destruct (decide (code = code')) as [->|Hne].
    + by rewrite get_delete_eq in Hget.
    + by rewrite get_delete_ne in Hget.
  - intros h cb r current Hh [Hget Hr]%session_at_inv Hslot. simpl in *.
    apply (H4 h cb r current Hh); [|done]. apply session_at_intro; [|done].
    destruct (decide (code = cb_code cb)) as [->|Hne].
    + by rewrite get_delete_eq in Hget.
    + by rewrite get_delete_ne in Hget.
Qed.

Lemma sound_delete_client σ c :
  timers_sound σ → timers_sound (set_clients (JsObj.delete c) σ).
Proof.
  intros [H1 H2 H3 H4]. split; simpl; try done.
  intros h cb Hh. destruct (H3 h cb Hh) as [Hc Hw]. split; [|done].
  destruct (decide (c = cb_conn cb)) as [->|Hne].
  - apply get_delete_eq.
  - by rewrite get_delete_ne.
Qed.

Lemma sound_set_disconnectTimers σ f :
  timers_sound σ → timers_sound (set_disconnectTimers f σ).
Proof. by intros [H1 H2 H3 H4]. Qed.

Lemma sound_upd_timer_done σ h :
  timers_sound σ → timers_sound (timer_done h σ).
Proof.
  assert (∀ h' cb, timer_heap (timer_done h σ) !! h' = Some (Timer.mk cb true) →
                   timer_heap σ !! h' = Some (Timer.mk cb true)) as Hsub.
  { intros h' cb. simpl. rewrite list_lookup_alter.
    destruct (decide (h = h')) as [->|]; [|done].
    destruct (timer_heap σ !! h') as [[cb' p]|]; simpl; [|done]. done. }
  intros [H1 H2 H3 H4]. split; simpl; try done.
  - intros h' cb Hh. apply (H3 h' cb). by apply Hsub.
  - intros h' cb r current Hh. apply (H4 h' cb r current). by apply Hsub.
Qed.

Lemma sound_clearTimeout σ h :
  timers_sound σ → timers_sound (clearTimeout h σ).
Proof. destruct h as [h|]; [apply sound_upd_timer_done|done]. Qed.

(** The timers and the session store are apart from what is written on
    [Object.prototype]. *)
Lemma sound_upd_intrinsic σ k f :
  timers_sound σ → timers_sound (upd_intrinsic k f σ).
Proof. by intros [H1 H2 H3 H4]. Qed.

Lemma sound_write_hostId σ v c :
  timers_sound σ → timers_sound (write_hostId v c σ).
Proof. destruct v; [apply sound_upd_intrinsic|done]. Qed.

Lemma sound_write_clientId σ v c :
  timers_sound σ → timers_sound (write_clientId v c σ).
Proof. destruct v; [apply sound_upd_intrinsic|done]. Qed.

Lemma sound_new_session σ code v :
  (∀ cb, pending_cb σ cb → ¬ names_slot cb v) →
  timers_sound σ →
  timers_sound (set_sessions (JsObj.set code (length (session_heap σ)))
                             (new_session v σ).2).
Proof.
  intros Hv [H1 H2 H3 H4]. split; simpl.
  - by apply keys_set_nodup.
  - intros code' r. rewrite length_app. simpl.
    destruct (decide (code = code')) as [->|Hne].
    + rewrite get_set_eq. intros [= <-]. lia.
    + rewrite get_set_ne by done. intros ?%H2. lia.
  - done.
  - intros h cb r current Hh [Hget Hr]%session_at_inv Hslot. simpl in *.
    destruct (decide (code = cb_code cb)) as [->|Hne].
    + rewrite get_set_eq in Hget. injection Hget as <-.
      rewrite lookup_app_r, Nat.sub_diag in Hr by lia. injection Hr as <-.
      destruct (Hv cb); [by exists h|done].
    + rewrite get_set_ne in Hget by done.
      pose proof (H2 _ _ Hget) as Hlt. rewrite lookup_app_l in Hr by done.
      apply (H4 h cb r current Hh); [|done]. by apply session_at_intro.
Qed.

Lemma sound_new_socket σ w :
  (∀ w', w' ∈ socket_heap σ → Socket._clientId w' ≠ Socket._clientId w) →
  timers_sound σ →
  timers_sound (set_clients (JsObj.set (Socket._clientId w) (length (socket_heap σ)))
                            (new_socket w σ).2).
Proof.
  intros Hfresh [H1 H2 H3 H4]. split; simpl; try done.
  intros h cb Hh. destruct (H3 h cb Hh) as [Hc (w' & Hw' & Hid)]. split.
  - rewrite get_set_ne; [done|]. rewrite <- Hid. intros Heq.
    by apply (Hfresh w').
  - exists w'. split; [|done]. apply elem_of_app. by left.
Qed.

Lemma sound_setTimeout σ cb :
  JsObj.get (clients σ) (cb_conn cb) = None →
  (∃ w, w ∈ socket_heap σ ∧ Socket._clientId w = cb_conn cb) →
  (∀ r current, session_at σ (cb_code cb) = Some (r, current) →
                names_slot cb current → r = cb_session cb) →
  timers_sound σ → timers_sound (setTimeout cb σ).2.
Proof.
  intros Hc Hw Hcap [H1 H2 H3 H4].
  assert (∀ h cb', (timer_heap σ ++ [Timer.mk cb true]) !! h = Some (Timer.mk cb' true) →
                   cb' = cb ∨ timer_heap σ !! h = Some (Timer.mk cb' true)) as Hcases.
  { intros h cb' [Hh|[_ Hh]]%lookup_app_Some; [by right|].
    destruct (h - length (timer_heap σ)) as [|n]; simpl in Hh; [|done].
    left. congruence. }
  split; simpl; try done.
  - intros h cb' [->|Hh]%Hcases; [done|by apply (H3 h)].
  - intros h cb' r current [->|Hh]%Hcases; [apply Hcap|by apply (H4 h)].
Qed.

Lemma get_of_elem {A} (o : JsObj.t A) k v :
  NoDup (JsObj.keys o) → (k, v) ∈ o → JsObj.get o k = Some v.
Proof.
  unfold JsObj.keys. induction o as [|[k' v'] o IH]; simpl.
  - by intros _ ?%elem_of_nil.
  - intros [Hk Hnd]%NoDup_cons [[= -> ->]|Hin]%elem_of_cons.
    + by rewrite String.eqb_refl.
    + destruct (String.eqb k k') eqn:E; [|by apply IH].
      apply String.eqb_eq in E as ->. destruct Hk.
      apply list_elem_of_fmap. by exists (k', v).
Qed.

(** An open connection is not the one a pending timer waits for. *)
Lemma open_not_awaited σ ws w cb :
  timers_sound σ →
  socket_heap σ !! ws = Some w →
  JsObj.get (clients σ) (Socket._clientId w) = Some ws →
  pending_cb σ cb →
  Socket._clientId w ≠ cb_conn cb.
Proof.
  intros Hs Hw Hopen [h Hh] Heq.
  destruct (timer_conn_closed σ Hs h cb Hh) as [Hc _]. congruence.
Qed.

Section OpenConnection.
Context (σ : State) (ws : wref) (w : Socket.t).
Hypothesis Hsound : timers_sound σ.
Hypothesis Hws : socket_heap σ !! ws = Some w.
Hypothesis Hopen : JsObj.get (clients σ) (Socket._clientId w) = Some ws.

Lemma write_host_slot cb current :
  pending_cb σ cb →
  names_slot cb (Session.set_hostId (Socket._clientId w) current) →
  names_slot cb current.
Proof.
  intros Hcb. pose proof (open_not_awaited σ ws w cb Hsound Hws Hopen Hcb) as Hne.
  by destruct cb.
Qed.

Lemma write_client_slot cb current :
  pending_cb σ cb →
  names_slot cb (Session.set_clientId (Some (Socket._clientId w)) current) →
  names_slot cb current.
Proof.
  intros Hcb. pose proof (open_not_awaited σ ws w cb Hsound Hws Hopen Hcb) as Hne.
  destruct cb; simpl; [done|]. intros [= ?]. done.
Qed.

Lemma sound_create_session x :
  timers_sound (create_session ws (Socket._clientId w) x σ).1.
Proof.
  unfold create_session. simpl.
  apply sound_upd_socket; [done|].
  apply (sound_new_session σ); [|done].
  intros cb Hcb. pose proof (open_not_awaited σ ws w cb Hsound Hws Hopen Hcb) as Hne.
  by destruct cb.
Qed.

Lemma sound_join_session data :
  timers_sound (Grace.join_session ws (Socket._clientId w) data σ).1.
Proof.
  unfold Grace.join_session.
  destruct (session_at σ _) as [[s session]|]; last first.
  { destruct (inherited σ _) as [v|]; [|done]. unfold join_inherited.
    destruct (JsObj.get (clients σ) (key_of_undefined _));
      [|by apply sound_delete_session].
    destruct (live_ws σ _); [done|]. simpl.
    apply sound_upd_socket; [done|]. by apply sound_write_clientId. }
  destruct (JsObj.get (clients σ) (Session.hostId session)).
  - destruct (live_ws σ _); [done|]. simpl.
    apply sound_upd_socket; [done|].
    apply sound_upd_session; [|done]. intros cb current. apply write_client_slot.
  - by apply sound_delete_session.
Qed.

Lemma sound_toggle_control data :
  timers_sound (toggle_control ws (Socket._clientId w) data σ).1.
Proof.
  unfold toggle_control.
  destruct (find_session σ _) as [[s session]|]; [|done].
  destruct (negb _); [done|]. simpl.
  apply sound_upd_session; [|done]. by intros [] ?.
Qed.

Lemma sound_signal data :
  timers_sound (Grace.signal ws (Socket._clientId w) data σ).1.
Proof.
  unfold Grace.signal.
  destruct (find_session σ _) as [[s session]|]; [|done].
  by destruct (client_ws σ _).
Qed.

Lemma sound_control_event data :
  timers_sound (Grace.control_event_msg ws (Socket._clientId w) data σ).1.
Proof.
  unfold Grace.control_event_msg.
  destruct (find_session σ _) as [[s session]|]; [|done].
  destruct (negb _); [done|]. destruct (negb _); [done|].
  by destruct (client_ws σ _).
Qed.

Lemma sound_dispatch data x :
  timers_sound (Grace.dispatch ws (Socket._clientId w) data x σ).1.
Proof.
  unfold Grace.dispatch.
  destruct (String.eqb _ "create-session"); [apply sound_create_session|].
  destruct (String.eqb _ "join-session"); [apply sound_join_session|].
  destruct (is_signal _); [apply sound_signal|].
  destruct (String.eqb _ "toggle-control"); [apply sound_toggle_control|].
  destruct (String.eqb _ "control-event"); [apply sound_control_event|].
  done.
Qed.

Lemma sound_restore_session data :
  timers_sound (Restore.restore_session ws (Socket._clientId w) data σ).1.
Proof.
  unfold Restore.restore_session.
  destruct (session_at σ _) as [[s session]|]; last first.
  { destruct (inherited σ _) as [v|]; [|done]. unfold Restore.restore_inherited.
    set (σ1 := clearTimeout _ σ).
    assert (timers_sound σ1) as Hsound1 by by apply sound_clearTimeout.
    destruct (_ && _).
    { simpl. apply sound_upd_socket; [done|]. by apply sound_write_hostId. }
    destruct (_ && _); [|done].
    simpl. apply sound_upd_socket; [done|]. by apply sound_write_clientId. }
  set (σ1 := clearTimeout _ σ).
  assert (timers_sound σ1) as Hsound1 by by apply sound_clearTimeout.
  assert (∀ cb, pending_cb σ1 cb → pending_cb σ cb) as Hsub.
  { intros cb [h Hh]. exists h. revert Hh. unfold σ1.
    destruct (JsObj.get (disconnectTimers σ) _) as [h0|]; [|done]. simpl.
    rewrite list_lookup_alter. destruct (decide (h0 = h)) as [->|]; [|done].
    by destruct (timer_heap σ !! h) as [[cb' p]|]. }
  destruct (_ && _).
  { simpl. apply sound_upd_socket; [done|].
    apply sound_upd_session; [|done].
    intros cb current Hcb. apply write_host_slot. by apply Hsub. }
  destruct (_ && _); [|done].
  simpl. apply sound_upd_socket; [done|].
  apply sound_upd_session; [|done].
  intros cb current Hcb. apply write_client_slot. by apply Hsub.
Qed.

Lemma sound_on_message_grace msg x : timers_sound (Grace.on_message ws msg x σ).1.
Proof.
  unfold Grace.on_message. rewrite Hws.
  destruct msg as [data|]; [apply sound_dispatch|done].
Qed.

Lemma sound_on_message_restore msg x : timers_sound (Restore.on_message ws msg x σ).1.
Proof.
  unfold Restore.on_message, Restore.dispatch. rewrite Hws.
  destruct msg as [data|]; [|done].
  destruct (String.eqb _ _); [apply sound_restore_session|apply sound_dispatch].
Qed.

Lemma sound_on_close : timers_sound (Grace.on_close ws σ).1.
Proof.
  unfold Grace.on_close. rewrite Hws.
  set (σ1 := set_clients _ σ).
  assert (timers_sound σ1) as Hsound1 by by apply sound_delete_client.
  destruct (truthy _); [|done].
  destruct (first_with_id σ1 _) as [[[code s] session]|] eqn:Hfirst; [|done].
  assert (JsObj.get (sessions σ) code = Some s) as Hget.
  { apply get_of_elem; [apply Hsound|].
    by apply (first_with_id_elem σ1 (Socket._sessionId w) code s session). }
  assert (∀ cb, cb_code cb = code → cb_conn cb = Socket._clientId w → cb_session cb = s →
                timers_sound (set_disconnectTimers
                                (JsObj.set code (length (timer_heap σ1)))
                                (setTimeout cb σ1).2)) as Harm.
  { intros cb Hcode Hconn Hsess. apply sound_set_disconnectTimers.
    apply sound_setTimeout; [| | |done].
    - rewrite Hconn. apply get_delete_eq.
    - exists w. split; [|done]. apply list_elem_of_lookup. by exists ws.
    - intros r current [Hr _]%session_at_inv _. rewrite Hcode in Hr.
      simpl in Hr. congruence. }
  destruct (String.eqb (Session.hostId session) _); [by apply Harm|].
  destruct (strict_eq _ _); [by apply Harm|done].
Qed.

End OpenConnection.

Lemma sound_on_connection σ x :
  (∀ w, w ∈ socket_heap σ → Socket._clientId w ≠ External.uuid x) →
  timers_sound σ → timers_sound (on_connection x σ).1.
Proof.
  intros Hfresh Hsound. unfold on_connection. simpl.
  by apply (sound_new_socket σ (Socket.mk (External.uuid x) None None)).
Qed.

Lemma sound_on_timeout σ h : timers_sound σ → timers_sound (Grace.on_timeout h σ).1.
Proof.
  intros Hsound. unfold Grace.on_timeout.
  destruct (timer_heap σ !! h) as [[cb p]|]; [|done]. simpl.
  destruct p; [|done]. fold (timer_done h σ).
  pose proof (sound_upd_timer_done σ h Hsound) as Hsound1.
  destruct cb as [code c s|code c s]; simpl.
  - destruct (Grace.names_host _ code c); [|done].
    simpl. by apply sound_delete_session.
  - destruct (Grace.names_client _ code c); [|done]. simpl.
    apply sound_upd_session; [|done]. by intros [] ?.
Qed.

Lemma sound_initial : timers_sound initial.
Proof.
  split; simpl; try done.
  - constructor.
Qed.

(** In every reachable state of the grace-timer and of the restore variant,
    a pending timer whose guard holds captured the session object that is
    stored under its code. *)
Theorem reachable_timers_sound σ :
  reachable Grace.step σ ∨ reachable Restore.step σ → timers_sound σ.
Proof.
  intros [H|H]; induction H as [|σ e _ IH He]; try apply sound_initial.
  - destruct e as [x|ws msg x|ws|ws|h]; simpl in *.
    + by apply sound_on_connection.
    + destruct He as (w & Hw & Ho). by apply (sound_on_message_grace σ ws w).
    + done.
    + destruct He as (w & Hw & Ho). by apply (sound_on_close σ ws w).
    + by apply sound_on_timeout.
  - destruct e as [x|ws msg x|ws|ws|h]; simpl in *.
    + by apply sound_on_connection.
    + destruct He as (w & Hw & Ho). by apply (sound_on_message_restore σ ws w).
    + done.
    + destruct He as (w & Hw & Ho). by apply (sound_on_close σ ws w).
    + by apply sound_on_timeout.
Qed.

Lemma plain_keys_delete {A} (P : string → Prop) k (o : JsObj.t A) :
  Forall P (JsObj.keys o) → Forall P (JsObj.keys (JsObj.delete k o)).
Proof.
  rewrite !Forall_forall. intros H k' Hin. apply H. by apply (keys_delete_sub k).
Qed.

Lemma plain_keys_set {A} (P : string → Prop) k (v : A) o :
  P k → Forall P (JsObj.keys o) → Forall P (JsObj.keys (JsObj.set k v o)).
Proof.
  rewrite !Forall_forall. intros Hk H k' Hin.
  destruct (decide (k = k')) as [<-|Hne]; [done|].
  apply H. apply in_keys_get. apply in_keys_get in Hin.
  by rewrite get_set_ne in Hin.
Qed.

Lemma plain_timers_done (Q : Timer.t → Prop) h l :
  (∀ t, Q t → Q (Timer.mk (Timer.callback t) false)) →
  Forall Q l → Forall Q (alter (λ t, Timer.mk (Timer.callback t) false) h l).
Proof.
  intros HQ Hl. apply Forall_alter; [done|]. intros t _. apply HQ.
Qed.

Ltac plain_codes_solve Hk Ht :=
  split; simpl;
  [ repeat first [ exact Hk
                 | apply plain_keys_delete
                 | apply plain_keys_set; [apply code_of_draw_not_inheritable|] ]
  | repeat first [ exact Ht
                 | apply plain_timers_done; [by intros []|] ] ].

Lemma plain_codes_dispatch ws c data x σ :
  plain_codes σ → plain_codes (Restore.dispatch ws c data x σ).1
                  ∧ plain_codes (Grace.dispatch ws c data x σ).1.
Proof.
  intros [Hk Ht].
  unfold Restore.dispatch, Restore.restore_session, Restore.restore_inherited,
    Grace.dispatch, create_session, Grace.join_session, join_inherited,
    Grace.signal, toggle_control, Grace.control_event_msg,
    write_hostId, write_clientId, clearTimeout.
  split; split_handler; plain_codes_solve Hk Ht.
Qed.

Lemma plain_codes_on_close ws σ : plain_codes σ → plain_codes (Grace.on_close ws σ).1.
Proof.
  intros [Hk Ht]. unfold Grace.on_close.
  destruct (socket_heap σ !! ws) as [w|]; [|done].
  destruct (truthy _); [|done].
  destruct (first_with_id _ _) as [[[code s] session]|] eqn:Hfirst; [|done].
  assert (inheritable code = false) as Hcode.
  { apply (proj1 (Forall_forall _ _) Hk).
    apply first_with_id_elem in Hfirst.
    apply list_elem_of_fmap. by exists (code, s). }
  destruct (String.eqb _ _); [|destruct (strict_eq _ _); [|done]];
    (split; simpl; [exact Hk|]);
    (apply Forall_app; split; [exact Ht|by repeat constructor]).
Qed.

Lemma plain_codes_on_timeout h σ :
  plain_codes σ → plain_codes (Grace.on_timeout h σ).1.
Proof.
  intros [Hk Ht]. unfold Grace.on_timeout, Grace.run_callback.
  split_handler; plain_codes_solve Hk Ht.
Qed.

(** In every reachable state of the two variants with timers, the codes in
    the store and in the closures are numerals. *)
Lemma reachable_plain_codes σ :
  reachable Grace.step σ ∨ reachable Restore.step σ → plain_codes σ.
Proof.
  assert (plain_codes initial) as Hinitial by (split; constructor).
  intros [H|H]; induction H as [|σ e _ IH He]; try done;
    destruct e as [x|ws msg x|ws|ws|h]; simpl.
  all: try done.
  all: try (by apply plain_codes_on_close).
  all: try (by apply plain_codes_on_timeout).
  - unfold Grace.on_message.
    destruct (socket_heap σ !! ws); [|done]. destruct msg; [|done].
    by apply plain_codes_dispatch.
  - unfold Restore.on_message.
    destruct (socket_heap σ !! ws); [|done]. destruct msg; [|done].
    by apply plain_codes_dispatch.
Qed.

(** C3. A pending grace timer of the grace-timer and restore variants acts
    only if its guard holds: [sessions] has a session under the timer's code
    whose slot of the timer's role names the connection that armed it.
    Otherwise the timer changes nothing and sends nothing. When it acts for
    the host role, the entry is deleted from the store and the client of the
    captured session object, if it is registered, gets
    [host-disconnected]; nothing else is sent. When it acts for the client
    role, the store keeps all its entries, the captured session object gets
    its client slot cleared and its control flag forced to false, and the
    host of that object, if it is registered, gets [client-disconnected]. In
    every reachable state the object the timer captured is the one stored
    under its code, and the code is a numeral, for which [sessions] inherits
    nothing: the guard is then a test on the session of the store alone. In
    other states a deleted entry lets the guard read the value that
    [Object.prototype] has under the code. *)
Theorem grace_timer_fires σ h cb :
  timer_heap σ !! h = Some (Timer.mk cb true) →
  let result := Grace.on_timeout h σ in
  let code := cb_code cb in
  let c := cb_conn cb in
  let s := cb_session cb in
  Restore.on_timeout h σ = result
  ∧ ((∀ r current, session_at σ code = Some (r, current) → ¬ names_slot cb current) →
     (session_at σ code = None → inherited σ code = None) →
     result = (timer_done h σ, []))
  ∧ (reachable Grace.step σ ∨ reachable Restore.step σ →
     inherited σ code = None
     ∧ ∀ r current, session_at σ code = Some (r, current) →
                    names_slot cb current → r = s)
  ∧ ∀ r current,
      session_at σ code = Some (r, current) →
      names_slot cb current →
      match cb with
      | host_grace _ _ _ =>
          result.1 = set_sessions (JsObj.delete code) (timer_done h σ)
          ∧ session_at result.1 code = None
          ∧ (session_heap σ !! s = None → result.2 = [])
          ∧ ∀ sv, session_heap σ !! s = Some sv →
                  (∀ p clientWs,
                     Session.clientId sv = Some p → p ≠ "" →
                     JsObj.get (clients σ) p = Some clientWs →
                     result.2 = [(clientWs, host_disconnected)])
                  ∧ (not_live σ (Session.clientId sv) → result.2 = [])
      | client_grace _ _ _ =>
          result.1 = upd_session s client_slot_cleared (timer_done h σ)
          ∧ sessions result.1 = sessions σ
          ∧ (r = s →
             session_at result.1 code = Some (s, client_slot_cleared current)
             ∧ Session.clientId (client_slot_cleared current) = None
             ∧ Session.controlEnabled (client_slot_cleared current) = false)
          ∧ (session_heap σ !! s = None → result.2 = [])
          ∧ ∀ sv, session_heap σ !! s = Some sv →
                  (∀ hostWs,
                     JsObj.get (clients σ) (Session.hostId sv) = Some hostWs →
                     result.2 = [(hostWs, client_disconnected)])
                  ∧ (JsObj.get (clients σ) (Session.hostId sv) = None →
                     result.2 = [])
      end.
Proof.
  intros Hh. simpl. split; [done|].
  unfold Grace.on_timeout. rewrite Hh. simpl.
  fold (timer_done h σ).
  assert (∀ code, session_at (timer_done h σ) code = session_at σ code) as Hat
    by done.
  assert (∀ code, inherited (timer_done h σ) code = inherited σ code) as Hinh
    by done.
  split; [|split].
  - intros Hguard Hnone.
    destruct cb as [code c s|code c s]; simpl in *;
      unfold Grace.names_host, Grace.names_client; rewrite Hat, Hinh;
      (destruct (session_at σ code) as [[r current]|];
       [specialize (Hguard r current eq_refl)|by rewrite Hnone]).
    + apply String.eqb_neq in Hguard. by rewrite Hguard.
    + destruct (strict_eq (Session.clientId current) c) eqn:E; [|done].
      destruct Hguard. destruct (Session.clientId current); [|done].
      simpl in E. by apply String.eqb_eq in E as ->.
  - intros Hreach. split.
    + apply inherited_inheritable.
      destruct (reachable_plain_codes σ Hreach) as [_ Htimers].
      apply (proj1 (Forall_lookup _ _) Htimers h _ Hh).
    + intros r current Hcur Hslot.
      apply reachable_timers_sound in Hreach.
      by apply (timer_captures σ Hreach h cb r current).
  - intros r current Hcur Hslot.
    destruct cb as [code c s|code c s]; simpl in *;
      unfold Grace.names_host, Grace.names_client; rewrite Hat, Hcur.
    + apply String.eqb_eq in Hslot. rewrite Hslot. simpl.
      split; [done|]. split; [|split].
      * unfold session_at. simpl. by rewrite get_delete_eq.
      * by intros ->.
      * intros sv ->.
        change (live_ws (timer_done h σ) (Session.clientId sv))
          with (live_ws σ (Session.clientId sv)).
        split.
        -- intros p clientWs Hp Hne Hget.
           assert (live σ (Session.clientId sv)) as [cws Hlive]%live_ws_live
             by (exists p, clientWs; done).
           rewrite Hlive. unfold live_ws, client_ws, truthy in Hlive.
           rewrite Hp in Hlive. simpl in Hlive.
           apply String.eqb_neq in Hne. rewrite Hne in Hlive. simpl in Hlive.
           unfold send. congruence.
        -- by intros ->%live_ws_not_live.
    + rewrite Hslot. simpl. rewrite String.eqb_refl. simpl.
      split; [done|]. split; [done|]. split; [|split].
      * intros ->.
        rewrite (session_at_upd_session (timer_done h σ) code s _ s current)
          by (by rewrite Hat).
        by rewrite decide_True.
      * rewrite list_lookup_alter_eq. by intros ->.
      * intros sv Hsv. rewrite list_lookup_alter_eq, Hsv. simpl.
        split; [by intros hostWs ->|by intros ->].
Qed.

(** The client's timer and the host's timer, each in the state its close
    left: the first clears the slot and tells the host, the second deletes
    the session and tells the client. *)
Lemma grace_timer_fires_witness :
  Grace.on_timeout 0 client_closed
  = (mkState [("482193", 0)] [("h", 0); ("z", 2)] [("482193", 0)]
             [Sample.session_S1 None false] Sample.sockets_hcz
             [Timer.mk (client_grace "482193" "c" 0) false] [],
     [(0, client_disconnected)])
  ∧ Grace.on_timeout 0 host_closed
    = (mkState [] [("c", 1); ("z", 2)] [("482193", 0)]
               [Sample.session_S1 (Some "c") true] Sample.sockets_hcz
               [Timer.mk (host_grace "482193" "h" 0) false] [],
       [(1, host_disconnected)]).
Proof.
  assert ("c" ≠ "") as Hc by discriminate.
  split; apply injective_projections.
  - destruct (grace_timer_fires client_closed 0 (client_grace "482193" "c" 0) eq_refl)
      as (_ & _ & _ & H).
    destruct (H 0 (Sample.session_S1 (Some "c") true) eq_refl eq_refl)
      as (Hstate & _).
    exact Hstate.
  - destruct (grace_timer_fires client_closed 0 (client_grace "482193" "c" 0) eq_refl)
      as (_ & _ & _ & H).
    destruct (H 0 (Sample.session_S1 (Some "c") true) eq_refl eq_refl)
      as (_ & _ & _ & _ & Hout).
    destruct (Hout (Sample.session_S1 (Some "c") true) eq_refl) as [Hsome _].
    exact (Hsome 0 eq_refl).
  - destruct (grace_timer_fires host_closed 0 (host_grace "482193" "h" 0) eq_refl)
      as (_ & _ & _ & H).
    destruct (H 0 (Sample.session_S1 (Some "c") true) eq_refl eq_refl)
      as (Hstate & _).
    exact Hstate.
  - destruct (grace_timer_fires host_closed 0 (host_grace "482193" "h" 0) eq_refl)
      as (_ & _ & _ & H).
    destruct (H 0 (Sample.session_S1 (Some "c") true) eq_refl eq_refl)
      as (_ & _ & _ & Hout).
    destruct (Hout (Sample.session_S1 (Some "c") true) eq_refl) as [Hsome _].
    exact (Hsome "c" 1 eq_refl Hc eq_refl).
Defined.

(** ** What the handlers keep and what they change *)

Lemma find_session_lookup σ sessionId s session :
  find_session σ sessionId = Some (s, session) →
  session_heap σ !! s = Some session ∧ sessionId = Some (Session.id session).
Proof.
  unfold find_session. fold (first_with_id σ sessionId).
  destruct (first_with_id σ sessionId) as [[[code r] v]|] eqn:E; [|done].
  simpl. intros [= -> ->]. split; [by eapply first_with_id_lookup|].
  unfold first_with_id in E. apply find_some in E as [_ E]. simpl in E.
  destruct sessionId as [i|]; [|done]. simpl in E.
  apply String.eqb_eq in E. by subst.
Qed.

Lemma no_enable_refl σ σ' : session_heap σ' = session_heap σ → no_enable σ σ'.
Proof. intros Heq r v v' Hv. rewrite Heq, Hv. by intros [= <-]. Qed.

Lemma no_enable_alter σ σ' s f :
  session_heap σ' = alter f s (session_heap σ) →
  (∀ v, Session.controlEnabled (f v) = true → Session.controlEnabled v = true) →
  no_enable σ σ'.
Proof.
  intros Heq Hf r v v' Hv. rewrite Heq, list_lookup_alter.
  destruct (decide (s = r)) as [->|]; rewrite Hv; simpl; intros [= <-]; auto.
Qed.

Lemma no_enable_app σ σ' l :
  session_heap σ' = session_heap σ ++ l → no_enable σ σ'.
Proof.
  intros Heq r v v' Hv. rewrite Heq, (lookup_app_l_Some _ _ _ _ Hv). by intros [= <-].
Qed.

Lemma no_enable_alter2 σ σ' s f g :
  session_heap σ' = alter f s (alter g s (session_heap σ)) →
  (∀ v, Session.controlEnabled (f (g v)) = true → Session.controlEnabled v = true) →
  no_enable σ σ'.
Proof.
  intros Heq Hf. apply (no_enable_alter σ σ' s (f ∘ g)); [|done].
  by rewrite Heq, list_alter_alter_eq.
Qed.

Ltac no_enable_step :=
  first
    [ apply no_enable_refl; reflexivity
    | eapply no_enable_app; reflexivity
    | eapply no_enable_alter; [reflexivity|intros []; simpl; done]
    | eapply no_enable_alter2; [reflexivity|intros []; simpl; done] ].

Lemma no_enable_connection x σ : no_enable σ (on_connection x σ).1.
Proof. no_enable_step. Qed.

Lemma no_enable_create ws c x σ : no_enable σ (create_session ws c x σ).1.
Proof. no_enable_step. Qed.

Lemma no_enable_create_heartbeat ws c x σ :
  no_enable σ (Heartbeat.create_session ws c x σ).1.
Proof. no_enable_step. Qed.

Lemma no_enable_join_grace ws c data σ : no_enable σ (Grace.join_session ws c data σ).1.
Proof.
  unfold Grace.join_session, join_inherited, write_clientId.
  split_handler; no_enable_step.
Qed.

Lemma no_enable_join_mvp ws c data σ : no_enable σ (Mvp.join_session ws c data σ).1.
Proof.
  unfold Mvp.join_session, join_inherited, write_clientId.
  split_handler; no_enable_step.
Qed.

Lemma no_enable_join_heartbeat ws c data σ :
  no_enable σ (Heartbeat.join_session ws c data σ).1.
Proof.
  unfold Heartbeat.join_session, Heartbeat.join_inherited, write_clientId.
  split_handler; no_enable_step.
Qed.

Lemma no_enable_signal_grace ws c data σ : no_enable σ (Grace.signal ws c data σ).1.
Proof. unfold Grace.signal. split_handler; no_enable_step. Qed.

Lemma no_enable_signal_mvp ws c data σ : no_enable σ (Mvp.signal ws c data σ).1.
Proof. unfold Mvp.signal. split_handler; no_enable_step. Qed.

Lemma no_enable_signal_heartbeat ws c data σ :
  no_enable σ (Heartbeat.signal ws c data σ).1.
Proof. unfold Heartbeat.signal. split_handler; no_enable_step. Qed.

Lemma no_enable_control_event_grace ws c data σ :
  no_enable σ (Grace.control_event_msg ws c data σ).1.
Proof. unfold Grace.control_event_msg. split_handler; no_enable_step. Qed.

Lemma no_enable_control_event_mvp ws c data σ :
  no_enable σ (Mvp.control_event_msg ws c data σ).1.
Proof. unfold Mvp.control_event_msg. split_handler; no_enable_step. Qed.

Lemma no_enable_restore ws c data σ :
  no_enable σ (Restore.restore_session ws c data σ).1.
Proof.
  unfold Restore.restore_session, Restore.restore_inherited, write_hostId,
    write_clientId.
  destruct (JsObj.get (disconnectTimers σ) _); simpl;
    split_handler; no_enable_step.
Qed.

Lemma no_enable_reconnect ws c data σ :
  no_enable σ (Heartbeat.reconnect_session ws c data σ).1.
Proof.
  unfold Heartbeat.reconnect_session, Heartbeat.reconnect_inherited,
    write_hostId, write_clientId.
  split_handler; no_enable_step.
Qed.

Lemma no_enable_close_grace ws σ : no_enable σ (Grace.on_close ws σ).1.
Proof. unfold Grace.on_close. split_handler; no_enable_step. Qed.

Lemma no_enable_close_mvp ws σ : no_enable σ (Mvp.on_close ws σ).1.
Proof. unfold Mvp.on_close. split_handler; no_enable_step. Qed.

Lemma no_enable_close_heartbeat ws σ : no_enable σ (Heartbeat.on_close ws σ).1.
Proof. unfold Heartbeat.on_close. split_handler; no_enable_step. Qed.

Lemma no_enable_timeout h σ : no_enable σ (Grace.on_timeout h σ).1.
Proof.
  unfold Grace.on_timeout, Grace.run_callback. split_handler; no_enable_step.
Qed.

Section Enable.
Context (σ : State) (r : sref) (v v' : Session.t).
Hypothesis Hv : session_heap σ !! r = Some v.
Hypothesis Hoff : Session.controlEnabled v = false.
Hypothesis Hon : Session.controlEnabled v' = true.

Lemma no_enable_contra σ' :
  no_enable σ σ' → session_heap σ' !! r = Some v' → False.
Proof. intros H Hv'. specialize (H r v v' Hv Hv' Hon). congruence. Qed.

Lemma toggle_enables ws c data :
  session_heap (toggle_control ws c data σ).1 !! r = Some v' →
  Data.enabled data = true
  ∧ Data.sessionId data = Some (Session.id v) ∧ Session.hostId v = c.
Proof.
  unfold toggle_control.
  destruct (find_session σ _) as [[s session]|] eqn:Hfind;
    [|intros ?; by destruct (no_enable_contra σ); [no_enable_step|]].
  destruct (String.eqb (Session.hostId session) c) eqn:Hhost; simpl;
    [|intros ?; by destruct (no_enable_contra σ); [no_enable_step|]].
  apply find_session_lookup in Hfind as [Hs Hid].
  rewrite list_lookup_alter. destruct (decide (s = r)) as [->|].
  - rewrite Hv in Hs. injection Hs as <-. rewrite Hv. simpl. intros [= <-].
    simpl in Hon. apply String.eqb_eq in Hhost. done.
  - rewrite Hv. intros [= <-]. congruence.
Qed.

Lemma toggle_enables_heartbeat ws c data :
  session_heap (Heartbeat.toggle_control ws c data σ).1 !! r = Some v' →
  Data.enabled data = true
  ∧ Data.sessionId data = Some (Session.id v) ∧ Session.hostId v = c.
Proof.
  unfold Heartbeat.toggle_control.
  destruct (find_session σ _) as [[s session]|] eqn:Hfind;
    [|intros ?; by destruct (no_enable_contra σ); [no_enable_step|]].
  destruct (String.eqb (Session.hostId session) c) eqn:Hhost; simpl;
    [|intros ?; by destruct (no_enable_contra σ); [no_enable_step|]].
  apply find_session_lookup in Hfind as [Hs Hid].
  rewrite list_lookup_alter. destruct (decide (s = r)) as [->|].
  - rewrite Hv in Hs. injection Hs as <-. rewrite Hv. simpl. intros [= <-].
    simpl in Hon. apply String.eqb_eq in Hhost. done.
  - rewrite Hv. intros [= <-]. congruence.
Qed.

Lemma grace_dispatch_enables ws c data x :
  session_heap (Grace.dispatch ws c data x σ).1 !! r = Some v' →
  Data.type data = "toggle-control" ∧ Data.enabled data = true
  ∧ Data.sessionId data = Some (Session.id v) ∧ Session.hostId v = c.
Proof.
  unfold Grace.dispatch.
  destruct (String.eqb _ "create-session");
    [intros ?; by destruct (no_enable_contra _ (no_enable_create ws c x σ))|].
  destruct (String.eqb _ "join-session");
    [intros ?; by destruct (no_enable_contra _ (no_enable_join_grace ws c data σ))|].
  destruct (is_signal _);
    [intros ?; by destruct (no_enable_contra _ (no_enable_signal_grace ws c data σ))|].
  destruct (String.eqb _ "toggle-control") eqn:E.
  { apply String.eqb_eq in E. intros ?%toggle_enables. done. }
  destruct (String.eqb _ "control-event");
    [intros ?; by destruct (no_enable_contra _ (no_enable_control_event_grace ws c data σ))|].
  intros ?. by destruct (no_enable_contra σ); [no_enable_step|].
Qed.

Lemma mvp_dispatch_enables ws c data x :
  session_heap (Mvp.dispatch ws c data x σ).1 !! r = Some v' →
  Data.type data = "toggle-control" ∧ Data.enabled data = true
  ∧ Data.sessionId data = Some (Session.id v) ∧ Session.hostId v = c.
Proof.
  unfold Mvp.dispatch.
  destruct (String.eqb _ "create-session");
    [intros ?; by destruct (no_enable_contra _ (no_enable_create ws c x σ))|].
  destruct (String.eqb _ "join-session");
    [intros ?; by destruct (no_enable_contra _ (no_enable_join_mvp ws c data σ))|].
  destruct (is_signal _);
    [intros ?; by destruct (no_enable_contra _ (no_enable_signal_mvp ws c data σ))|].
  destruct (String.eqb _ "toggle-control") eqn:E.
  { apply String.eqb_eq in E. intros ?%toggle_enables. done. }
  destruct (String.eqb _ "control-event");
    [intros ?; by destruct (no_enable_contra _ (no_enable_control_event_mvp ws c data σ))|].
  intros ?. by destruct (no_enable_contra σ); [no_enable_step|].
Qed.

Lemma heartbeat_dispatch_enables ws c data x :
  session_heap (Heartbeat.dispatch ws c data x σ).1 !! r = Some v' →
  Data.type data = "toggle-control" ∧ Data.enabled data = true
  ∧ Data.sessionId data = Some (Session.id v) ∧ Session.hostId v = c.
Proof.
  rewrite reconnect_shadowed_unreachable.
  destruct (String.eqb _ "reconnect-session");
    [intros ?; by destruct (no_enable_contra _ (no_enable_reconnect ws c data σ))|].
  destruct (String.eqb _ "create-session");
    [intros ?; by destruct (no_enable_contra _ (no_enable_create_heartbeat ws c x σ))|].
  destruct (String.eqb _ "join-session");
    [intros ?; by destruct (no_enable_contra _ (no_enable_join_heartbeat ws c data σ))|].
  destruct (is_signal _);
    [intros ?; by destruct (no_enable_contra _ (no_enable_signal_heartbeat ws c data σ))|].
  destruct (String.eqb _ "toggle-control") eqn:E.
  { apply String.eqb_eq in E. intros ?%toggle_enables_heartbeat. done. }
  intros ?. by destruct (no_enable_contra σ); [no_enable_step|].
Qed.

End Enable.

(** X1. the control flag of a session is turned on by nothing but a
    ['toggle-control'] of its host. *)
Theorem control_enabled_only_by_host :
  only_host_enables Grace.step ∧ only_host_enables Restore.step
  ∧ only_host_enables Mvp.step ∧ only_host_enables Heartbeat.step.
Proof.
  split; [|split; [|split]]; intros σ e r v v' Hv Hv' Hoff Hon;
    destruct e as [x|ws [data|] x|ws|ws|h]; simpl in Hv';
    try (exfalso; revert Hv'; apply (no_enable_contra σ r v v' Hv Hoff Hon);
         first [ apply no_enable_connection | apply no_enable_close_grace
               | apply no_enable_close_mvp | apply no_enable_close_heartbeat
               | apply no_enable_timeout | apply no_enable_refl; reflexivity
               | unfold Grace.on_message, Restore.on_message, Mvp.on_message,
                   Heartbeat.on_message;
                 destruct (socket_heap σ !! ws); no_enable_step ]).
  - unfold Grace.on_message in Hv'.
    destruct (socket_heap σ !! ws) as [w|] eqn:Hw;
      [|by destruct (no_enable_contra σ r v v' Hv Hoff Hon σ); [no_enable_step|]].
    apply (grace_dispatch_enables σ r v v' Hv Hoff Hon) in Hv' as (? & ? & ? & ?).
    by exists ws, w, data, x.
  - unfold Restore.on_message, Restore.dispatch in Hv'.
    destruct (socket_heap σ !! ws) as [w|] eqn:Hw;
      [|by destruct (no_enable_contra σ r v v' Hv Hoff Hon σ); [no_enable_step|]].
    destruct (String.eqb _ "restore-session").
    { by destruct (no_enable_contra σ r v v' Hv Hoff Hon _
                     (no_enable_restore ws (Socket._clientId w) data σ)). }
    apply (grace_dispatch_enables σ r v v' Hv Hoff Hon) in Hv' as (? & ? & ? & ?).
    by exists ws, w, data, x.
  - unfold Mvp.on_message in Hv'.
    destruct (socket_heap σ !! ws) as [w|] eqn:Hw;
      [|by destruct (no_enable_contra σ r v v' Hv Hoff Hon σ); [no_enable_step|]].
    apply (mvp_dispatch_enables σ r v v' Hv Hoff Hon) in Hv' as (? & ? & ? & ?).
    by exists ws, w, data, x.
  - unfold Heartbeat.on_message in Hv'.
    destruct (socket_heap σ !! ws) as [w|] eqn:Hw;
      [|by destruct (no_enable_contra σ r v v' Hv Hoff Hon σ); [no_enable_step|]].
    apply (heartbeat_dispatch_enables σ r v v' Hv Hoff Hon) in Hv' as (? & ? & ? & ?).
    by exists ws, w, data, x.
Qed.

Lemma control_enabled_only_by_host_witness :
  host_enables (Sample.paired false)
    (Message 0 (Some (Sample.msg "toggle-control" None None (Some "S1"))) Sample.ext)
    (Sample.session_S1 (Some "c") false).
Proof.
  destruct control_enabled_only_by_host as [H _].
  apply (H (Sample.paired false) _ 0 _ (Sample.session_S1 (Some "c") true));
    reflexivity.
Defined.

(** The recipients of a broadcast: the registered sockets bound to the
    session id, and no other. *)
Lemma broadcast_elem σ sessionId obj to obj' :
  (to, obj') ∈ broadcastToSession σ sessionId obj
  ↔ obj' = obj
    ∧ ∃ cid w, (cid, to) ∈ clients σ ∧ socket_heap σ !! to = Some w
               ∧ Socket._sessionId w = Some sessionId.
Proof.
  unfold broadcastToSession. rewrite list_elem_of_In, in_flat_map. split.
  - intros ([cid ws] & Hin & Hout).
    destruct (socket_heap σ !! ws) as [w|] eqn:Hw; [|done].
    destruct (Socket._sessionId w) as [i|] eqn:Hi; [|done]. simpl in Hout.
    destruct (String.eqb i sessionId) eqn:E; [|done].
    destruct Hout as [[= <- <-]|[]]. split; [done|].
    apply String.eqb_eq in E as ->. exists cid, w.
    by rewrite list_elem_of_In.
  - intros (-> & cid & w & Hin & Hw & Hi). exists (cid, to).
    split; [by apply list_elem_of_In|].
    rewrite Hw, Hi. simpl. rewrite String.eqb_refl. by left.
Qed.

(** X2. a ['toggle-control'] of the host sets the flag of that session and of
    no other, and tells the new value to the registered sockets bound to the
    session, and to no other socket. *)
Theorem toggle_control_by_host σ ws w data x s session :
  socket_heap σ !! ws = Some w →
  Data.type data = "toggle-control" →
  find_session σ (Data.sessionId data) = Some (s, session) →
  Session.hostId session = Socket._clientId w →
  let enabled := Data.enabled data in
  let σ' := upd_session s (Session.set_controlEnabled enabled) σ in
  let sent := broadcastToSession σ (Session.id session) (control_status enabled) in
  (Grace.on_message ws (Some data) x σ = (σ', sent)
   ∧ Restore.on_message ws (Some data) x σ = (σ', sent)
   ∧ Mvp.on_message ws (Some data) x σ = (σ', sent)
   ∧ Heartbeat.on_message ws (Some data) x σ = (σ', sent))
  ∧ find_session σ' (Data.sessionId data)
    = Some (s, Session.set_controlEnabled enabled session)
  ∧ (∀ r, r ≠ s → session_heap σ' !! r = session_heap σ !! r)
  ∧ (∀ to obj,
       (to, obj) ∈ sent
       ↔ obj = control_status enabled
         ∧ ∃ cid w', (cid, to) ∈ clients σ ∧ socket_heap σ !! to = Some w'
                     ∧ Socket._sessionId w' = Some (Session.id session)).
Proof.
  intros Hw Htype Hfind Hhost. simpl. split; [|split; [|split]].
  - simpl_type Hw. simpl_type Htype.
    unfold toggle_control, Heartbeat.toggle_control.
    by rewrite Hfind, Hhost, String.eqb_refl.
  - rewrite find_session_upd_session by done. rewrite Hfind. simpl.
    by rewrite decide_True.
  - intros r Hr. simpl. by rewrite list_lookup_alter_ne.
  - intros to obj. apply broadcast_elem.
Qed.

Lemma toggle_control_by_host_witness :
  Heartbeat.on_message 0 (Some (Sample.msg "toggle-control" None None (Some "S1")))
                       Sample.ext (Sample.paired false)
  = (Sample.paired true, [(0, control_status true); (1, control_status true)]).
Proof.
  destruct (toggle_control_by_host (Sample.paired false) 0
              (Socket.mk "h" (Some "S1") None)
              (Sample.msg "toggle-control" None None (Some "S1")) Sample.ext
              0 (Sample.session_S1 (Some "c") false) eq_refl eq_refl eq_refl eq_refl)
    as ((_ & _ & _ & H) & _).
  exact H.
Defined.

(** X3. a ['control-event'] is delivered only while the control flag of its
    session is on, only to the other party, and never changes the state; the
    heartbeat variant ignores the message. *)
Theorem control_event_delivery :
  control_event_sound Grace.on_message
  ∧ control_event_sound Restore.on_message
  ∧ control_event_sound Mvp.on_message
  ∧ ∀ σ ws w data x,
      socket_heap σ !! ws = Some w →
      Data.type data = "control-event" →
      Heartbeat.on_message ws (Some data) x σ = (σ, []).
Proof.
  split; [|split; [|split]]; intros σ ws w data x Hw Htype; simpl;
    simpl_type Hw; simpl_type Htype; [| | |done];
    unfold Grace.control_event_msg, Mvp.control_event_msg, send;
    (destruct (find_session σ _) as [[s session]|] eqn:Hfind; simpl;
     [|split; [done|split; [lia|intros to obj [[= -> ->]|[]%elem_of_nil]%elem_of_cons; eauto]]]);
    (destruct (Session.controlEnabled session) eqn:Hon; simpl;
     [|split; [done|split; [lia|intros to obj [[= -> ->]|[]%elem_of_nil]%elem_of_cons; eauto]]]);
    (destruct (truthy _); simpl;
     [|split; [done|split; [simpl; lia|intros to obj Hin;
                            try (by apply elem_of_nil in Hin);
                            apply elem_of_cons in Hin as [[= -> ->]|[]%elem_of_nil]; eauto]]]);
    (destruct (client_ws σ _) as [targetWs|] eqn:Htarget; simpl;
     [|split; [done|split; [lia|by intros to obj ?%elem_of_nil]]]);
    (split; [done|split; [lia|]]);
    intros to obj [[= -> ->]|[]%elem_of_nil]%elem_of_cons;
    right; exists s, session; done.
Qed.

Lemma control_event_delivery_witness :
  Grace.on_message 1 (Some (Sample.msg "control-event" None None (Some "S1")))
    Sample.ext (Sample.paired true)
  = (Sample.paired true, [(0, control_event "c" "e")]).
Proof.
  destruct control_event_delivery as [Hgrace _].
  destruct (Hgrace (Sample.paired true) 1 (Socket.mk "c" (Some "S1") None)
              (Sample.msg "control-event" None None (Some "S1")) Sample.ext
              eq_refl eq_refl) as (Hstate & _ & _).
  rewrite <- Hstate at 2. reflexivity.
Defined.

Lemma registry_kept_refl σ σ' :
  clients σ' = clients σ → socket_heap σ' = socket_heap σ → registry_kept σ σ'.
Proof. intros Hc Hs. split; [done|]. intros i w Hi. rewrite Hs. eauto. Qed.

Lemma registry_kept_alter σ σ' ws f :
  clients σ' = clients σ → socket_heap σ' = alter f ws (socket_heap σ) →
  (∀ w, Socket._clientId (f w) = Socket._clientId w) →
  registry_kept σ σ'.
Proof.
  intros Hc Hs Hf. split; [done|]. intros i w Hi. rewrite Hs, list_lookup_alter.
  destruct (decide (ws = i)) as [->|]; rewrite Hi; simpl; eauto.
Qed.

Lemma registry_kept_alter2 σ σ' ws f g :
  clients σ' = clients σ → socket_heap σ' = alter f ws (alter g ws (socket_heap σ)) →
  (∀ w, Socket._clientId (f (g w)) = Socket._clientId w) →
  registry_kept σ σ'.
Proof.
  intros Hc Hs Hf. apply (registry_kept_alter σ σ' ws (f ∘ g)); [done| |done].
  by rewrite Hs, list_alter_alter_eq.
Qed.

Lemma registry_kept_consistent σ σ' :
  registry_kept σ σ' → registry_consistent σ → registry_consistent σ'.
Proof.
  intros [Hc Hs] H c ws. rewrite Hc. intros (w & Hw & <-)%H.
  destruct (Hs ws w Hw) as (w' & ? & ?). eauto.
Qed.

Ltac registry_step :=
  first
    [ apply registry_kept_refl; reflexivity
    | eapply registry_kept_alter; [reflexivity|reflexivity|by intros []]
    | eapply registry_kept_alter2; [reflexivity|reflexivity|by intros []] ].

Lemma registry_kept_message_grace ws msg x σ :
  registry_kept σ (Grace.on_message ws msg x σ).1.
Proof.
  unfold Grace.on_message, Grace.dispatch, create_session, Grace.join_session,
    join_inherited, write_clientId,
    Grace.signal, toggle_control, Grace.control_event_msg.
  split_handler; registry_step.
Qed.

Lemma registry_kept_message_restore ws msg x σ :
  registry_kept σ (Restore.on_message ws msg x σ).1.
Proof.
  unfold Restore.on_message, Restore.dispatch.
  destruct (socket_heap σ !! ws) as [w|] eqn:Hw; [|registry_step].
  destruct msg as [data|]; [|registry_step].
  destruct (String.eqb _ "restore-session").
  - unfold Restore.restore_session, Restore.restore_inherited, write_hostId,
      write_clientId.
    destruct (JsObj.get (disconnectTimers σ) _); simpl; split_handler; registry_step.
  - pose proof (registry_kept_message_grace ws (Some data) x σ) as H.
    unfold Grace.on_message in H. by rewrite Hw in H.
Qed.

Lemma registry_kept_message_mvp ws msg x σ :
  registry_kept σ (Mvp.on_message ws msg x σ).1.
Proof.
  unfold Mvp.on_message, Mvp.dispatch, create_session, Mvp.join_session,
    join_inherited, write_clientId,
    Mvp.signal, toggle_control, Mvp.control_event_msg.
  split_handler; registry_step.
Qed.

Lemma registry_kept_message_heartbeat ws msg x σ :
  registry_kept σ (Heartbeat.on_message ws msg x σ).1.
Proof.
  unfold Heartbeat.on_message.
  destruct (socket_heap σ !! ws) as [w|]; [|registry_step].
  destruct msg as [data|]; [|registry_step].
  rewrite reconnect_shadowed_unreachable.
  unfold Heartbeat.reconnect_session, Heartbeat.reconnect_inherited,
    Heartbeat.create_session, Heartbeat.join_session,
    Heartbeat.join_inherited, write_hostId, write_clientId,
    Heartbeat.signal, Heartbeat.toggle_control.
  split_handler; registry_step.
Qed.

Lemma registry_kept_timeout h σ : registry_kept σ (Grace.on_timeout h σ).1.
Proof.
  unfold Grace.on_timeout, Grace.run_callback. split_handler; registry_step.
Qed.

Lemma registry_consistent_delete σ σ' c :
  clients σ' = JsObj.delete c (clients σ) → socket_heap σ' = socket_heap σ →
  registry_consistent σ → registry_consistent σ'.
Proof.
  intros Hc Hs H c' ws. rewrite Hc, Hs.
  destruct (decide (c = c')) as [->|Hne].
  - by rewrite get_delete_eq.
  - rewrite get_delete_ne by done. apply H.
Qed.

Lemma registry_consistent_close_grace ws σ :
  registry_consistent σ → registry_consistent (Grace.on_close ws σ).1.
Proof.
  intros H. unfold Grace.on_close.
  destruct (socket_heap σ !! ws) as [w|]; [|done].
  split_handler; by apply (registry_consistent_delete σ _ (Socket._clientId w)).
Qed.

Lemma registry_consistent_close_mvp ws σ :
  registry_consistent σ → registry_consistent (Mvp.on_close ws σ).1.
Proof.
  intros H. unfold Mvp.on_close.
  destruct (socket_heap σ !! ws) as [w|]; [|done].
  split_handler; by apply (registry_consistent_delete σ _ (Socket._clientId w)).
Qed.

Lemma registry_consistent_close_heartbeat ws σ :
  registry_consistent σ → registry_consistent (Heartbeat.on_close ws σ).1.
Proof.
  intros H. unfold Heartbeat.on_close.
  destruct (socket_heap σ !! ws) as [w|]; [|done].
  split_handler; by apply (registry_consistent_delete σ _ (Socket._clientId w)).
Qed.

Lemma registry_consistent_connection x σ :
  registry_consistent σ → registry_consistent (on_connection x σ).1.
Proof.
  intros H c ws. unfold on_connection. simpl.
  destruct (decide (External.uuid x = c)) as [<-|Hne].
  - rewrite get_set_eq. intros [= <-].
    exists (Socket.mk (External.uuid x) None None).
    by rewrite lookup_app_r, Nat.sub_diag by lia.
  - rewrite get_set_ne by done. intros (w & Hw & <-)%H.
    exists w. by rewrite (lookup_app_l_Some _ _ _ _ Hw).
Qed.


(** X4. in every state a variant reaches, whatever the events, the socket
    registered under an identifier is the one that was given it. *)
Theorem registry_always_consistent events :
  registry_consistent (run Grace.step events initial).1
  ∧ registry_consistent (run Restore.step events initial).1
  ∧ registry_consistent (run Mvp.step events initial).1
  ∧ registry_consistent (run Heartbeat.step events initial).1.
Proof.
  induction events as [|e events IH] using rev_ind.
  { repeat split; by intros c ws. }
  destruct IH as (IHG & IHR & IHM & IHH). rewrite !run_snoc.
  split; [|split; [|split]]; destruct e as [x|ws msg x|ws|ws|h]; simpl.
  - by apply registry_consistent_connection.
  - by eapply registry_kept_consistent; [apply registry_kept_message_grace|].
  - done.
  - by apply registry_consistent_close_grace.
  - by eapply registry_kept_consistent; [apply registry_kept_timeout|].
  - by apply registry_consistent_connection.
  - by eapply registry_kept_consistent; [apply registry_kept_message_restore|].
  - done.
  - by apply registry_consistent_close_grace.
  - by eapply registry_kept_consistent; [apply registry_kept_timeout|].
  - by apply registry_consistent_connection.
  - by eapply registry_kept_consistent; [apply registry_kept_message_mvp|].
  - done.
  - by apply registry_consistent_close_mvp.
  - done.
  - by apply registry_consistent_connection.
  - by eapply registry_kept_consistent; [apply registry_kept_message_heartbeat|].
  - done.
  - by apply registry_consistent_close_heartbeat.
  - done.
Qed.

(** X6. a ['create-session'] whose draw differs from the draw of a stored
    code leaves the entry of that code as it is; only an equal draw takes
    the place of a stored session. *)
Theorem create_session_other_draw σ ws w data x draw :
  socket_heap σ !! ws = Some w →
  Data.type data = "create-session" →
  draw ≠ External.draw x →
  JsObj.get (sessions (Grace.on_message ws (Some data) x σ).1) (code_of_draw draw)
  = JsObj.get (sessions σ) (code_of_draw draw)
  ∧ JsObj.get (sessions (Restore.on_message ws (Some data) x σ).1) (code_of_draw draw)
    = JsObj.get (sessions σ) (code_of_draw draw)
  ∧ JsObj.get (sessions (Mvp.on_message ws (Some data) x σ).1) (code_of_draw draw)
    = JsObj.get (sessions σ) (code_of_draw draw)
  ∧ JsObj.get (sessions (Heartbeat.on_message ws (Some data) x σ).1) (code_of_draw draw)
    = JsObj.get (sessions σ) (code_of_draw draw).
Proof.
  intros Hw Htype Hne.
  destruct (on_message_create σ ws w data x Hw Htype) as (-> & -> & -> & ->).
  assert (code_of_draw (External.draw x) ≠ code_of_draw draw) as Hcode
    by (intros ?%code_of_draw_inj; congruence).
  unfold create_session, Heartbeat.create_session. simpl.
  by rewrite !get_set_ne.
Qed.

Lemma create_session_other_draw_witness :
  JsObj.get (sessions (Mvp.on_message 2
                         (Some (Sample.msg "create-session" None None None))
                         (External.mk 524303 "S2" 7) (Sample.paired true)).1)
            (code_of_draw 482193)
  = Some 0.
Proof.
  assert (482193 ≠ 524303)%N as Hne by discriminate.
  destruct (create_session_other_draw (Sample.paired true) 2 (Socket.mk "z" None None)
              (Sample.msg "create-session" None None None) (External.mk 524303 "S2" 7)
              482193%N eq_refl eq_refl Hne) as (_ & _ & H & _).
  exact H.
Defined.

Lemma first_with_id_id σ sessionId code s session :
  first_with_id σ sessionId = Some (code, s, session) →
  sessionId = Some (Session.id session).
Proof.
  unfold first_with_id. intros [_ E]%find_some. simpl in E.
  destruct sessionId as [i|]; [|done]. simpl in E.
  apply String.eqb_eq in E. by subst.
Qed.

(** X7. the close of a connection leaves alone every session object in
    which the connection holds no slot. The grace-timer and heartbeat
    variants remove no entry of the store; the mvp variant removes only the
    entry its loop stopped at, and only when the connection is its host. *)
Theorem close_spares_other_sessions σ ws w :
  socket_heap σ !! ws = Some w →
  let c := Socket._clientId w in
  (sessions (Grace.on_close ws σ).1 = sessions σ
   ∧ session_heap (Grace.on_close ws σ).1 = session_heap σ)
  ∧ (sessions (Heartbeat.on_close ws σ).1 = sessions σ
     ∧ ∀ r v, session_heap σ !! r = Some v →
              Session.hostId v ≠ c → Session.clientId v ≠ Some c →
              session_heap (Heartbeat.on_close ws σ).1 !! r = Some v)
  ∧ ((∀ code,
        JsObj.get (sessions (Mvp.on_close ws σ).1) code = JsObj.get (sessions σ) code
        ∨ ∃ s session,
            first_with_id σ (Socket._sessionId w) = Some (code, s, session)
            ∧ Session.hostId session = c)
     ∧ ∀ r v, session_heap σ !! r = Some v →
              Session.hostId v ≠ c → Session.clientId v ≠ Some c →
              session_heap (Mvp.on_close ws σ).1 !! r = Some v).
Proof.
  intros Hw. simpl.
  unfold Grace.on_close, Heartbeat.on_close, Mvp.on_close. rewrite Hw.
  destruct (truthy (Socket._sessionId w)); [|by repeat split; auto].
  change (first_with_id (set_clients _ σ) ?i) with (first_with_id σ i).
  destruct (first_with_id σ _) as [[[code s] session]|] eqn:Hfirst;
    [|by repeat split; auto].
  pose proof (first_with_id_lookup _ _ _ _ _ Hfirst) as Hs.
  destruct (String.eqb (Session.hostId session) _) eqn:Hhost.
  - apply String.eqb_eq in Hhost. split; [done|]. split; [split; [done|]|split].
    + intros r v Hv Hh Hc. simpl. rewrite list_lookup_alter.
      destruct (decide (s = r)) as [->|]; [|done]. congruence.
    + intros code'. simpl. destruct (decide (code = code')) as [<-|Hne].
      * right. eauto.
      * left. by apply get_delete_ne.
    + by intros r v Hv _ _.
  - destruct (strict_eq (Session.clientId session) _) eqn:Hclient.
    + assert (Session.clientId session = Some (Socket._clientId w)) as Hc'.
      { destruct (Session.clientId session) as [c'|]; [|done]. simpl in Hclient.
        by apply String.eqb_eq in Hclient as ->. }
      split; [done|]. split; [split; [done|]|split; [by left|]].
      * intros r v Hv Hh Hc. simpl. rewrite !list_lookup_alter.
        destruct (decide (s = r)) as [->|]; [|done]. congruence.
      * intros r v Hv Hh Hc. simpl. rewrite list_lookup_alter.
        destruct (decide (s = r)) as [->|]; [|done]. congruence.
    + by repeat split; auto.
Qed.

Lemma close_spares_other_sessions_witness :
  sessions (Heartbeat.on_close 2 (Sample.paired true)).1 = sessions (Sample.paired true)
  ∧ session_heap (Mvp.on_close 2 (Sample.paired true)).1 !! 0
    = Some (Sample.session_S1 (Some "c") true).
Proof.
  destruct (close_spares_other_sessions (Sample.paired true) 2
              (Socket.mk "z" None None) eq_refl) as (_ & (HH & _) & (_ & HM)).
  split; [exact HH|].
  apply (HM 0 (Sample.session_S1 (Some "c") true)); [reflexivity| |]; discriminate.
Defined.

(** X8. in the mvp variant the close of the host removes its session at once
    and tells a registered client [host-disconnected]; the code is then
    unknown to ['join-session']. The code is one that names no property of
    [Object.prototype], as every drawn code is
    ([code_of_draw_not_inheritable]). *)
Theorem mvp_host_close_ends_session σ ws w code s session :
  socket_heap σ !! ws = Some w →
  truthy (Socket._sessionId w) = true →
  first_with_id σ (Socket._sessionId w) = Some (code, s, session) →
  Session.hostId session = Socket._clientId w →
  inheritable code = false →
  let σ1 := set_clients (JsObj.delete (Socket._clientId w)) σ in
  let σ' := (Mvp.on_close ws σ).1 in
  σ' = set_sessions (JsObj.delete code) σ1
  ∧ (Mvp.on_close ws σ).2
    = match live_ws σ1 (Session.clientId session) with
      | Some clientWs => [(clientWs, host_disconnected)]
      | None => []
      end
  ∧ session_at σ' code = None
  ∧ ∀ ws2 w2 data x,
      socket_heap σ !! ws2 = Some w2 →
      Data.type data = "join-session" →
      Data.sessionCode data = Some code →
      Mvp.on_message ws2 (Some data) x σ' = (σ', [(ws2, error "invalid-session-code")]).
Proof.
  intros Hw Hbound Hfirst Hhost Hplain. simpl.
  assert (Mvp.on_close ws σ
          = (set_sessions (JsObj.delete code)
               (set_clients (JsObj.delete (Socket._clientId w)) σ),
             match live_ws (set_clients (JsObj.delete (Socket._clientId w)) σ)
                           (Session.clientId session) with
             | Some clientWs => [(clientWs, host_disconnected)]
             | None => []
             end)) as ->.
  { unfold Mvp.on_close. rewrite Hw, Hbound.
    change (first_with_id (set_clients _ σ) ?i) with (first_with_id σ i).
    by rewrite Hfirst, Hhost, String.eqb_refl. }
  simpl. split; [done|]. split; [done|].
  assert (session_at (set_sessions (JsObj.delete code)
                        (set_clients (JsObj.delete (Socket._clientId w)) σ)) code
          = None) as Hgone.
  { unfold session_at. simpl. by rewrite get_delete_eq. }
  split; [done|].
  intros ws2 w2 data x Hw2 Htype Hcode.
  unfold Mvp.on_message. simpl. rewrite Hw2.
  unfold Mvp.dispatch. rewrite Htype. simpl.
  unfold Mvp.join_session. rewrite Hcode. simpl.
  destruct (negb (String.eqb code "")); simpl; [|done].
  by rewrite Hgone, inherited_inheritable.
Qed.

Lemma mvp_host_close_ends_session_witness :
  (Mvp.on_close 0 (Sample.paired true)).2 = [(1, host_disconnected)]
  ∧ session_at (Mvp.on_close 0 (Sample.paired true)).1 "482193" = None.
Proof.
  destruct (mvp_host_close_ends_session (Sample.paired true) 0
              (Socket.mk "h" (Some "S1") None) "482193" 0
              (Sample.session_S1 (Some "c") true)
              eq_refl eq_refl eq_refl eq_refl eq_refl)
    as (_ & Hout & Hat & _).
  split; [exact Hout|exact Hat].
Defined.

Section HostClose.
Context (σ : State) (ws : wref) (w : Socket.t) (code : Code) (s : sref)
        (session : Session.t).
Hypothesis Hws : socket_heap σ !! ws = Some w.
Hypothesis Hbound : truthy (Socket._sessionId w) = true.
Hypothesis Hfirst : first_with_id σ (Socket._sessionId w) = Some (code, s, session).
Hypothesis Hhost : Session.hostId session = Socket._clientId w.

Lemma grace_close_host :
  Grace.on_close ws σ
  = (set_disconnectTimers (JsObj.set code (length (timer_heap σ)))
       (setTimeout (host_grace code (Socket._clientId w) s)
                   (set_clients (JsObj.delete (Socket._clientId w)) σ)).2,
     []).
Proof.
  unfold Grace.on_close. rewrite Hws, Hbound.
  change (first_with_id (set_clients _ σ) ?i) with (first_with_id σ i).
  by rewrite Hfirst, Hhost, String.eqb_refl.
Qed.

Lemma heartbeat_close_host :
  Heartbeat.on_close ws σ
  = (upd_session s (Session.set_hostOffline true)
       (set_clients (JsObj.delete (Socket._clientId w)) σ),
     match live_ws (set_clients (JsObj.delete (Socket._clientId w)) σ)
                   (Session.clientId session) with
     | Some clientWs => [(clientWs, host_offline)]
     | None => []
     end).
Proof.
  unfold Heartbeat.on_close. rewrite Hws, Hbound.
  change (first_with_id (set_clients _ σ) ?i) with (first_with_id σ i).
  by rewrite Hfirst, Hhost, String.eqb_refl.
Qed.

End HostClose.

(** X9. in the grace-timer variant the close of the host sends nothing and
    keeps the session; when the timer it armed runs with nothing in between,
    the session leaves the store and a registered client is told
    [host-disconnected], once. *)
Theorem grace_host_expiry σ ws w code s session :
  socket_heap σ !! ws = Some w →
  truthy (Socket._sessionId w) = true →
  first_with_id σ (Socket._sessionId w) = Some (code, s, session) →
  Session.hostId session = Socket._clientId w →
  JsObj.get (sessions σ) code = Some s →
  let σ1 := (Grace.on_close ws σ).1 in
  let expiry := Grace.on_timeout (length (timer_heap σ)) σ1 in
  (Grace.on_close ws σ).2 = []
  ∧ session_at σ1 code = Some (s, session)
  ∧ session_at expiry.1 code = None
  ∧ expiry.2 = match live_ws σ1 (Session.clientId session) with
               | Some clientWs => [(clientWs, host_disconnected)]
               | None => []
               end.
Proof.
  intros Hw Hbound Hfirst Hhost Hget.
  pose proof (first_with_id_lookup _ _ _ _ _ Hfirst) as Hs.
  rewrite (grace_close_host σ ws w code s session) by done. simpl.
  split; [done|].
  assert (∀ τ, sessions τ = sessions σ → session_heap τ = session_heap σ →
               session_at τ code = Some (s, session)) as Hat.
  { intros τ H1 H2. unfold session_at. rewrite H1, H2, Hget. simpl. by rewrite Hs. }
  split; [by apply Hat|].
  unfold Grace.on_timeout. simpl.
  rewrite lookup_app_r by lia. rewrite Nat.sub_diag. simpl.
  unfold Grace.names_host.
  rewrite (Hat (upd_timer _ _ (set_disconnectTimers _ _))) by done.
  rewrite Hhost, String.eqb_refl. simpl. rewrite Hs.
  split; [|by unfold live_ws, client_ws].
  unfold session_at. simpl. by rewrite get_delete_eq.
Qed.

Lemma grace_host_expiry_witness :
  let σ1 := (Grace.on_close 0 (Sample.paired true)).1 in
  session_at (Grace.on_timeout 0 σ1).1 "482193" = None
  ∧ (Grace.on_timeout 0 σ1).2 = [(1, host_disconnected)].
Proof.
  destruct (grace_host_expiry (Sample.paired true) 0
              (Socket.mk "h" (Some "S1") None) "482193" 0
              (Sample.session_S1 (Some "c") true)
              eq_refl eq_refl eq_refl eq_refl eq_refl) as (_ & _ & Hat & Hout).
  split; [exact Hat|exact Hout].
Defined.

(** X10. while the host is in its grace period, a ['join-session'] for its
    code is refused with [host-not-available] and removes the session, in the
    grace-timer and restore variants; a ['restore-session'] that comes after
    finds nothing to restore. The code is one that names no property of
    [Object.prototype], as every drawn code is
    ([code_of_draw_not_inheritable]). *)
Theorem join_during_host_grace σ ws w code s session ws2 w2 data x :
  socket_heap σ !! ws = Some w →
  truthy (Socket._sessionId w) = true →
  first_with_id σ (Socket._sessionId w) = Some (code, s, session) →
  Session.hostId session = Socket._clientId w →
  JsObj.get (sessions σ) code = Some s →
  inheritable code = false →
  socket_heap σ !! ws2 = Some w2 →
  Data.type data = "join-session" →
  Data.sessionCode data = Some code →
  let σ1 := (Restore.on_close ws σ).1 in
  let joined := Restore.on_message ws2 (Some data) x σ1 in
  Grace.on_message ws2 (Some data) x (Grace.on_close ws σ).1 = joined
  ∧ joined.2 = [(ws2, error "host-not-available")]
  ∧ session_at joined.1 code = None
  ∧ ∀ ws3 w3 data3 x3,
      socket_heap σ !! ws3 = Some w3 →
      Data.type data3 = "restore-session" →
      Data.sessionCode data3 = Some code →
      Restore.on_message ws3 (Some data3) x3 joined.1
      = (joined.1, [(ws3, error "no-session-to-restore")]).
Proof.
  intros Hw Hbound Hfirst Hhost Hget Hplain Hw2 Htype Hcode.
  pose proof (first_with_id_lookup _ _ _ _ _ Hfirst) as Hs.
  unfold Restore.on_close.
  rewrite (grace_close_host σ ws w code s session) by done. simpl.
  unfold Restore.on_message, Grace.on_message, Restore.dispatch, Grace.dispatch.
  simpl. rewrite Hw2, Htype. simpl.
  unfold Grace.join_session, session_at. rewrite Hcode. simpl.
  rewrite Hget. simpl. rewrite Hs. simpl.
  rewrite Hhost, get_delete_eq. simpl.
  split; [done|]. split; [done|]. split; [by rewrite get_delete_eq|].
  intros ws3 w3 data3 x3 Hw3 Htype3 Hcode3.
  rewrite Hw3, Htype3. simpl.
  unfold Restore.restore_session, session_at. rewrite Hcode3. simpl.
  by rewrite get_delete_eq, inherited_inheritable.
Qed.

Lemma join_during_host_grace_witness :
  let σ1 := (Restore.on_close 0 (Sample.paired true)).1 in
  let data := Sample.msg "join-session" (Some "482193") None None in
  (Restore.on_message 2 (Some data) Sample.ext σ1).2 = [(2, error "host-not-available")]
  ∧ session_at (Restore.on_message 2 (Some data) Sample.ext σ1).1 "482193" = None.
Proof.
  destruct (join_during_host_grace (Sample.paired true) 0
              (Socket.mk "h" (Some "S1") None) "482193" 0
              (Sample.session_S1 (Some "c") true) 2 (Socket.mk "z" None None)
              (Sample.msg "join-session" (Some "482193") None None) Sample.ext
              eq_refl eq_refl eq_refl eq_refl eq_refl eq_refl eq_refl eq_refl eq_refl)
    as (_ & Hout & Hat & _).
  split; [exact Hout|exact Hat].
Defined.

(** X11. in the restore variant, a ['restore-session'] for the host role that
    comes after the close of the host and before the timer puts the new
    connection in the host slot of the same session object, binds its
    socket, tells a registered client [host-reconnected] once, and cancels
    the timer: its expiry does nothing. *)
Theorem restore_host_within_grace σ ws w code s session ws2 w2 data x :
  socket_heap σ !! ws = Some w →
  truthy (Socket._sessionId w) = true →
  first_with_id σ (Socket._sessionId w) = Some (code, s, session) →
  Session.hostId session = Socket._clientId w →
  JsObj.get (sessions σ) code = Some s →
  socket_heap σ !! ws2 = Some w2 →
  Data.type data = "restore-session" →
  Data.sessionCode data = Some code →
  Data.role data = Some "host" →
  let σ1 := (Restore.on_close ws σ).1 in
  let restored := Restore.on_message ws2 (Some data) x σ1 in
  restored.2
  = (ws2, session_restored (Session.id session) code)
    :: match live_ws σ1 (Session.clientId session) with
       | Some clientWs => [(clientWs, host_reconnected)]
       | None => []
       end
  ∧ session_at restored.1 code
    = Some (s, Session.set_hostId (Socket._clientId w2) session)
  ∧ socket_heap restored.1 !! ws2
    = Some (Socket.set_sessionId (Some (Session.id session)) w2)
  ∧ Restore.on_timeout (length (timer_heap σ)) restored.1 = (restored.1, []).
Proof.
  intros Hw Hbound Hfirst Hhost Hget Hw2 Htype Hcode Hrole.
  pose proof (first_with_id_lookup _ _ _ _ _ Hfirst) as Hs.
  unfold Restore.on_close.
  rewrite (grace_close_host σ ws w code s session) by done. simpl.
  unfold Restore.on_message, Restore.dispatch. simpl. rewrite Hw2, Htype. simpl.
  unfold Restore.restore_session, session_at. rewrite Hcode, Hrole. simpl.
  rewrite Hget. simpl. rewrite Hs. simpl.
  rewrite get_set_eq. simpl. rewrite Hhost, get_delete_eq. simpl.
  split; [by unfold live_ws, client_ws|]. split; [|split].
  - rewrite Hget. simpl. by rewrite list_lookup_alter_eq, Hs.
  - by rewrite list_lookup_alter_eq, Hw2.
  - unfold Restore.on_timeout, Grace.on_timeout. simpl.
    rewrite list_lookup_alter_eq, lookup_app_r, Nat.sub_diag by lia. done.
Qed.

Lemma restore_host_within_grace_witness :
  let σ1 := (Restore.on_close 0 (Sample.paired true)).1 in
  let data := Sample.msg "restore-session" (Some "482193") (Some "host") None in
  (Restore.on_message 2 (Some data) Sample.ext σ1).2
  = [(2, session_restored "S1" "482193"); (1, host_reconnected)].
Proof.
  destruct (restore_host_within_grace (Sample.paired true) 0
              (Socket.mk "h" (Some "S1") None) "482193" 0
              (Sample.session_S1 (Some "c") true) 2 (Socket.mk "z" None None)
              (Sample.msg "restore-session" (Some "482193") (Some "host") None)
              Sample.ext
              eq_refl eq_refl eq_refl eq_refl eq_refl eq_refl eq_refl eq_refl eq_refl)
    as (Hout & _).
  exact Hout.
Defined.

(** X12. in the restore variant, a ['restore-session'] for the client role
    that comes after the close of the client and before the timer puts the
    new connection in the client slot, tells a registered host
    [client-reconnected], cancels the timer, and leaves the control flag as
    it was before the close. *)
Theorem restore_client_within_grace σ ws w code s session ws2 w2 data x :
  socket_heap σ !! ws = Some w →
  truthy (Socket._sessionId w) = true →
  first_with_id σ (Socket._sessionId w) = Some (code, s, session) →
  Session.hostId session ≠ Socket._clientId w →
  Session.clientId session = Some (Socket._clientId w) →
  JsObj.get (sessions σ) code = Some s →
  socket_heap σ !! ws2 = Some w2 →
  Data.type data = "restore-session" →
  Data.sessionCode data = Some code →
  Data.role data = Some "client" →
  let σ1 := (Restore.on_close ws σ).1 in
  let restored := Restore.on_message ws2 (Some data) x σ1 in
  restored.2
  = (ws2, session_restored (Session.id session) code)
    :: match JsObj.get (clients σ1) (Session.hostId session) with
       | Some hostWs => [(hostWs, client_reconnected)]
       | None => []
       end
  ∧ session_at restored.1 code
    = Some (s, Session.set_clientId (Some (Socket._clientId w2)) session)
  ∧ Session.controlEnabled (Session.set_clientId (Some (Socket._clientId w2)) session)
    = Session.controlEnabled session
  ∧ Restore.on_timeout (length (timer_heap σ)) restored.1 = (restored.1, []).
Proof.
  intros Hw Hbound Hfirst Hnot_host Hclient Hget Hw2 Htype Hcode Hrole.
  pose proof (first_with_id_lookup _ _ _ _ _ Hfirst) as Hs.
  unfold Restore.on_close.
  rewrite (grace_close_client σ ws w code s session) by done. simpl.
  unfold Restore.on_message, Restore.dispatch. simpl. rewrite Hw2, Htype. simpl.
  unfold Restore.restore_session, session_at. rewrite Hcode, Hrole. simpl.
  rewrite Hget. simpl. rewrite Hs. simpl.
  rewrite get_set_eq. simpl.
  unfold client_ws. simpl. rewrite Hclient. simpl. rewrite get_delete_eq. simpl.
  split; [done|]. split; [|split; [done|]].
  - rewrite Hget. simpl. by rewrite list_lookup_alter_eq, Hs.
  - unfold Restore.on_timeout, Grace.on_timeout. simpl.
    rewrite list_lookup_alter_eq, lookup_app_r, Nat.sub_diag by lia. done.
Qed.

Lemma restore_client_within_grace_witness :
  let σ1 := (Restore.on_close 1 (Sample.paired true)).1 in
  let data := Sample.msg "restore-session" (Some "482193") (Some "client") None in
  session_at (Restore.on_message 2 (Some data) Sample.ext σ1).1 "482193"
  = Some (0, Sample.session_S1 (Some "z") true).
Proof.
  assert ("h" ≠ "c") as Hne by discriminate.
  destruct (restore_client_within_grace (Sample.paired true) 1
              (Socket.mk "c" (Some "S1") None) "482193" 0
              (Sample.session_S1 (Some "c") true) 2 (Socket.mk "z" None None)
              (Sample.msg "restore-session" (Some "482193") (Some "client") None)
              Sample.ext
              eq_refl eq_refl eq_refl Hne eq_refl eq_refl eq_refl eq_refl eq_refl
              eq_refl)
    as (_ & Hat & _).
  exact Hat.
Defined.

(** X13. in the grace-timer variant, once the client has closed its
    connection another connection can join the session at once: it takes the
    client slot with the control flag as the old client left it, and the
    timer armed for the old client then does nothing. *)
Theorem rejoin_during_client_grace σ ws w code s session hostWs ws2 w2 data x :
  socket_heap σ !! ws = Some w →
  truthy (Socket._sessionId w) = true →
  first_with_id σ (Socket._sessionId w) = Some (code, s, session) →
  Session.hostId session ≠ Socket._clientId w →
  Session.clientId session = Some (Socket._clientId w) →
  JsObj.get (sessions σ) code = Some s →
  JsObj.get (clients σ) (Session.hostId session) = Some hostWs →
  socket_heap σ !! ws2 = Some w2 →
  Socket._clientId w2 ≠ Socket._clientId w →
  Data.type data = "join-session" →
  Data.sessionCode data = Some code →
  let σ1 := (Grace.on_close ws σ).1 in
  let joined := Grace.on_message ws2 (Some data) x σ1 in
  joined.2 = [(ws2, session_joined (Session.id session) code);
              (hostWs, client_joined (Socket._clientId w2))]
  ∧ session_at joined.1 code
    = Some (s, Session.set_clientId (Some (Socket._clientId w2)) session)
  ∧ Session.controlEnabled (Session.set_clientId (Some (Socket._clientId w2)) session)
    = Session.controlEnabled session
  ∧ Grace.on_timeout (length (timer_heap σ)) joined.1
    = (timer_done (length (timer_heap σ)) joined.1, []).
Proof.
  intros Hw Hbound Hfirst Hnot_host Hclient Hget Hhost Hw2 Hne Htype Hcode.
  pose proof (first_with_id_lookup _ _ _ _ _ Hfirst) as Hs.
  rewrite (grace_close_client σ ws w code s session) by done. simpl.
  unfold Grace.on_message, Grace.dispatch. simpl. rewrite Hw2, Htype. simpl.
  unfold Grace.join_session, session_at. rewrite Hcode. simpl.
  rewrite Hget. simpl. rewrite Hs. simpl.
  rewrite get_delete_ne, Hhost by done.
  unfold live_ws, client_ws. simpl. rewrite Hclient. simpl. rewrite get_delete_eq.
  destruct (negb (String.eqb (Socket._clientId w) "")); simpl;
    (split; [done|]); (split; [|split; [done|]]);
    try (rewrite Hget; simpl; by rewrite list_lookup_alter_eq, Hs);
    unfold Grace.on_timeout; simpl;
    rewrite lookup_app_r, Nat.sub_diag by lia; simpl;
    unfold Grace.names_client, session_at; simpl; rewrite Hget; simpl;
    rewrite list_lookup_alter_eq, Hs; simpl;
    apply String.eqb_neq in Hne; by rewrite Hne.
Qed.

Lemma rejoin_during_client_grace_witness :
  let σ1 := (Grace.on_close 1 (Sample.paired true)).1 in
  let data := Sample.msg "join-session" (Some "482193") None None in
  session_at (Grace.on_message 2 (Some data) Sample.ext σ1).1 "482193"
  = Some (0, Sample.session_S1 (Some "z") true).
Proof.
  assert ("h" ≠ "c") as Hne by discriminate.
  assert ("z" ≠ "c") as Hne2 by discriminate.
  destruct (rejoin_during_client_grace (Sample.paired true) 1
              (Socket.mk "c" (Some "S1") None) "482193" 0
              (Sample.session_S1 (Some "c") true) 0 2 (Socket.mk "z" None None)
              (Sample.msg "join-session" (Some "482193") None None) Sample.ext
              eq_refl eq_refl eq_refl Hne eq_refl eq_refl eq_refl eq_refl Hne2
              eq_refl eq_refl)
    as (_ & Hat & _).
  exact Hat.
Defined.

(** X14. in the heartbeat variant, after the close of the host the session
    stays in the store, marked [hostOffline]; a ['reconnect-session'] for the
    host role then puts the new connection in the host slot of the same
    session (same id, same control flag, same client), clears the mark, and
    tells a registered client [host-reconnected] once. *)
Theorem heartbeat_host_returns σ ws w code s session ws2 w2 data x :
  socket_heap σ !! ws = Some w →
  truthy (Socket._sessionId w) = true →
  first_with_id σ (Socket._sessionId w) = Some (code, s, session) →
  Session.hostId session = Socket._clientId w →
  JsObj.get (sessions σ) code = Some s →
  socket_heap σ !! ws2 = Some w2 →
  Data.type data = "reconnect-session" →
  Data.sessionCode data = Some code →
  code ≠ "" →
  Data.role data = Some "host" →
  let σ1 := (Heartbeat.on_close ws σ).1 in
  let back := Heartbeat.on_message ws2 (Some data) x σ1 in
  session_at σ1 code = Some (s, Session.set_hostOffline true session)
  ∧ back.2
    = match live_ws σ1 (Session.clientId session) with
      | Some clientWs => [(clientWs, host_reconnected)]
      | None => []
      end ++ [(ws2, session_rejoined (Session.id session))]
  ∧ session_at back.1 code
    = Some (s, Session.set_hostOffline false
                 (Session.set_hostId (Socket._clientId w2) session))
  ∧ socket_heap back.1 !! ws2
    = Some (Socket.mk (Socket._clientId w2) (Some (Session.id session)) (Some "host")).
Proof.
  intros Hw Hbound Hfirst Hhost Hget Hw2 Htype Hcode Hne Hrole.
  pose proof (first_with_id_lookup _ _ _ _ _ Hfirst) as Hs.
  rewrite (heartbeat_close_host σ ws w code s session) by done. simpl.
  assert (session_at (upd_session s (Session.set_hostOffline true)
                        (set_clients (JsObj.delete (Socket._clientId w)) σ)) code
          = Some (s, Session.set_hostOffline true session)) as Hat.
  { unfold session_at. simpl. rewrite Hget. simpl.
    by rewrite list_lookup_alter_eq, Hs. }
  split; [done|].
  unfold Heartbeat.on_message, Heartbeat.dispatch. simpl. rewrite Hw2, Htype. simpl.
  unfold Heartbeat.reconnect_session. rewrite Hcode, Hrole. simpl.
  apply String.eqb_neq in Hne. rewrite Hne. simpl. rewrite Hat. simpl.
  split; [by unfold live_ws, client_ws|]. split.
  - unfold session_at. simpl. rewrite Hget. simpl.
    rewrite !list_lookup_alter_eq, Hs. simpl. by destruct session.
  - rewrite !list_lookup_alter_eq, Hw2. by destruct w2.
Qed.

Lemma heartbeat_host_returns_witness :
  let σ1 := (Heartbeat.on_close 0 (Sample.paired true)).1 in
  let data := Sample.msg "reconnect-session" (Some "482193") (Some "host") None in
  (Heartbeat.on_message 2 (Some data) Sample.ext σ1).2
  = [(1, host_reconnected); (2, session_rejoined "S1")].
Proof.
  assert ("482193" ≠ "") as Hne by discriminate.
  destruct (heartbeat_host_returns (Sample.paired true) 0
              (Socket.mk "h" (Some "S1") None) "482193" 0
              (Sample.session_S1 (Some "c") true) 2 (Socket.mk "z" None None)
              (Sample.msg "reconnect-session" (Some "482193") (Some "host") None)
              Sample.ext
              eq_refl eq_refl eq_refl eq_refl eq_refl eq_refl eq_refl eq_refl Hne
              eq_refl)
    as (_ & Hout & _).
  exact Hout.
Defined.



(** X16. what the message handler of the heartbeat variant sends. An [error]
    reply is all it sends and leaves the state as it was, also for
    [host-not-available]; and no message is ever a
    [reconnect-session-failed], a [reconnect-session-success] (with or
    without a [sessionId] field) or a [control-event]. *)
Theorem heartbeat_replies ws msg x σ to obj :
  (to, obj) ∈ (Heartbeat.on_message ws msg x σ).2 →
  (∀ e, obj = error e → Heartbeat.on_message ws msg x σ = (σ, [(ws, error e)]))
  ∧ (∀ message, obj ≠ reconnect_session_failed message)
  ∧ (∀ sessionId sessionCode, obj ≠ reconnect_session_success sessionId sessionCode)
  ∧ (∀ sessionCode, obj ≠ reconnect_session_success_no_id sessionCode)
  ∧ (∀ from event, obj ≠ control_event from event).
Proof.
  unfold Heartbeat.on_message.
  destruct (socket_heap σ !! ws) as [w|]; [|by intros ?%elem_of_nil].
  destruct msg as [data|]; last first.
  { unfold send. intros Hin. simpl in Hin. only_reply_by broadcast_only.
    by repeat split; intros; simplify_eq. }
  rewrite reconnect_shadowed_unreachable.
  unfold Heartbeat.reconnect_session, Heartbeat.reconnect_inherited,
    Heartbeat.create_session, Heartbeat.join_session, Heartbeat.join_inherited,
    Heartbeat.signal, Heartbeat.toggle_control, send.
  split_handler; simpl; intros Hin; simpl in Hin; only_reply_by broadcast_only;
    by repeat split; intros; simplify_eq.
Qed.

Lemma heartbeat_replies_witness :
  Heartbeat.on_message 2 (Some (Sample.msg "join-session" (Some "482193") None None))
    Sample.ext heartbeat_paired
  = (heartbeat_paired, [(2, error "session-already-has-client")]).
Proof.
  assert ((2, error "session-already-has-client")
          ∈ (Heartbeat.on_message 2
               (Some (Sample.msg "join-session" (Some "482193") None None))
               Sample.ext heartbeat_paired).2) as Hin
    by (apply list_elem_of_singleton; reflexivity).
  destruct (heartbeat_replies 2
              (Some (Sample.msg "join-session" (Some "482193") None None))
              Sample.ext heartbeat_paired 2 (error "session-already-has-client") Hin)
    as [Honly _].
  exact (Honly "session-already-has-client" eq_refl).
Defined.

Lemma error_reply_is_only_effect_witness :
  Grace.dispatch 2 "z" (Sample.msg "join-session" (Some "482193") None None)
    Sample.ext (Sample.paired true)
  = (Sample.paired true, [(2, error "session-already-has-client")]).
Proof.
  apply (error_reply_is_only_effect 2 "z"
           (Sample.msg "join-session" (Some "482193") None None)
           Sample.ext (Sample.paired true) 2 "session-already-has-client").
  - apply list_elem_of_singleton. reflexivity.
  - discriminate.
Defined.

Lemma restore_session_keeps_live_host_witness :
  hostId_at
    (Restore.on_message 2
       (Some (Sample.msg "restore-session" (Some "482193") (Some "host") None))
       Sample.ext (Sample.paired true)).1
    "482193"
  = Some "h".
Proof.
  destruct (restore_session_keeps_live_host (Sample.paired true) 2
              (Socket.mk "z" None None)
              (Sample.msg "restore-session" (Some "482193") (Some "host") None)
              Sample.ext 0 (Sample.session_S1 (Some "c") true) 0
              eq_refl eq_refl eq_refl eq_refl eq_refl)
    as [_ Hhost].
  exact Hhost.
Defined.

(** ** The liveness monitor *)

Section LivenessFacts.

Import Liveness.

Lemma liveness_run_snoc events e σ :
  Liveness.run (events ++ [e]) σ
  = ((Liveness.step e (Liveness.run events σ).1).1,
     (Liveness.run events σ).2 ++ (Liveness.step e (Liveness.run events σ).1).2).
Proof.
  unfold Liveness.run. rewrite fold_left_app. simpl.
  by destruct (Liveness.step e _).
Qed.

Lemma liveness_run_cons_state e events σ :
  (Liveness.run (e :: events) σ).1
  = (Liveness.run events (Liveness.step e σ).1).1.
Proof.
  unfold Liveness.run. simpl.
  destruct (Liveness.step e σ) as [σ' out]. simpl.
  generalize (@nil Act). generalize out. revert σ'.
  induction events as [|e' events IH]; intros σ' out1 out2; [done|].
  simpl. destruct (Liveness.step e' σ') as [σ'' out']. apply IH.
Qed.

Lemma visit_length l acc :
  List.length (fold_left visit l acc).1 = List.length acc.1.
Proof.
  revert acc. induction l as [|w l IH]; intros acc; [done|].
  simpl. rewrite IH. unfold visit.
  destruct (acc.1 !! w) as [[]|]; simpl; [|done..].
  by rewrite length_insert.
Qed.

Lemma visit_keeps_acts l acc a :
  a ∈ acc.2 → a ∈ (fold_left visit l acc).2.
Proof.
  revert acc. induction l as [|w l IH]; intros acc Hin; [done|].
  simpl. apply IH. unfold visit.
  destruct (acc.1 !! w) as [[]|]; simpl; apply elem_of_app; by left.
Qed.

Lemma visit_keeps_false l acc ws :
  acc.1 !! ws = Some false → (fold_left visit l acc).1 !! ws = Some false.
Proof.
  revert acc. induction l as [|w l IH]; intros acc Hflag; [done|].
  simpl. apply IH. unfold visit.
  destruct (acc.1 !! w) as [[]|] eqn:Hw; simpl; [|done..].
  destruct (decide (w = ws)) as [->|Hne]; [congruence|].
  by rewrite list_lookup_insert_ne.
Qed.

Lemma visit_resets l acc ws :
  ws ∈ l → is_Some (acc.1 !! ws) → (fold_left visit l acc).1 !! ws = Some false.
Proof.
  revert acc. induction l as [|w l IH]; intros acc Hin Hsome; [by inversion Hin|].
  simpl. destruct (decide (w = ws)) as [->|Hne].
  - apply visit_keeps_false. unfold visit.
    destruct Hsome as [a Ha]. rewrite Ha. destruct a; simpl; [|done].
    apply list_lookup_insert_eq. by eapply lookup_lt_Some.
  - apply IH; [by apply elem_of_cons in Hin as [?|?]|]. unfold visit.
    destruct (acc.1 !! w) as [[]|] eqn:Hw; simpl; [|done..].
    by rewrite list_lookup_insert_ne.
Qed.

Lemma visit_terminates l acc ws :
  ws ∈ l → acc.1 !! ws ≠ Some true → terminate ws ∈ (fold_left visit l acc).2.
Proof.
  revert acc. induction l as [|w l IH]; intros acc Hin Hflag; [by inversion Hin|].
  simpl. destruct (decide (w = ws)) as [->|Hne].
  - apply visit_keeps_acts. unfold visit.
    destruct (acc.1 !! ws) as [[]|]; simpl; [done|..];
      apply elem_of_app; right; by apply list_elem_of_singleton.
  - apply IH; [by apply elem_of_cons in Hin as [?|?]|]. unfold visit.
    destruct (acc.1 !! w) as [[]|] eqn:Hw; simpl; [|done..].
    by rewrite list_lookup_insert_ne.
Qed.

Lemma visit_terminate_inv l acc ws :
  NoDup l →
  terminate ws ∈ (fold_left visit l acc).2 →
  terminate ws ∈ acc.2 ∨ (ws ∈ l ∧ acc.1 !! ws ≠ Some true).
Proof.
  revert acc. induction l as [|w l IH]; intros acc Hnodup Hin; [by left|].
  apply NoDup_cons in Hnodup as [Hw Hnodup].
  simpl in Hin. apply IH in Hin; [|done]. destruct Hin as [Hin|[Hin Hflag]].
  - unfold visit in Hin.
    destruct (acc.1 !! w) as [[]|] eqn:Hlook; simpl in Hin;
      apply elem_of_app in Hin as [Hin|Hin]; try (by left);
      apply list_elem_of_singleton in Hin; try done;
      injection Hin as ->; right; split; try (by left); congruence.
  - right. split; [by right|].
    assert (w ≠ ws) as Hne by (intros ->; done).
    unfold visit in Hflag.
    destruct (acc.1 !! w) as [[]|] eqn:Hlook; simpl in Hflag; [|done..].
    by rewrite list_lookup_insert_ne in Hflag.
Qed.

Lemma step_length e σ :
  (List.length (isAlive σ) ≤ List.length (isAlive (Liveness.step e σ).1))%nat.
Proof.
  destruct e; simpl.
  - rewrite length_app. lia.
  - by rewrite length_insert.
  - by rewrite visit_length.
  - done.
Qed.

Lemma well_formed_step e σ :
  well_formed σ → well_formed (Liveness.step e σ).1.
Proof.
  intros [Hnodup Hlt]. destruct e; simpl.
  - split; simpl.
    + apply NoDup_app. split; [done|]. split; [|apply NoDup_singleton].
      intros w Hw%Hlt ->%list_elem_of_singleton. lia.
    + intros w [Hw%Hlt| ->%list_elem_of_singleton]%elem_of_app;
        rewrite length_app; simpl; lia.
  - split; simpl; [done|]. intros w Hw%Hlt. by rewrite length_insert.
  - split; simpl; [done|]. intros w Hw%Hlt. by rewrite visit_length.
  - split; simpl.
    + by apply NoDup_filter.
    + intros w [_ Hw]%list_elem_of_filter. by apply Hlt.
Qed.

Lemma well_formed_run events σ :
  well_formed σ → well_formed (Liveness.run events σ).1.
Proof.
  intros Hwf. induction events as [|e events IH] using rev_ind; [done|].
  rewrite liveness_run_snoc. simpl. by apply well_formed_step.
Qed.

(** A silent socket stays in the set with its flag down. *)
Lemma silent_stays_down ws events σ :
  silent ws events →
  ws ∈ wss_clients σ →
  isAlive σ !! ws = Some false →
  ws ∈ wss_clients (Liveness.run events σ).1
  ∧ isAlive (Liveness.run events σ).1 !! ws = Some false.
Proof.
  intros [Hpong Hclosed] Hin Hflag.
  induction events as [|e events IH] using rev_ind; [done|].
  rewrite liveness_run_snoc. simpl.
  rewrite elem_of_app in Hpong, Hclosed.
  destruct IH as [IHin IHflag]; [tauto..|].
  destruct e as [|w| |w]; simpl.
  - split; [apply elem_of_app; by left|]. by apply lookup_app_l_Some.
  - split; [done|].
    assert (w ≠ ws) as Hne.
    { intros ->. apply Hpong. right. by apply list_elem_of_singleton. }
    by rewrite list_lookup_insert_ne.
  - split; [done|]. by apply visit_keeps_false.
  - split; [|done].
    assert (w ≠ ws) as Hne.
    { intros ->. apply Hclosed. right. by apply list_elem_of_singleton. }
    apply list_elem_of_filter. split; [congruence|done].
Qed.

(** The flag of a socket that has answered the last ping is up. *)
Lemma answered_flag_up ws events σ :
  isAlive σ !! ws = Some true →
  (Tick ∉ events
   ∨ ∃ mid tail, events = mid ++ Tick :: tail ∧ (Tick ∉ tail) ∧ Pong ws ∈ tail) →
  isAlive (Liveness.run events σ).1 !! ws = Some true.
Proof.
  intros Hflag.
  induction events as [|e events IH] using rev_ind; [done|].
  intros Hanswered. rewrite liveness_run_snoc. simpl.
  assert (ws < List.length (isAlive (Liveness.run events σ).1))%nat as Hlt.
  { apply lookup_lt_Some in Hflag.
    clear -Hflag. induction events as [|e events IH] using rev_ind; [done|].
    rewrite liveness_run_snoc. simpl.
    pose proof (step_length e (Liveness.run events σ).1). lia. }
  assert (e = Pong ws ∨ e ≠ Pong ws) as [->|Hother].
  { destruct e as [|w| |w]; try (by right).
    destruct (decide (w = ws)) as [->|?]; [by left|right; congruence]. }
  { simpl. by apply list_lookup_insert_eq. }
  assert (e ≠ Tick) as Hno_tick.
  { intros ->. destruct Hanswered as [Hno|(mid & tail & Heq & Hno & Hpong)].
    - apply Hno, elem_of_app. right. by apply list_elem_of_singleton.
    - destruct tail as [|e' tail _] using rev_ind; [by inversion Hpong|].
      change (mid ++ Tick :: tail ++ [e']) with (mid ++ (Tick :: tail) ++ [e']) in Heq.
      rewrite app_assoc in Heq. apply app_inj_tail in Heq as [_ <-].
      apply Hno, elem_of_app. right. by apply list_elem_of_singleton. }
  assert (isAlive (Liveness.run events σ).1 !! ws = Some true) as IHflag.
  { apply IH. destruct Hanswered as [Hno|(mid & tail & Heq & Hno & Hpong)].
    - left. intros Hin. apply Hno, elem_of_app. by left.
    - right. destruct tail as [|e' tail _] using rev_ind; [by inversion Hpong|].
      change (mid ++ Tick :: tail ++ [e']) with (mid ++ (Tick :: tail) ++ [e']) in Heq.
      rewrite app_assoc in Heq. apply app_inj_tail in Heq as [-> <-].
      exists mid, tail. split; [done|].
      split; [intros Hin; apply Hno, elem_of_app; by left|].
      apply elem_of_app in Hpong as [Hpong|Hpong]; [done|].
      apply list_elem_of_singleton in Hpong. congruence. }
  destruct e as [|w| |w]; simpl.
  - by apply lookup_app_l_Some.
  - rewrite list_lookup_insert_ne; [done|congruence].
  - done.
  - done.
Qed.

Lemma terminate_at_tick ws events σ :
  terminate ws ∈ (Liveness.run events σ).2 →
  ∃ pre post,
    events = pre ++ Tick :: post
    ∧ terminate ws ∈ (tick (Liveness.run pre σ).1).2.
Proof.
  induction events as [|e events IH] using rev_ind; [by inversion 1|].
  rewrite liveness_run_snoc. simpl.
  intros [Hin|Hin]%elem_of_app.
  - destruct (IH Hin) as (pre & post & -> & Hat).
    exists pre, (post ++ [e]). split; [|done]. by rewrite <- app_assoc.
  - destruct e; simpl in Hin; try (by inversion Hin).
    by exists events, [].
Qed.

End LivenessFacts.

(** X17. a socket of which nothing is heard after one round of the ping loop
    is terminated by the next round. *)
Theorem silent_socket_terminated ws σ events :
  ws ∈ Liveness.wss_clients σ →
  is_Some (Liveness.isAlive σ !! ws) →
  Liveness.silent ws events →
  let σ1 := (Liveness.run (Liveness.Tick :: events) σ).1 in
  Liveness.terminate ws ∈ (Liveness.step Liveness.Tick σ1).2.
Proof.
  intros Hin Hsome Hsilent. simpl.
  rewrite liveness_run_cons_state. simpl.
  destruct (silent_stays_down ws events (Liveness.tick σ).1) as [Hin' Hflag];
    [done|done|by apply visit_resets|].
  apply visit_terminates; [done|]. simpl. simpl in Hflag. by rewrite Hflag.
Qed.

Lemma silent_socket_terminated_witness :
  Liveness.terminate 0
  ∈ (Liveness.step Liveness.Tick
       (Liveness.run [Liveness.Tick; Liveness.Connection; Liveness.Pong 1]
                     (Liveness.mk [true] [0])).1).2.
Proof.
  apply (silent_socket_terminated 0 (Liveness.mk [true] [0])
           [Liveness.Connection; Liveness.Pong 1]).
  - simpl. by apply list_elem_of_singleton.
  - by eexists.
  - split; intros Hin; repeat (apply elem_of_cons in Hin as [Hin|Hin]; [done|]);
      by inversion Hin.
Defined.

(** X18. a socket that answers every ping is never terminated by the ping
    loop. *)
Theorem answering_socket_never_terminated ws σ events :
  Liveness.well_formed σ →
  Liveness.isAlive σ !! ws = Some true →
  Liveness.answers ws events →
  Liveness.terminate ws ∉ (Liveness.run events σ).2.
Proof.
  intros Hwf Hflag Hanswers Hin.
  apply terminate_at_tick in Hin as (pre & post & -> & Hin).
  pose proof (well_formed_run pre σ Hwf) as [Hnodup _].
  apply (visit_terminate_inv _ _ _ Hnodup) in Hin as [Hin|[_ Hdown]];
    [by inversion Hin|].
  apply Hdown. simpl. apply answered_flag_up; [done|]. by eapply Hanswers.
Qed.

Lemma answering_socket_never_terminated_witness :
  Liveness.terminate 0
  ∉ (Liveness.run [Liveness.Tick; Liveness.Pong 0; Liveness.Tick]
                  (Liveness.mk [true] [0])).2.
Proof.
  apply (answering_socket_never_terminated 0 (Liveness.mk [true] [0])
           [Liveness.Tick; Liveness.Pong 0; Liveness.Tick]).
  - split; simpl.
    + apply NoDup_singleton.
    + intros ws ->%list_elem_of_singleton. lia.
  - reflexivity.
  - intros pre post Heq.
    destruct pre as [|e1 [|e2 [|e3 pre]]]; simpl in Heq.
    + left. by intros ?%elem_of_nil.
    + discriminate.
    + injection Heq as <- <- <-. right.
      exists [], [Liveness.Pong 0]. split; [done|]. split.
      * intros Hin. apply elem_of_cons in Hin as [?|Hin]; [done|by inversion Hin].
      * by left.
    + injection Heq as _ _ _ Heq. by destruct pre.
Defined.
